(** * neighborhood-scripts: a shallow embedding of [neighborhoods_generation.py]

    The script fuses tabular neighbourhood records with census polygons.
    Its logic lives in a handful of small functions and in the top-level
    [__main__] block; both are embedded here, function by function, under
    the names of the source.

    Conventions.
    - A Python exception is a value of [exn]; a computation that may raise
      returns [result].  Printing and the network are explicit: a log of
      lines and a function from URLs to outcomes.
    - A float64 (numpy / pandas) is an IEEE-754 binary64 number, modelled by
      the Standard Library's [spec_float] with precision 53 and maximal
      exponent 1024.  A missing value of a float column is NaN.
    - geopandas / shapely primitives (distance, centroid, area,
      reprojection, union) are library code: they are parameters of the
      sections that use them.
    - pandas operations ([merge], [drop], [rename], [drop_duplicates],
      [groupby], [idxmin], the missing-value markers of [read_csv], the
      dtype inference of [Series.apply]) and Python's [int] on ASCII text
      are written out; [int] on other text is a parameter.

    The first part holds the definitions, the second the theorems. *)

From Stdlib Require Import ZArith List String Ascii Bool Lia SpecFloat.
From Stdlib Require Import Sorted Permutation.
Import ListNotations.

Local Open Scope Z_scope.

(* ================================================================= *)
(** ** Python exceptions and results *)

Module Py.

(** The exception classes the modelled code raises. *)
Inductive exn : Type :=
| KeyError
| ValueError
| TypeError
| IndexError
| MergeError
| AttributeError
| OverflowError.

Inductive result (A : Type) : Type :=
| Ok (a : A)
| Raise (e : exn).

Arguments Ok {A} a.
Arguments Raise {A} e.

Definition bind {A B} (m : result A) (k : A -> result B) : result B :=
  match m with
  | Ok a => k a
  | Raise e => Raise e
  end.

(** The name of the class of an exception. *)
Definition class_name (e : exn) : string :=
  match e with
  | KeyError => "KeyError"
  | ValueError => "ValueError"
  | TypeError => "TypeError"
  | IndexError => "IndexError"
  | MergeError => "MergeError"
  | AttributeError => "AttributeError"
  | OverflowError => "OverflowError"
  end%string.

Definition is_ok {A} (m : result A) : bool :=
  match m with Ok _ => true | Raise _ => false end.

(** [mapM f l]: apply [f] to each element in order, stopping at the first
    exception (what [Series.apply] does with a raising callback). *)
Fixpoint mapM {A B} (f : A -> result B) (l : list A) : result (list B) :=
  match l with
  | [] => Ok []
  | x :: tl =>
      match f x with
      | Raise e => Raise e
      | Ok y =>
          match mapM f tl with
          | Raise e => Raise e
          | Ok ys => Ok (y :: ys)
          end
      end
  end.

End Py.

Import Py.

Declare Scope py_scope.
Notation "x <- m ;; k" := (Py.bind m (fun x => k))
  (at level 61, m at next level, right associativity) : py_scope.
Local Open Scope py_scope.

(* ================================================================= *)
(** ** float64 *)

Module F64.

Definition prec : Z := 53.
Definition emax : Z := 1024.

Definition float64 : Type := spec_float.

Definition div (x y : float64) : float64 := SFdiv prec emax x y.
Definition mul (x y : float64) : float64 := SFmul prec emax x y.

Definition nan : float64 := S754_nan.
Definition pos_zero : float64 := S754_zero false.
Definition neg_zero : float64 := S754_zero true.
Definition pos_inf : float64 := S754_infinity false.

(** pandas' [isna] on a float64 cell. *)
Definition is_nan (x : float64) : bool :=
  match x with S754_nan => true | _ => false end.

Definition is_zero (x : float64) : bool :=
  match x with S754_zero _ => true | _ => false end.

Definition is_inf (x : float64) : bool :=
  match x with S754_infinity _ => true | _ => false end.

Definition is_finite_nonzero (x : float64) : bool :=
  match x with S754_finite _ _ _ => true | _ => false end.

Definition sign (x : float64) : bool :=
  match x with
  | S754_zero s | S754_infinity s | S754_finite s _ _ => s
  | S754_nan => false
  end.

(** Literals of the script, as binary64 values (mantissa of 53 bits). *)
(** [100] *)
Definition f100 : float64 := S754_finite false 7036874417766400 (-46).
(** [2.59e+6] = 2590000, exactly representable. *)
Definition f2_59e6 : float64 := S754_finite false 5561982648320000 (-31).
(** The binary64 number nearest to 2589988.110336 (0x1.3c2920e1f7d74p+21). *)
Definition f2589988_110336 : float64 := S754_finite false 5561957115460980 (-31).
Definition f1 : float64 := S754_finite false 4503599627370496 (-52).
Definition f1500 : float64 := S754_finite false 6597069766656000 (-42).
Definition f300000 : float64 := S754_finite false 5153960755200000 (-34).
Definition f0_5 : float64 := S754_finite false 4503599627370496 (-53).

(** Elementwise binary operation of two aligned float64 Series. *)
Fixpoint map2 (f : float64 -> float64 -> float64) (xs ys : list float64)
  : list float64 :=
  match xs, ys with
  | x :: xs', y :: ys' => f x y :: map2 f xs' ys'
  | _, _ => []
  end.

End F64.

Import F64.

(* ================================================================= *)
(** ** [__main__]: the derived ratio [city_RTV] (line 274)

    [gdf['city_RTV'] = gdf['city_ZORI'] / gdf['city_ZHVI'] * 100]:
    elementwise float64 division, then multiplication by the scalar 100. *)

Definition city_RTV_column (city_ZORI city_ZHVI : list float64) : list float64 :=
  map (fun q => mul q f100) (map2 div city_ZORI city_ZHVI).

(** The ratio of one record. *)
Definition city_RTV (rent_index value_index : float64) : float64 :=
  mul (div rent_index value_index) f100.

(* ================================================================= *)
(** ** [__main__]: the area column (line 328)

    [gdf['area_sq_mi'] = gdf['geometry'].to_crs(3857).area / 2.59e+6].
    The frame was tagged [EPSG:4326] on line 313.  [GeoSeries.to_crs]
    raises [ValueError] on a series without a reference system and returns
    the series itself when source and target coincide. *)

Record GeoSeries (geometry : Type) : Type := mkGeoSeries {
  crs : option Z;
  geoms : list geometry
}.

Arguments mkGeoSeries {geometry} crs geoms.
Arguments crs {geometry} g.
Arguments geoms {geometry} g.

Section Area.

Variable geometry : Type.
(** pyproj: reproject a geometry from one EPSG code to another. *)
Variable transform : Z -> Z -> geometry -> geometry.
(** shapely: planar area of a geometry, in squared units of its coordinates. *)
Variable area : geometry -> float64.

Definition to_crs (s : GeoSeries geometry) (epsg : Z) : result (GeoSeries geometry) :=
  match crs s with
  | None => Raise ValueError
  | Some c =>
      if (c =? epsg)%Z then Ok s
      else Ok (mkGeoSeries (Some epsg) (map (transform c epsg) (geoms s)))
  end.

Definition geoseries_area (s : GeoSeries geometry) : list float64 :=
  map area (geoms s).

Definition area_sq_mi (boundaries : list geometry) : result (list float64) :=
  planar <- to_crs (mkGeoSeries (Some 4326) boundaries) 3857 ;;
  Ok (map (fun a => div a f2_59e6) (geoseries_area planar)).

End Area.

Arguments to_crs {geometry} transform s epsg.
Arguments geoseries_area {geometry} area s.
Arguments area_sq_mi {geometry} transform area boundaries.

(* ================================================================= *)
(** ** [__main__]: the population column (lines 316, 331-334)

    The column comes from [walkscores.csv] through [pd.read_csv] (line 316)
    and the left join of line 319.  [read_csv] reads a field that is one of
    its missing-value markers (the empty field among them) as NaN, and gives
    the column a numeric dtype when every other field is a number; otherwise
    the column has dtype [object] and its cells are [str] or NaN.

    Line 331 goes through the [.str] accessor, which exists on a column of
    text only; [Series.str.replace(',', '')] rewrites the strings and leaves
    NaN.  Line 334 applies [int] to the strings only, and [Series.apply]
    stores the results in an array whose dtype it infers from them. *)

Module Population.

(** A character of ASCII.  A Python [str] is held here by its UTF-8 bytes:
    a text of ASCII characters is the same sequence in both. *)
Definition is_ascii (c : ascii) : bool := (nat_of_ascii c <? 128)%nat.

(** Whitespace skipped by [int()] around the literal of an ASCII text:
    tab, line feed, vertical tab, form feed, carriage return, space. *)
Definition is_space (c : ascii) : bool :=
  let n := nat_of_ascii c in
  ((9 <=? n) && (n <=? 13) || (n =? 32))%nat.

Definition digit_of (c : ascii) : option Z :=
  let n := nat_of_ascii c in
  if ((48 <=? n) && (n <=? 57))%nat then Some (Z.of_nat n - 48) else None.

Definition is_comma (c : ascii) : bool := Ascii.eqb c ","%char.
Definition is_underscore (c : ascii) : bool := Ascii.eqb c "_"%char.
Definition is_sign (c : ascii) : bool := Ascii.eqb c "+"%char || Ascii.eqb c "-"%char.

Fixpoint string_forallb (p : ascii -> bool) (s : string) : bool :=
  match s with
  | EmptyString => true
  | String c tl => p c && string_forallb p tl
  end.

Fixpoint string_existsb (p : ascii -> bool) (s : string) : bool :=
  match s with
  | EmptyString => false
  | String c tl => p c || string_existsb p tl
  end.

(** *** [pd.read_csv] (line 316): the cell of a field of a text column *)

(** The markers [read_csv] reads as NaN by default (pandas 2.x). *)
Definition na_values : list string :=
  [ ""; "#N/A"; "#N/A N/A"; "#NA"; "-1.#IND"; "-1.#QNAN"; "-NaN"; "-nan";
    "1.#IND"; "1.#QNAN"; "<NA>"; "N/A"; "NA"; "NULL"; "NaN"; "None"; "n/a";
    "nan"; "null" ]%string.

Definition is_na_value (field : string) : bool :=
  existsb (String.eqb field) na_values.

Definition read_csv_field (field : string) : option string :=
  if is_na_value field then None else Some field.

(** *** [str.replace] and [int] *)

(** [s.replace(',', '')] *)
Fixpoint remove_commas (s : string) : string :=
  match s with
  | EmptyString => EmptyString
  | String c tl =>
      if is_comma c then remove_commas tl else String c (remove_commas tl)
  end.

Fixpoint lstrip (s : string) : string :=
  match s with
  | EmptyString => EmptyString
  | String c tl => if is_space c then lstrip tl else s
  end.

Fixpoint rstrip (s : string) : string :=
  match s with
  | EmptyString => EmptyString
  | String c tl =>
      match rstrip tl with
      | EmptyString => if is_space c then EmptyString else String c EmptyString
      | r => String c r
      end
  end.

(** The digit part of a decimal literal: digits, with single underscores
    allowed between two digits.  [prev] tells whether the previous character
    was a digit. *)
Fixpoint parse_digits (s : string) (acc : Z) (prev : bool) : option Z :=
  match s with
  | EmptyString => if prev then Some acc else None
  | String c tl =>
      match digit_of c with
      | Some d => parse_digits tl (10 * acc + d) true
      | None =>
          if is_underscore c && prev then parse_digits tl acc false else None
      end
  end.

Definition parse_signed (s : string) : option Z :=
  match s with
  | EmptyString => None
  | String c tl =>
      if Ascii.eqb c "-"%char then option_map Z.opp (parse_digits tl 0 false)
      else if Ascii.eqb c "+"%char then parse_digits tl 0 false
      else parse_digits s 0 false
  end.

(** The limit on the digits of a decimal literal ([sys.int_info], Python
    3.11). *)
Definition max_str_digits : nat := 4300.

Fixpoint count_digits (s : string) : nat :=
  match s with
  | EmptyString => O
  | String c tl =>
      match digit_of c with
      | Some _ => S (count_digits tl)
      | None => count_digits tl
      end
  end.

(** Python's [int(s)] in base 10 for a [str] of ASCII characters. *)
Definition int_of_ascii (s : string) : result Z :=
  let literal := rstrip (lstrip s) in
  if (max_str_digits <? count_digits literal)%nat then Raise ValueError
  else
    match parse_signed literal with
    | Some z => Ok z
    | None => Raise ValueError
    end.

(** *** The array [Series.apply] returns

    [Series.apply] collects the results of the callback, Python [int]s and
    NaN here, and converts them ([lib.maybe_convert_objects]): to float64
    when a NaN was seen, to int64 or uint64 when there were integers only,
    and it keeps the objects when an integer is outside the range of both
    or negative and large integers are mixed. *)

(** A cell of the result. *)
Inductive scalar : Type :=
| PyInt (z : Z)
| PyFloat (f : float64).

Inductive values : Type :=
| Int64 (v : list Z)
| UInt64 (v : list Z)
| Float64 (v : list float64)
| Object (v : list (option Z)).

Definition int64_min : Z := - 2 ^ 63.
Definition int64_max : Z := 2 ^ 63 - 1.
Definition uint64_max : Z := 2 ^ 64 - 1.

(** A Python [int] as a C double: rounded to the nearest, ties to even. *)
Definition float_of_int (z : Z) : float64 := binary_normalize prec emax z 0 false.

(** What the conversion has seen so far. *)
Record seen : Type := mkSeen {
  nan_ : bool;
  int_ : bool;
  uint_ : bool;
  sint_ : bool
}.

(** The scan of the objects.  [None]: the objects are kept as they are.
    An integer too large for a double raises [OverflowError]. *)
Fixpoint scan_objects (objects : list (option Z)) (s : seen)
  : result (option seen) :=
  match objects with
  | [] => Ok (Some s)
  | None :: tl => scan_objects tl (mkSeen true (int_ s) (uint_ s) (sint_ s))
  | Some z :: tl =>
      match float_of_int z with
      | S754_zero _ | S754_finite _ _ _ =>
          let uint' := uint_ s || (int64_max <? z) && (z <=? uint64_max) in
          let sint' := sint_ s || (int64_min <=? z) && (z <? 0) in
          if uint' && sint' || (uint64_max <? z) || (z <? int64_min)
          then Ok None
          else scan_objects tl (mkSeen (nan_ s) true uint' sint')
      | _ => Raise OverflowError
      end
  end.

Definition to_float (x : option Z) : float64 :=
  match x with
  | Some z => float_of_int z
  | None => nan
  end.

Definition integers (objects : list (option Z)) : list Z :=
  flat_map (fun x => match x with Some z => [z] | None => [] end) objects.

Definition maybe_convert_objects (objects : list (option Z)) : result values :=
  s <- scan_objects objects (mkSeen false false false false) ;;
  match s with
  | None => Ok (Object objects)
  | Some s =>
      if nan_ s then Ok (Float64 (map to_float objects))
      else if int_ s then
        if uint_ s then Ok (UInt64 (integers objects))
        else Ok (Int64 (integers objects))
      else Ok (Object objects)
  end.

Definition object_cell (x : option Z) : scalar :=
  match x with
  | Some z => PyInt z
  | None => PyFloat nan
  end.

(** The cells of an array, in row order. *)
Definition cells (v : values) : list scalar :=
  match v with
  | Int64 l | UInt64 l => map PyInt l
  | Float64 l => map PyFloat l
  | Object l => map object_cell l
  end.

(** pandas' [isna] on a cell. *)
Definition is_missing (x : scalar) : bool :=
  match x with
  | PyFloat f => is_nan f
  | PyInt _ => false
  end.

(** How an array of the dtype of [v] holds a result of the callback. *)
Definition stored (v : values) (x : option Z) : scalar :=
  match v with
  | Float64 _ => PyFloat (to_float x)
  | _ => object_cell x
  end.

(** *** The column as it reaches line 331

    [Text]: dtype [object], every cell a [str] or NaN ([None]).
    [Numeric]: a numeric dtype (int64 or float64), every field of the
    column having been a number or missing. *)

Inductive column : Type :=
| Text (col : list (option string))
| Numeric (col : list float64).

Section Int.

(** Python's [int] on a [str] that holds a character outside ASCII, where
    Unicode digits and blanks are accepted: library code, a parameter.
    [None] when it raises [ValueError]. *)
Variable int_of_unicode : string -> option Z.

(** Python's [int(s)] for a [str] in base 10. *)
Definition py_int (s : string) : result Z :=
  if string_forallb is_ascii s then int_of_ascii s
  else
    match int_of_unicode s with
    | Some z => Ok z
    | None => Raise ValueError
    end.

(** One cell through both statements. *)
Definition str_replace_commas (x : option string) : option string :=
  option_map remove_commas x.

Definition int_if_str (x : option string) : result (option Z) :=
  match x with
  | Some s => z <- py_int s ;; Ok (Some z)
  | None => Ok None
  end.

Definition population_cell (x : option string) : result (option Z) :=
  int_if_str (str_replace_commas x).

(** The whole column: [.str] raises [AttributeError] on a column that is not
    of text; [apply] stops at the first exception of the callback. *)
Definition population_column (population : column) : result values :=
  match population with
  | Numeric _ => Raise AttributeError
  | Text col =>
      objects <- mapM int_if_str (map str_replace_commas col) ;;
      maybe_convert_objects objects
  end.

End Int.

(** Reading a string of decimal digits and commas as a number, the commas
    being separators. *)
Fixpoint decimal_value (s : string) (acc : Z) : Z :=
  match s with
  | EmptyString => acc
  | String c tl =>
      match digit_of c with
      | Some d => decimal_value tl (10 * acc + d)
      | None => decimal_value tl acc
      end
  end.

Definition is_digit (c : ascii) : bool :=
  match digit_of c with Some _ => true | None => false end.

(** A character no decimal literal contains, commas and blanks aside. *)
Definition is_foreign (c : ascii) : bool :=
  negb (is_digit c || is_comma c || is_underscore c || is_sign c || is_space c).

(** A character of a number written with thousands separators. *)
Definition digit_or_comma (c : ascii) : bool := is_digit c || is_comma c.

(** A separator or a blank. *)
Definition comma_or_space (c : ascii) : bool := is_comma c || is_space c.

Definition is_none {A : Type} (x : option A) : bool :=
  match x with None => true | Some _ => false end.

End Population.

(* ================================================================= *)
(** ** pandas [Series.idxmin] on a float64 Series

    A Series is a list of (index label, value) in row order.  [idxmin]
    (with the default [skipna=True]) raises [ValueError] on an empty Series,
    ignores NaN values and yields the label of the first row holding the
    smallest value; on a Series of NaN only it yields NaN ([None]; pandas
    before 3.0). *)

Module Series.

Definition t : Type := list (Z * float64).

Definition lt (x y : float64) : bool := SFltb x y.
Definition le (x y : float64) : bool := SFleb x y.

(** Scan the rest of the Series, keeping the first row seen with the
    smallest value: a later row replaces the kept one only when it is
    strictly smaller. *)
Fixpoint argmin_from (best : Z * float64) (s : t) : Z * float64 :=
  match s with
  | [] => best
  | row :: tl =>
      if is_nan (snd row) then argmin_from best tl
      else if lt (snd row) (snd best) then argmin_from row tl
      else argmin_from best tl
  end.

Fixpoint argmin_skipna (s : t) : option (Z * float64) :=
  match s with
  | [] => None
  | row :: tl =>
      if is_nan (snd row) then argmin_skipna tl
      else Some (argmin_from row tl)
  end.

Definition idxmin (s : t) : result (option Z) :=
  match s with
  | [] => Raise ValueError
  | _ => Ok (option_map fst (argmin_skipna s))
  end.

(** [farther v x]: the row [x] is skipped by [idxmin] or holds a value
    strictly above [v]; [not_nearer v x]: skipped, or not below [v]. *)
Definition farther (v : float64) (x : Z * float64) : Prop :=
  is_nan (snd x) = true \/ lt v (snd x) = true.

Definition not_nearer (v : float64) (x : Z * float64) : Prop :=
  is_nan (snd x) = true \/ le v (snd x) = true.

End Series.

(* ================================================================= *)
(** ** [nearest_poly] and [rename_nh_id] *)

(** A row of [point_gdf] (the neighbourhood points): its index label, its
    [id] column and its point. *)
Record PointRow (geometry : Type) : Type := mkPointRow {
  point_label : Z;
  point_id : Z;
  point_geometry : geometry
}.

Arguments mkPointRow {geometry} point_label point_id point_geometry.
Arguments point_label {geometry} p.
Arguments point_id {geometry} p.
Arguments point_geometry {geometry} p.

Section Nearest.

Variable geometry : Type.
(** shapely: planar distance between two geometries (zero when a point lies
    in a polygon, NaN for an empty geometry). *)
Variable distance : geometry -> geometry -> float64.
(** shapely: centroid of a geometry. *)
Variable centroid : geometry -> geometry.

(** [gdf.distance(other)]: the distance of every row's geometry to [other],
    under the labels of [gdf]. *)
Definition gdf_distance {R : Type} (label : R -> Z) (geom : R -> geometry)
  (gdf : list R) (other : geometry) : Series.t :=
  map (fun r => (label r, distance (geom r) other)) gdf.

(** [nearest_poly(point, polygons)]; [polygons] is given by its rows
    (label, geometry). *)
Definition nearest_poly (point : geometry) (polygons : list (Z * geometry))
  : result (option Z) :=
  let distances := gdf_distance fst snd polygons point in
  Series.idxmin distances.

(** [point_gdf.loc[label, 'id']]; the labels of [point_gdf] are unique (a
    merge result thinned by [drop_duplicates]).  A label that is NaN or
    absent is a [KeyError]. *)
Definition loc_id (point_gdf : list (PointRow geometry)) (label : option Z)
  : result Z :=
  match label with
  | None => Raise KeyError
  | Some l =>
      match find (fun p => (point_label p =? l)%Z) point_gdf with
      | Some p => Ok (point_id p)
      | None => Raise KeyError
      end
  end.

(** [rename_nh_id(row, point_gdf)], lines 199-201: the row is returned with
    its new [nh_id] field; here the geometry of the row and the [nh_id]
    set.  The row with its other columns, and the assignment of line 202,
    are in [rename_nh_id_row]. *)
Definition rename_nh_id (row_geometry : geometry)
  (point_gdf : list (PointRow geometry)) : result (geometry * Z) :=
  let distances :=
    gdf_distance point_label point_geometry point_gdf (centroid row_geometry) in
  nearest_point_idx <- Series.idxmin distances ;;
  nh_id <- loc_id point_gdf nearest_point_idx ;;
  Ok (row_geometry, nh_id).

(** With respect to the query [other]: the reference [r] has no distance or
    lies strictly farther than [ref]; has no distance or is not nearer. *)
Definition strictly_farther {R : Type} (geom : R -> geometry)
  (other : geometry) (ref r : R) : Prop :=
  is_nan (distance (geom r) other) = true \/
  Series.lt (distance (geom ref) other) (distance (geom r) other) = true.

Definition no_nearer {R : Type} (geom : R -> geometry)
  (other : geometry) (ref r : R) : Prop :=
  is_nan (distance (geom r) other) = true \/
  Series.le (distance (geom ref) other) (distance (geom r) other) = true.

End Nearest.

Arguments gdf_distance {geometry} distance {R} label geom gdf other.
Arguments nearest_poly {geometry} distance point polygons.
Arguments loc_id {geometry} point_gdf label.
Arguments rename_nh_id {geometry} distance centroid row_geometry point_gdf.
Arguments strictly_farther {geometry} distance {R} geom other ref r.
Arguments no_nearer {geometry} distance {R} geom other ref r.

(* ================================================================= *)
(** ** [query_census_by_geography] and [split_counties_and_query_census]

    The functions print and call the network.  The network is a parameter
    [requests_get] giving the outcome of a GET by its URL; the printed lines
    are a log threaded through the computation. *)

Module Census.

Local Open Scope string_scope.

(** The decoded response: a JSON object, of which the code reads the member
    ["features"]; [members] names the other members present. *)
Record json (feature : Type) : Type := mkJson {
  members : list string;
  features : option (list feature)
}.

Arguments mkJson {feature} members features.
Arguments members {feature} j.
Arguments features {feature} j.

(** The three statements of the [try] block: [requests.get],
    [raise_for_status], [response.json()]. *)
Inductive http_outcome (feature : Type) : Type :=
| HTTPError
    (* raise_for_status: a 4xx or 5xx answer *)
| RequestException
    (* every other failure of requests: no connection, timeout, and a body
       that does not decode as JSON *)
| Response (data : json feature).

Arguments HTTPError {feature}.
Arguments RequestException {feature}.
Arguments Response {feature} data.

(** The request did not yield a decoded response. *)
Definition fails {feature : Type} (o : http_outcome feature) : bool :=
  match o with
  | Response _ => false
  | _ => true
  end.

(** The lines printed. *)
Inductive line : Type :=
| Querying (county : string)
| HTTP_error_occurred
| Other_error_occurred
| Number_returned (geography : string) (n : nat)
| Total_number_returned (geography : string) (n : nat).

(** Computations that print and may raise. *)
Definition io (A : Type) : Type := list line -> result A * list line.

Definition ret {A} (a : A) : io A := fun log => (Ok a, log).
Definition raise {A} (e : exn) : io A := fun log => (Raise e, log).
Definition print (l : line) : io unit := fun log => (Ok tt, (log ++ [l])%list).
Definition bind {A B} (m : io A) (k : A -> io B) : io B :=
  fun log =>
    match m log with
    | (Ok a, log') => k a log'
    | (Raise e, log') => (Raise e, log')
    end.

Declare Scope io_scope.
Notation "x <~ m ;; k" := (bind m (fun x => k))
  (at level 61, m at next level, right associativity) : io_scope.
Notation "m ;;; k" := (bind m (fun _ => k))
  (at level 61, right associativity) : io_scope.
Local Open Scope io_scope.

(** [sub_layer[geography]] *)
Definition sub_layer (geography : string) : result string :=
  if String.eqb geography "tract" then Ok "0"
  else if String.eqb geography "block_group" then Ok "1"
  else if String.eqb geography "block" then Ok "2"
  else Raise KeyError.

Definition base_url : string :=
  "https://tigerweb.geo.census.gov/arcgis/rest/services/TIGERweb/Tracts_Blocks/MapServer/".

(** The URL of the request, with the defaults [fields='*'] and
    [out_format='geojson']. *)
Definition query_url (county layer : string) : string :=
  let county_str := substring 2 (String.length county) county in
  let state_str := substring 0 2 county in
  let where_clause :=
    "COUNTY='" ++ county_str ++ "' and STATE='" ++ state_str ++ "'" in
  base_url ++ layer ++ "/query?where=" ++ where_clause
    ++ "&outFields=*&f=geojson".

Section Query.

Variable feature : Type.
Variable requests_get : string -> http_outcome feature.

(** [len(data["features"])] for [data] that may be [None]. *)
Definition len_features (data : option (json feature)) : result nat :=
  match data with
  | None => Raise TypeError
  | Some j =>
      match features j with
      | None => Raise KeyError
      | Some fs => Ok (List.length fs)
      end
  end.

Definition lift {A} (r : result A) : io A := fun log => (r, log).

Definition query_census_by_geography (county geography : string)
  : io (option (json feature)) :=
  print (Querying county) ;;;
  layer <~ lift (sub_layer geography) ;;
  data <~ match requests_get (query_url county layer) with
          | Response j => ret (Some j)
          | HTTPError => print HTTP_error_occurred ;;; ret None
          | RequestException => print Other_error_occurred ;;; ret None
          end ;;
  n <~ lift (len_features data) ;;
  print (Number_returned geography n) ;;;
  ret data.

(** [not census_json] *)
Definition is_empty_dict (j : json feature) : bool :=
  match members j, features j with
  | [], None => true
  | _, _ => false
  end.

(** [census_json['features'].extend(data['features'])] *)
Definition extend_features (census_json data : json feature)
  : result (json feature) :=
  match features census_json, features data with
  | Some fs, Some gs => Ok (mkJson (members census_json) (Some (fs ++ gs)%list))
  | _, _ => Raise KeyError
  end.

(** The body of the [for] loop, from the current [census_json]. *)
Fixpoint query_counties (county_list : list string) (geography : string)
  (census_json : json feature) : io (json feature) :=
  match county_list with
  | [] => ret census_json
  | county :: rest =>
      data <~ query_census_by_geography county geography ;;
      match data with
      | Some d =>
          if is_empty_dict census_json
          then query_counties rest geography d
          else
            j <~ lift (extend_features census_json d) ;;
            query_counties rest geography j
      | None => query_counties rest geography census_json
      end
  end.

Definition split_counties_and_query_census (county_list : list string)
  (geography : string) : io (json feature) :=
  census_json <~ query_counties county_list geography (mkJson [] None) ;;
  n <~ lift (len_features (Some census_json)) ;;
  print (Total_number_returned geography n) ;;;
  ret census_json.

(** A county whose request fails, whatever the layer queried. *)
Definition county_fails (county : string) : Prop :=
  forall layer, fails (requests_get (query_url county layer)) = true.

End Query.

Arguments len_features {feature} data.
Arguments is_empty_dict {feature} j.
Arguments extend_features {feature} census_json data.
Arguments query_census_by_geography {feature} requests_get county geography.
Arguments query_counties {feature} requests_get county_list geography census_json.
Arguments split_counties_and_query_census {feature} requests_get county_list geography.
Arguments county_fails {feature} requests_get county.

(** A network in which the request for the blocks of county 06037 fails
    and every other request returns three features. *)
Definition flaky_network (url : string) : http_outcome Z :=
  if String.eqb url (query_url "06037" "2") then RequestException
  else Response (mkJson ["type"] (Some [1; 2; 3])).

End Census.

(* ================================================================= *)
(** ** [group_and_union]

    [poly_gdf] is given by its reference system and its rows, of which the
    function reads the column [nh_id] (the integer [id] set by
    [rename_nh_id]) and the geometry.  [groupby] iterates over the distinct
    keys in ascending order, each with its rows in frame order.
    [GeoDataFrame(polygons, crs=...)] on an empty list has no geometry
    column, and geopandas refuses to tag it with a reference system. *)

Record PolyFrame (geometry : Type) : Type := mkPolyFrame {
  poly_crs : option Z;
  poly_rows : list (Z * geometry)
}.

Arguments mkPolyFrame {geometry} poly_crs poly_rows.
Arguments poly_crs {geometry} p.
Arguments poly_rows {geometry} p.

(** The sorted distinct keys of [groupby] (its default [sort=True]). *)
Fixpoint insert_key (k : Z) (keys : list Z) : list Z :=
  match keys with
  | [] => [k]
  | h :: tl =>
      if k <? h then k :: keys
      else if k =? h then keys
      else h :: insert_key k tl
  end.

Definition group_keys (keys : list Z) : list Z :=
  fold_right insert_key [] keys.

Section Dissolve.

Variable geometry : Type.
(** shapely: the union of the geometries of a group. *)
Variable unary_union : list geometry -> geometry.

(** [poly_gdf.groupby('nh_id')]: the pairs [(name, group)] iterated. *)
Definition groupby_nh_id (rows : list (Z * geometry))
  : list (Z * list (Z * geometry)) :=
  map (fun name => (name, filter (fun r => fst r =? name) rows))
      (group_keys (map fst rows)).

(** [gpd.GeoDataFrame(polygons, crs=crs)] *)
Definition GeoDataFrame (polygons : list (Z * geometry)) (crs : option Z)
  : result (PolyFrame geometry) :=
  match polygons, crs with
  | [], Some _ => Raise ValueError
  | _, _ => Ok (mkPolyFrame crs polygons)
  end.

Definition group_and_union (poly_gdf : PolyFrame geometry)
  : result (PolyFrame geometry) :=
  let grouped := groupby_nh_id (poly_rows poly_gdf) in
  let polygons :=
    map (fun '(name, group) => (name, unary_union (map snd group))) grouped in
  GeoDataFrame polygons (poly_crs poly_gdf).

End Dissolve.

Arguments groupby_nh_id {geometry} rows.
Arguments GeoDataFrame {geometry} polygons crs.
Arguments group_and_union {geometry} unary_union poly_gdf.

(* ================================================================= *)
(** ** pandas frames

    A frame is its list of column labels and its rows, each row a list of
    cells, one per column.  The row index is left out: [pd.merge] renumbers
    it and no operation below reads it.  Cells are a parameter, with the
    equality pandas uses on key cells ([cell_eqb], under which two missing
    values are equal) and the missing value [nan] that fills the right
    columns of an unmatched row.  Column dtypes are not modelled, so the
    refusal of [pd.merge] to join a text key with a numeric one is not
    either.  The operations follow pandas 2.x: suffixes that create a
    duplicate label are a [MergeError] (a warning in 1.x), and the rows of
    an inner join come in the order of the left frame (from 2.2 on; before,
    the rows of a repeated left key are grouped at its first occurrence). *)

Module Frame.

Local Open Scope string_scope.

Inductive how : Type := left | inner.

Fixpoint select {A : Type} (mask : list bool) (l : list A) : list A :=
  match mask, l with
  | b :: mask', x :: l' => if b then x :: select mask' l' else select mask' l'
  | _, _ => []
  end.

(** [label in labels] *)
Definition among (labels : list string) (label : string) : bool :=
  existsb (String.eqb label) labels.

(** Position of the first column carrying [label]. *)
Fixpoint position (label : string) (cols : list string) : nat :=
  match cols with
  | [] => O
  | c :: tl => if String.eqb c label then O else S (position label tl)
  end.

Definition occurrences (label : string) (cols : list string) : nat :=
  List.length (filter (String.eqb label) cols).

(** A merge key must name exactly one column: [KeyError] when absent,
    [ValueError] ("the column label is not unique") when repeated. *)
Fixpoint check_keys (keys cols : list string) : result unit :=
  match keys with
  | [] => Ok tt
  | k :: tl =>
      match occurrences k cols with
      | O => Raise KeyError
      | S O => check_keys tl cols
      | _ => Raise ValueError
      end
  end.

(** The key columns of the right frame that carry the name of their left
    counterpart: [pd.merge] drops them from the right frame. *)
Fixpoint same_named (left_on right_on : list string) : list string :=
  match left_on, right_on with
  | lk :: ls, rk :: rs =>
      if String.eqb lk rk then rk :: same_named ls rs else same_named ls rs
  | _, _ => []
  end.

(** [llabels.duplicated() & ~left.duplicated()]: does the renaming create a
    label equal to an earlier one at a position whose original label was
    not already a repetition? *)
Fixpoint new_duplicates (seen_new seen_old : list string)
  (renamed original : list string) : bool :=
  match renamed, original with
  | n :: ns, o :: os =>
      (among seen_new n && negb (among seen_old o))
      || new_duplicates (n :: seen_new) (o :: seen_old) ns os
  | _, _ => false
  end.

(** The columns that survive [drop(columns=labels)]. *)
Definition keep_mask (labels cols : list string) : list bool :=
  map (fun c => negb (among labels c)) cols.

Section Cells.

Variable cell : Type.
Variable cell_eqb : cell -> cell -> bool.
Variable nan : cell.

Record DataFrame : Type := mkDataFrame {
  columns : list string;
  rows : list (list cell)
}.

Fixpoint key_eqb (k1 k2 : list cell) : bool :=
  match k1, k2 with
  | [], [] => true
  | x :: k1', y :: k2' => cell_eqb x y && key_eqb k1' k2'
  | _, _ => false
  end.

(** The key of a row: its cells in the columns named by [keys], in the
    order of [keys]. *)
Definition row_key (cols keys : list string) (row : list cell) : list cell :=
  map (fun k => nth (position k cols) row nan) keys.

(** *** [df.drop(columns=labels)] *)
Definition drop (df : DataFrame) (labels : list string) : result DataFrame :=
  if forallb (among (columns df)) labels then
    let keep := keep_mask labels (columns df) in
    Ok (mkDataFrame (select keep (columns df)) (map (select keep) (rows df)))
  else Raise KeyError.

(** *** [df.rename(columns={old: new})] *)
Definition rename (df : DataFrame) (old new : string) : DataFrame :=
  mkDataFrame
    (map (fun c => if String.eqb c old then new else c) (columns df))
    (rows df).

(** [df.columns[-1]] *)
Definition last_column (df : DataFrame) : result string :=
  match rev (columns df) with
  | [] => Raise IndexError
  | c :: _ => Ok c
  end.

(** *** [df.drop_duplicates(subset=labels)], keeping first occurrences *)
Fixpoint first_occurrences (key : list cell -> list cell)
  (seen : list (list cell)) (rs : list (list cell)) : list (list cell) :=
  match rs with
  | [] => []
  | r :: tl =>
      if existsb (key_eqb (key r)) seen
      then first_occurrences key seen tl
      else r :: first_occurrences key (key r :: seen) tl
  end.

Definition drop_duplicates (df : DataFrame) (subset : list string)
  : result DataFrame :=
  if forallb (among (columns df)) subset then
    let mask := map (among subset) (columns df) in
    Ok (mkDataFrame (columns df) (first_occurrences (select mask) [] (rows df)))
  else Raise KeyError.

(** *** [pd.merge(left, right, how, left_on, right_on, suffixes)] *)

(** Labels of the result: a label present on both sides receives the
    suffix of its side. *)
Definition with_suffix (overlap : list string) (suffix : string)
  (cols : list string) : list string :=
  map (fun c => if among overlap c then c ++ suffix else c) cols.

Definition merge_labels (lcols rcols : list string) (suffixes : string * string)
  : result (list string * list string) :=
  let to_rename := filter (among rcols) lcols in
  match to_rename with
  | [] => Ok (lcols, rcols)
  | _ =>
      let (lsuffix, rsuffix) := suffixes in
      if String.eqb lsuffix "" && String.eqb rsuffix "" then Raise ValueError
      else
        let llabels := with_suffix to_rename lsuffix lcols in
        let rlabels := with_suffix to_rename rsuffix rcols in
        if new_duplicates [] [] llabels lcols
           || new_duplicates [] [] rlabels rcols
        then Raise MergeError
        else Ok (llabels, rlabels)
  end.

(** Rows of the result: every left row in order, once per matching right
    row (in the order of the right frame); an unmatched left row is kept
    with missing values by a left join and left out by an inner join. *)
Definition merge_row (h : how) (matches : list cell -> list (list cell))
  (keep : list bool) (width : nat) (l : list cell) : list (list cell) :=
  match matches l with
  | [] =>
      match h with
      | left => [(l ++ repeat nan width)%list]
      | inner => []
      end
  | ms => map (fun r => (l ++ select keep r)%list) ms
  end.

Definition pd_merge (h : how) (ldf rdf : DataFrame)
  (left_on right_on : list string) (suffixes : string * string)
  : result DataFrame :=
  if negb (List.length left_on =? List.length right_on)%nat then Raise ValueError
  else
    match left_on with
    | [] => Raise IndexError
    | _ =>
        _ <- check_keys left_on (columns ldf) ;;
        _ <- check_keys right_on (columns rdf) ;;
        let right_drop := same_named left_on right_on in
        let keep := keep_mask right_drop (columns rdf) in
        let rcols := select keep (columns rdf) in
        labels <- merge_labels (columns ldf) rcols suffixes ;;
        let matches l :=
          filter (fun r => key_eqb (row_key (columns ldf) left_on l)
                                   (row_key (columns rdf) right_on r))
                 (rows rdf) in
        Ok (mkDataFrame
              (fst labels ++ snd labels)%list
              (flat_map (merge_row h matches keep (List.length rcols))
                        (rows ldf)))
    end.

(** ** [merge_dataframes] *)
Definition merge_dataframes (left_df right_df : DataFrame)
  (left_on right_on : list string) (suffixes : string * string)
  (rename_last_col : option string) : result DataFrame :=
  merged_df <- pd_merge left left_df right_df left_on right_on suffixes ;;
  merged_df <- drop merged_df right_on ;;
  merged_df <- match rename_last_col with
               | Some name =>
                   last <- last_column merged_df ;;
                   Ok (rename merged_df last name)
               | None => Ok merged_df
               end ;;
  drop_duplicates merged_df ["neighborhood"].

(** ** [__main__]: attaching the boundaries (lines 305-310)

    [DataFrame.merge] with the default [how='inner'] and the default
    suffixes, then the three column statements. *)
Definition attach_boundaries (neighborhood_rtv_gdf union_gdf : DataFrame)
  : result DataFrame :=
  merged <- pd_merge inner neighborhood_rtv_gdf union_gdf ["id"] ["nh_id"]
              ("_x", "_y") ;;
  merged <- drop merged ["nh_id"; "nearest_poly"] ;;
  merged <- drop merged ["geometry_x"] ;;
  Ok (rename merged "geometry_y" "geometry").

(** *** Vocabulary of the statements on frames *)

(** The frame handed to [drop_duplicates]: the first three statements of
    [merge_dataframes]. *)
Definition before_deduplication (left_df right_df : DataFrame)
  (left_on right_on : list string) (suffixes : string * string)
  (rename_last_col : option string) : result (DataFrame) :=
  merged_df <- pd_merge left left_df right_df left_on right_on
                 suffixes ;;
  merged_df <- drop merged_df right_on ;;
  match rename_last_col with
  | Some name =>
      last <- last_column merged_df ;;
      Ok (rename merged_df last name)
  | None => Ok merged_df
  end.

(** The frame without its rows. *)
Definition blank (df : DataFrame) : DataFrame :=
  mkDataFrame (columns df) [].

Definition labels_of (r : result (DataFrame)) : result (list string) :=
  match r with
  | Ok d => Ok (columns d)
  | Raise e => Raise e
  end.

Definition well_formed (df : DataFrame) : Prop :=
  Forall (fun row => List.length row = List.length (columns df)) (rows df).

(** The rows of the right frame that match a row of the left frame. *)
Definition matching (l r : DataFrame) (left_on right_on : list string)
  (row : list cell) : list (list cell) :=
  filter (fun b => key_eqb (row_key (columns l) left_on row)
                                    (row_key (columns r) right_on b))
         (rows r).

End Cells.

Arguments mkDataFrame {cell} columns rows.
Arguments columns {cell} d.
Arguments rows {cell} d.
Arguments key_eqb {cell} cell_eqb k1 k2.
Arguments row_key {cell} nan cols keys row.
Arguments drop {cell} df labels.
Arguments rename {cell} df old new.
Arguments last_column {cell} df.
Arguments first_occurrences {cell} cell_eqb key seen rs.
Arguments drop_duplicates {cell} cell_eqb df subset.
Arguments merge_row {cell} nan h matches keep width l.
Arguments pd_merge {cell} cell_eqb nan h ldf rdf left_on right_on suffixes.
Arguments merge_dataframes {cell} cell_eqb nan left_df right_df left_on right_on
  suffixes rename_last_col.
Arguments attach_boundaries {cell} cell_eqb nan neighborhood_rtv_gdf union_gdf.
Arguments before_deduplication {cell} cell_eqb nan left_df right_df left_on
  right_on suffixes rename_last_col.
Arguments blank {cell} df.
Arguments labels_of {cell} r.
Arguments well_formed {cell} df.
Arguments matching {cell} cell_eqb nan l r left_on right_on row.

End Frame.

(* ================================================================= *)
(** ** The cells of the script's frames

    Text, integers, geometries (by name) and the missing value.  On key
    cells two missing values are equal, as in [pd.merge] and
    [drop_duplicates]. *)

Module Cell.

Inductive t : Type :=
| NaN
| Int (z : Z)
| Str (s : string)
| Geom (name : string).

Definition eqb (x y : t) : bool :=
  match x, y with
  | NaN, NaN => true
  | Int a, Int b => (a =? b)%Z
  | Str a, Str b => String.eqb a b
  | Geom a, Geom b => String.eqb a b
  | _, _ => false
  end.

End Cell.

(** Small frames on which the statements are exercised. *)

Module Sample.

Import Frame Cell.
Local Open Scope string_scope.

(** Two neighbourhoods of two cities, and a rent index by city. *)
Definition two_neighborhoods : DataFrame Cell.t :=
  mkDataFrame ["neighborhood"; "city_name"]
    [[Str "Alpha"; Str "Springfield"]; [Str "Beta"; Str "Shelbyville"]].

Definition rent_by_city : DataFrame Cell.t :=
  mkDataFrame ["RegionName"; "2023-01-31"]
    [[Str "Springfield"; Int 1500]].

(** The same cities without the column [neighborhood]. *)
Definition two_cities : DataFrame Cell.t :=
  mkDataFrame ["city_name"; "state_id"]
    [[Str "Springfield"; Str "IL"]; [Str "Shelbyville"; Str "IL"]].

(** A relation with a unique key [neighborhood]. *)
Definition unique_neighborhoods : DataFrame Cell.t :=
  mkDataFrame ["neighborhood"; "population"]
    [[Str "Alpha"; Int 100]; [Str "Beta"; Int 200]].

(** Two neighbourhood records; a boundary for the first and a boundary
    of an identifier that no record carries. *)
Definition two_records : DataFrame Cell.t :=
  mkDataFrame ["neighborhood"; "id"; "geometry"; "nearest_poly"]
    [[Str "Alpha"; Int 1; Geom "point A"; Int 0];
     [Str "Beta"; Int 2; Geom "point B"; Int 1]].

Definition two_boundaries : DataFrame Cell.t :=
  mkDataFrame ["geometry"; "nh_id"]
    [[Geom "polygon 1"; Int 1]; [Geom "polygon 9"; Int 9]].

(** Records without the column [id]. *)
Definition records_without_id : DataFrame Cell.t :=
  mkDataFrame ["neighborhood"; "geometry"; "nearest_poly"]
    [[Str "Alpha"; Geom "point A"; Int 0]].

End Sample.

(* ================================================================= *)
(** ** Vocabulary of the statements on the census queries *)

Module CensusSpec.

Import Census.

Section Responses.

Variable feature : Type.
Variable requests_get : string -> http_outcome feature.
Variable layer : string.

(** The request of the county succeeds and its response has features. *)
Definition succeeds (county : string) : Prop :=
  exists j fs,
    requests_get (query_url county layer) = Response j /\ features j = Some fs.

(** The features of the response for a county (none when there is no
    response or it has no features). *)
Definition features_at (county : string) : list feature :=
  match requests_get (query_url county layer) with
  | Response j =>
      match features j with
      | Some fs => fs
      | None => []
      end
  | _ => []
  end.

(** The other members of the response for a county. *)
Definition members_at (county : string) : list string :=
  match requests_get (query_url county layer) with
  | Response j => members j
  | _ => []
  end.

End Responses.

Arguments succeeds {feature} requests_get layer county.
Arguments features_at {feature} requests_get layer county.
Arguments members_at {feature} requests_get layer county.

End CensusSpec.

(* ================================================================= *)
(** ** [get_recent_file]

    [max([os.path.join(directory, f) for f in os.listdir(directory)
          if f.endswith('.csv') and identifier in f], key=os.path.getmtime)].
    The directory listing and the modification times are parameters: the
    names in the order [os.listdir] gives them, and the time of a path.
    Paths are POSIX paths. *)

Module Files.

Local Open Scope string_scope.

(** [s.endswith(suffix)] *)
Definition endswith (s suffix : string) : bool :=
  let n := String.length s in
  let m := String.length suffix in
  (m <=? n)%nat && String.eqb (substring (n - m) m s) suffix.

(** [needle in s] *)
Fixpoint contains (needle s : string) : bool :=
  prefix needle s ||
  match s with
  | EmptyString => false
  | String _ tl => contains needle tl
  end.

(** [os.path.join(a, b)] of [posixpath]. *)
Definition path_join (a b : string) : string :=
  if prefix "/" b then b
  else if String.eqb a "" || endswith a "/" then a ++ b
  else a ++ "/" ++ b.

(** [max(items, key=key)] for float keys: the first item is kept until an
    item with a strictly greater key comes ([key(item) > key(best)]). *)
Fixpoint max_from {A : Type} (key : A -> float64) (best : A) (items : list A) : A :=
  match items with
  | [] => best
  | item :: tl =>
      if SFltb (key best) (key item) then max_from key item tl
      else max_from key best tl
  end.

Definition py_max {A : Type} (key : A -> float64) (items : list A) : result A :=
  match items with
  | [] => Raise ValueError
  | item :: tl => Ok (max_from key item tl)
  end.

(** The list comprehension. *)
Definition candidates (listdir : list string) (directory identifier : string)
  : list string :=
  map (path_join directory)
      (filter (fun f => endswith f ".csv" && contains identifier f) listdir).

Definition get_recent_file (listdir : list string) (getmtime : string -> float64)
  (directory identifier : string) : result string :=
  py_max getmtime (candidates listdir directory identifier).

End Files.

(* ================================================================= *)
(** ** [__main__]: the distinct counties (line 277) and the assignment of
    the census units (lines 293-296)

    [Series.unique()] keeps the first occurrence of every value, in order.
    [census_gdf.apply(rename_nh_id, axis=1, args=(neighborhood_rtv_gdf,))]
    calls [rename_nh_id] on every row in frame order and stops at the first
    exception; the rows returned make the frame given to
    [group_and_union]. *)

Fixpoint unique (values : list string) : list string :=
  match values with
  | [] => []
  | v :: tl => v :: filter (fun w => negb (String.eqb w v)) (unique tl)
  end.

Section Assignment.

Variable geometry : Type.
Variable distance : geometry -> geometry -> float64.
Variable centroid : geometry -> geometry.
Variable unary_union : list geometry -> geometry.

(** The rows of [census_gdf] after [apply]: their geometry and [nh_id]. *)
Definition assign_units (census_gdf : list geometry)
  (point_gdf : list (PointRow geometry)) : result (list (geometry * Z)) :=
  mapM (fun row_geometry => rename_nh_id distance centroid row_geometry point_gdf)
       census_gdf.

(** Lines 293 and 296 on a census frame of reference system [crs]. *)
Definition assign_and_union (crs : option Z) (census_gdf : list geometry)
  (point_gdf : list (PointRow geometry)) : result (PolyFrame geometry) :=
  assigned <- assign_units census_gdf point_gdf ;;
  group_and_union unary_union
    (mkPolyFrame crs (map (fun row => (snd row, fst row)) assigned)).

End Assignment.

Arguments assign_units {geometry} distance centroid census_gdf point_gdf.
Arguments assign_and_union {geometry} distance centroid unary_union crs
  census_gdf point_gdf.

(* ================================================================= *)
(** ** [rename_nh_id] on a whole row (lines 199-203)

    [DataFrame.apply(..., axis=1)] hands every row over as a Series.  A
    row of the census frame holds the attribute columns of the census
    feature beside its geometry, and is then a Series of dtype [object]:
    [row['nh_id'] = nh_id] replaces the field of that label, or adds it at
    the end.  A row with no column but its geometry is a Series of geometry
    dtype: it takes no integer, and the call raises [TypeError]. *)

Record CensusRow (geometry : Type) : Type := mkCensusRow {
  census_attributes : list (string * Cell.t);
  census_geometry : geometry
}.

Arguments mkCensusRow {geometry} census_attributes census_geometry.
Arguments census_attributes {geometry} c.
Arguments census_geometry {geometry} c.

(** [series[label] = value] on a Series of dtype [object]. *)
Definition series_setitem (label : string) (value : Cell.t)
  (fields : list (string * Cell.t)) : list (string * Cell.t) :=
  if existsb (fun field => String.eqb (fst field) label) fields
  then map (fun field =>
              if String.eqb (fst field) label then (label, value) else field)
           fields
  else (fields ++ [(label, value)])%list.

Section NearestRows.

Variable geometry : Type.
Variable distance : geometry -> geometry -> float64.
Variable centroid : geometry -> geometry.

Definition rename_nh_id_row (row : CensusRow geometry)
  (point_gdf : list (PointRow geometry)) : result (CensusRow geometry) :=
  assigned <- rename_nh_id distance centroid (census_geometry row) point_gdf ;;
  match census_attributes row with
  | [] => Raise TypeError
  | fields =>
      Ok (mkCensusRow (series_setitem "nh_id" (Cell.Int (snd assigned)) fields)
                      (census_geometry row))
  end.

End NearestRows.

Arguments rename_nh_id_row {geometry} distance centroid row point_gdf.

(* ================================================================= *)
(** ** [__main__]: querying the counties of the records (lines 277-280)

    [counties = gdf['county_fips'].unique()], then
    [split_counties_and_query_census(counties, args.census_geography)].
    The column is read as text ([dtype={'county_fips': str}]); its values
    are the county codes. *)

(** The counties named by the [Querying] lines of a log, in order: the
    calls of [query_census_by_geography] made so far. *)
Definition queried (log : list Census.line) : list string :=
  flat_map (fun l => match l with Census.Querying county => [county] | _ => [] end)
           log.

Definition query_counties_of_records {feature : Type}
  (requests_get : string -> Census.http_outcome feature)
  (county_fips : list string) (census_geography : string)
  : Census.io (Census.json feature) :=
  let counties := unique county_fips in
  Census.split_counties_and_query_census requests_get counties census_geography.

(* ================================================================= *)
(** ** [__main__]: the three joins of the tables (lines 237-264) and the
    join of the walkability scores (lines 319-325) *)

Module Tables.

Import Frame.
Local Open Scope string_scope.

Section Cells.

Variable cell : Type.
Variable cell_eqb : cell -> cell -> bool.
Variable nan : cell.

(** [df[[label, ...]]]: the columns carrying the labels, in the order of
    the labels; [KeyError] when a label names no column. *)
Definition getitem_columns (df : DataFrame cell) (labels : list string)
  : result (DataFrame cell) :=
  if forallb (among (columns df)) labels then
    Ok (mkDataFrame
          (flat_map (fun l => select (map (String.eqb l) (columns df)) (columns df))
                    labels)
          (map (fun row =>
                  flat_map (fun l => select (map (String.eqb l) (columns df)) row)
                           labels)
               (rows df)))
  else Raise KeyError.

(** Lines 237-264.  The value column of each right table is taken by
    position, [columns[-1]]; on line 259 it is the last label of
    [city_zori_df] that selects the column of [city_zhvi_df]. *)
Definition fuse_tables
  (neighborhoods_points_df neighborhood_zhvi_df city_zhvi_df city_zori_df
     : DataFrame cell) : result (DataFrame cell) :=
  last <- last_column neighborhood_zhvi_df ;;
  right <- getitem_columns neighborhood_zhvi_df
             ["RegionName"; "State"; "City"; last] ;;
  merged_df <- merge_dataframes cell_eqb nan neighborhoods_points_df right
                 ["neighborhood"; "state_id"; "city_name"]
                 ["RegionName"; "State"; "City"]
                 ("_left", "_right") (Some "neighborhood_ZHVI") ;;
  last <- last_column city_zori_df ;;
  right <- getitem_columns city_zori_df ["RegionName"; last] ;;
  merged_df <- merge_dataframes cell_eqb nan merged_df right
                 ["city_name"] ["RegionName"]
                 ("_left", "_right") (Some "city_ZORI") ;;
  last <- last_column city_zori_df ;;
  right <- getitem_columns city_zhvi_df ["RegionName"; last] ;;
  merge_dataframes cell_eqb nan merged_df right
    ["city_name"] ["RegionName"]
    ("_left", "_right") (Some "city_ZHVI").

(** Lines 319-325: the left join on [neighborhood] with the default
    suffixes, the removal of the right copies of two columns and the
    renaming of the left copies. *)
Definition attach_walkscores (neighborhood_rtv_gdf walkscore_df : DataFrame cell)
  : result (DataFrame cell) :=
  merged <- pd_merge cell_eqb nan left neighborhood_rtv_gdf walkscore_df
              ["neighborhood"] ["neighborhood"] ("_x", "_y") ;;
  merged <- drop merged ["city_name_y"; "state_id_y"] ;;
  Ok (rename (rename merged "city_name_x" "city_name") "state_id_x" "state_id").

(** *** Vocabulary *)

(** No row has the key of a row before it. *)
Definition distinct_keys (key : list cell -> list cell) (rs : list (list cell))
  : Prop :=
  ForallOrdPairs (fun earlier later => key_eqb cell_eqb (key later) (key earlier) = false)
    rs.

(** The key on which [merge_dataframes] de-duplicates, in a frame of the
    given labels. *)
Definition neighborhood_key (cols : list string) (row : list cell) : list cell :=
  select (map (among ["neighborhood"]) cols) row.

End Cells.

Arguments getitem_columns {cell} df labels.
Arguments fuse_tables {cell} cell_eqb nan neighborhoods_points_df
  neighborhood_zhvi_df city_zhvi_df city_zori_df.
Arguments attach_walkscores {cell} cell_eqb nan neighborhood_rtv_gdf walkscore_df.
Arguments distinct_keys {cell} cell_eqb key rs.
Arguments neighborhood_key {cell} cols row.

End Tables.

(** Small tables on which the statements on the joins are exercised. *)

Module SampleTables.

Import Frame Cell.
Local Open Scope string_scope.

(** Neighbourhood points, the first of them listed twice. *)
Definition points : DataFrame Cell.t :=
  mkDataFrame ["neighborhood"; "city_name"; "state_id"]
    [[Str "Alpha"; Str "Springfield"; Str "IL"];
     [Str "Beta"; Str "Shelbyville"; Str "IL"];
     [Str "Alpha"; Str "Springfield"; Str "IL"]].

Definition neighborhood_zhvi : DataFrame Cell.t :=
  mkDataFrame ["RegionName"; "State"; "City"; "2023-01-31"]
    [[Str "Alpha"; Str "IL"; Str "Springfield"; Int 300000]].

Definition city_zori : DataFrame Cell.t :=
  mkDataFrame ["RegionName"; "2023-01-31"] [[Str "Springfield"; Int 1500]].

Definition city_zhvi : DataFrame Cell.t :=
  mkDataFrame ["RegionName"; "2023-01-31"] [[Str "Springfield"; Int 250000]].

(** Home values by city that stop a month earlier than the rents. *)
Definition city_zhvi_earlier : DataFrame Cell.t :=
  mkDataFrame ["RegionName"; "2022-12-31"] [[Str "Springfield"; Int 249000]].

(** Two records, and walkability rows in which the name [Alpha] occurs for
    two cities. *)
Definition records : DataFrame Cell.t :=
  mkDataFrame ["neighborhood"; "city_name"; "state_id"]
    [[Str "Alpha"; Str "Springfield"; Str "IL"];
     [Str "Beta"; Str "Shelbyville"; Str "IL"]].

Definition walkscores : DataFrame Cell.t :=
  mkDataFrame ["neighborhood"; "walk_score"; "city_name"; "state_id"]
    [[Str "Alpha"; Int 80; Str "Springfield"; Str "IL"];
     [Str "Alpha"; Int 55; Str "Capital City"; Str "NT"]].

(** The results of the joins on these tables. *)
Definition fused : DataFrame Cell.t :=
  mkDataFrame
    ["neighborhood"; "city_name"; "state_id"; "neighborhood_ZHVI"; "city_ZORI";
     "city_ZHVI"]
    [[Str "Alpha"; Str "Springfield"; Str "IL"; Int 300000; Int 1500; Int 250000];
     [Str "Beta"; Str "Shelbyville"; Str "IL"; NaN; NaN; NaN]].

Definition with_neighborhood_ZHVI : DataFrame Cell.t :=
  mkDataFrame ["neighborhood"; "city_name"; "state_id"; "neighborhood_ZHVI"]
    [[Str "Alpha"; Str "Springfield"; Str "IL"; Int 300000];
     [Str "Beta"; Str "Shelbyville"; Str "IL"; NaN]].

Definition joined_walkscores : DataFrame Cell.t :=
  mkDataFrame
    ["neighborhood"; "city_name_x"; "state_id_x"; "walk_score"; "city_name_y";
     "state_id_y"]
    [[Str "Alpha"; Str "Springfield"; Str "IL"; Int 80; Str "Springfield"; Str "IL"];
     [Str "Alpha"; Str "Springfield"; Str "IL"; Int 55; Str "Capital City"; Str "NT"];
     [Str "Beta"; Str "Shelbyville"; Str "IL"; NaN; NaN; NaN]].

Definition with_walkscores : DataFrame Cell.t :=
  mkDataFrame ["neighborhood"; "city_name"; "state_id"; "walk_score"]
    [[Str "Alpha"; Str "Springfield"; Str "IL"; Int 80];
     [Str "Alpha"; Str "Springfield"; Str "IL"; Int 55];
     [Str "Beta"; Str "Shelbyville"; Str "IL"; NaN]].

End SampleTables.

(* ================================================================= *)
(** * Theorems *)

(** The ratio column is the elementwise ratio. *)
Lemma city_RTV_column_nth (zori zhvi : list float64) (i : nat) (r v : float64) :
  nth_error zori i = Some r ->
  nth_error zhvi i = Some v ->
  nth_error (city_RTV_column zori zhvi) i = Some (city_RTV r v).
Proof.
  unfold city_RTV_column, city_RTV.
  revert zhvi i; induction zori as [|x xs IH]; intros [|y ys] [|i] Hr Hv;
    simpl in *; try discriminate.
  - now inversion Hr; inversion Hv.
  - now apply IH.
Qed.

Lemma div_nan_r (x : float64) : div x nan = nan.
Proof. now destruct x. Qed.

(** The ratio by the class of its operands. *)
Lemma city_RTV_cases (rent value : float64) :
  (is_nan value = true -> is_nan (city_RTV rent value) = true) /\
  (is_zero value = true ->
     (is_finite_nonzero rent || is_inf rent = true ->
        city_RTV rent value = S754_infinity (xorb (sign rent) (sign value))) /\
     (is_zero rent || is_nan rent = true ->
        is_nan (city_RTV rent value) = true)).
Proof.
  split.
  - destruct value; try discriminate; intros _.
    unfold city_RTV. now rewrite div_nan_r.
  - destruct value as [sv| | |]; try discriminate; intros _.
    split; destruct rent as [sr|sr| |sr mr er]; try discriminate; intros _;
      unfold city_RTV; simpl; rewrite ?xorb_false_r; reflexivity.
Qed.

(** C2 (as amended).  The ratio of every record is the float64 expression
    [rent_index / value_index * 100].  It is missing (NaN) whenever
    [value_index] is missing.  When [value_index] is zero the division is an
    IEEE-754 division by zero: the ratio is an infinity (of the sign of
    [rent_index] xor the sign of the zero) for every non-zero, non-missing
    [rent_index], and is NaN only when [rent_index] is itself zero or
    missing. *)
Theorem city_RTV_of_record (city_ZORI city_ZHVI : list float64) (i : nat)
  (rent value : float64) :
  nth_error city_ZORI i = Some rent ->
  nth_error city_ZHVI i = Some value ->
  exists ratio,
    nth_error (city_RTV_column city_ZORI city_ZHVI) i = Some ratio /\
    ratio = mul (div rent value) f100 /\
    (is_nan value = true -> is_nan ratio = true) /\
    (is_zero value = true ->
       (is_finite_nonzero rent || is_inf rent = true ->
          ratio = S754_infinity (xorb (sign rent) (sign value))) /\
       (is_zero rent || is_nan rent = true -> is_nan ratio = true)).
Proof.
  intros Hr Hv. exists (city_RTV rent value).
  split; [now apply city_RTV_column_nth|].
  split; [reflexivity|]. apply city_RTV_cases.
Qed.

Lemma city_RTV_of_record_witness :
  exists ratio,
    nth_error (city_RTV_column [f1500; f1500; pos_zero] [f300000; pos_zero; nan]) 1
      = Some ratio /\
    ratio = mul (div f1500 pos_zero) f100 /\
    (is_nan pos_zero = true -> is_nan ratio = true) /\
    (is_zero pos_zero = true ->
       (is_finite_nonzero f1500 || is_inf f1500 = true ->
          ratio = S754_infinity (xorb (sign f1500) (sign pos_zero))) /\
       (is_zero f1500 || is_nan f1500 = true -> is_nan ratio = true)).
Proof.
  apply (city_RTV_of_record [f1500; f1500; pos_zero] [f300000; pos_zero; nan] 1
           f1500 pos_zero); reflexivity.
Defined.

(** C2, counterexample: a record with [value_index = 0.0] and
    [rent_index = 1500.0].  Its ratio is [+inf], which is not a missing
    value. *)
Lemma city_RTV_zero_value_is_infinite :
  is_zero pos_zero = true /\
  city_RTV_column [f1500] [pos_zero] = [pos_inf] /\
  is_nan pos_inf = false.
Proof. repeat split. Qed.

Example city_RTV_regular : city_RTV f1500 f300000 = f0_5.
Proof. vm_compute. reflexivity. Qed.

(* ----------------------------------------------------------------- *)
(** *** The area column *)

Section AreaFacts.

Variable geometry : Type.
Variable transform : Z -> Z -> geometry -> geometry.
Variable area : geometry -> float64.

Lemma to_crs_4326_3857 (boundaries : list geometry) :
  to_crs transform (mkGeoSeries (Some 4326) boundaries) 3857
  = Ok (mkGeoSeries (Some 3857) (map (transform 4326 3857) boundaries)).
Proof. reflexivity. Qed.

(** C3 (as amended).  The area column never fails; it has one value per
    boundary, and the value of a boundary is the planar area of the boundary
    reprojected from EPSG:4326 to EPSG:3857, divided by the float64
    [2.59e+6] (2 590 000). *)
Theorem area_sq_mi_divides_by_2_59e6 (boundaries : list geometry) :
  exists col,
    area_sq_mi transform area boundaries = Ok col /\
    List.length col = List.length boundaries /\
    forall i g, nth_error boundaries i = Some g ->
      nth_error col i = Some (div (area (transform 4326 3857 g)) f2_59e6).
Proof.
  unfold area_sq_mi. rewrite to_crs_4326_3857. simpl.
  eexists; split; [reflexivity|]. unfold geoseries_area; simpl.
  split.
  - now rewrite !List.length_map.
  - intros i g Hg. rewrite !map_map.
    now rewrite nth_error_map, Hg.
Qed.

End AreaFacts.

(** C3, counterexample: a boundary whose planar area is the float64 nearest
    to 2589988.110336 square meters (one square mile).  Dividing by
    2589988.110336 would give exactly 1.0; the column holds
    0.99999540969...: the divisor is 2.59e+6. *)
Lemma area_sq_mi_of_one_square_mile :
  area_sq_mi (fun _ _ g => g) (fun a : float64 => a) [f2589988_110336]
    = Ok [S754_finite false 9007157906257317 (-53)] /\
  div f2589988_110336 f2589988_110336 = f1 /\
  S754_finite false 9007157906257317 (-53) <> f1.
Proof.
  split; [vm_compute; reflexivity|].
  split; [vm_compute; reflexivity|discriminate].
Qed.

(* ----------------------------------------------------------------- *)
(** *** The population column *)

Module PopulationFacts.

Import Population.
Local Open Scope string_scope.

Lemma digit_not_space c : is_digit c = true -> is_space c = false.
Proof.
  unfold is_digit, digit_of, is_space.
  destruct ((48 <=? nat_of_ascii c) && (nat_of_ascii c <=? 57))%nat eqn:E;
    [intros _|discriminate].
  apply andb_true_iff in E as [E1 E2].
  apply Nat.leb_le in E1, E2.
  apply orb_false_iff; split.
  - apply andb_false_iff. right; apply Nat.leb_gt; lia.
  - apply Nat.eqb_neq; lia.
Qed.

Lemma digit_not_comma c : is_digit c = true -> is_comma c = false.
Proof.
  unfold is_comma. destruct (Ascii.eqb_spec c ","%char) as [->|]; [|reflexivity].
  vm_compute. discriminate.
Qed.

Lemma digit_not_sign c : is_digit c = true -> is_sign c = false.
Proof.
  unfold is_sign.
  destruct (Ascii.eqb_spec c "+"%char) as [->|]; [vm_compute; discriminate|].
  destruct (Ascii.eqb_spec c "-"%char) as [->|]; [vm_compute; discriminate|].
  reflexivity.
Qed.

Lemma comma_not_digit c : is_comma c = true -> digit_of c = None.
Proof.
  unfold is_comma. destruct (Ascii.eqb_spec c ","%char) as [->|]; [|discriminate].
  reflexivity.
Qed.

Lemma is_digit_digit_of c : is_digit c = true -> exists d, digit_of c = Some d.
Proof. unfold is_digit. destruct (digit_of c); [eauto|discriminate]. Qed.

(** Stripping commas from digits and commas leaves digits, and the same number. *)
Lemma remove_commas_digits s :
  string_forallb digit_or_comma s = true ->
  string_forallb is_digit (remove_commas s) = true.
Proof.
  induction s as [|c tl IH]; simpl; [reflexivity|].
  intros H. apply andb_true_iff in H as [Hc Htl].
  destruct (is_comma c) eqn:Ec; [now apply IH|].
  simpl. unfold digit_or_comma in Hc. rewrite Ec, orb_false_r in Hc.
  now rewrite Hc, IH.
Qed.

Lemma remove_commas_digit_count s :
  string_existsb is_digit (remove_commas s) = string_existsb is_digit s.
Proof.
  induction s as [|c tl IH]; simpl; [reflexivity|].
  destruct (is_comma c) eqn:Ec; simpl; rewrite IH; [|reflexivity].
  unfold is_digit. now rewrite (comma_not_digit c Ec).
Qed.

Lemma decimal_value_remove_commas s acc :
  decimal_value (remove_commas s) acc = decimal_value s acc.
Proof.
  revert acc; induction s as [|c tl IH]; intros acc; simpl; [reflexivity|].
  destruct (is_comma c) eqn:Ec; simpl.
  - now rewrite (comma_not_digit c Ec).
  - destruct (digit_of c); apply IH.
Qed.

Lemma lstrip_digits s : string_forallb is_digit s = true -> lstrip s = s.
Proof.
  destruct s as [|c tl]; simpl; [reflexivity|].
  intros H. apply andb_true_iff in H as [Hc _].
  now rewrite (digit_not_space c Hc).
Qed.

Lemma rstrip_digits s : string_forallb is_digit s = true -> rstrip s = s.
Proof.
  induction s as [|c tl IH]; simpl; [reflexivity|].
  intros H. apply andb_true_iff in H as [Hc Htl].
  rewrite (IH Htl). destruct tl; [|reflexivity].
  now rewrite (digit_not_space c Hc).
Qed.

Lemma parse_digits_digits s acc :
  string_forallb is_digit s = true ->
  parse_digits s acc true = Some (decimal_value s acc).
Proof.
  revert acc; induction s as [|c tl IH]; intros acc; simpl; [reflexivity|].
  intros H. apply andb_true_iff in H as [Hc Htl].
  destruct (is_digit_digit_of c Hc) as [d ->]. now apply IH.
Qed.

Lemma parse_signed_digits s :
  string_forallb is_digit s = true ->
  string_existsb is_digit s = true ->
  parse_signed s = Some (decimal_value s 0).
Proof.
  destruct s as [|c tl]; simpl; [discriminate|].
  intros H _. apply andb_true_iff in H as [Hc Htl].
  pose proof (digit_not_sign c Hc) as Hs. unfold is_sign in Hs.
  apply orb_false_iff in Hs as [-> ->].
  destruct (is_digit_digit_of c Hc) as [d ->].
  now apply parse_digits_digits.
Qed.

(** *** Text that is not a number *)

Lemma is_foreign_inv c :
  is_foreign c = true ->
  is_digit c = false /\ is_comma c = false /\ is_underscore c = false /\
  is_sign c = false /\ is_space c = false.
Proof.
  unfold is_foreign. intros H. apply negb_true_iff in H.
  repeat (apply orb_false_iff in H as [H ?]). auto.
Qed.

Lemma is_comma_not_foreign c : is_comma c = true -> is_foreign c = false.
Proof.
  intros H. unfold is_foreign. rewrite H, orb_true_r. reflexivity.
Qed.

Lemma is_space_not_foreign c : is_space c = true -> is_foreign c = false.
Proof.
  intros H. unfold is_foreign. rewrite H, !orb_true_r. reflexivity.
Qed.

Lemma foreign_remove_commas s :
  string_existsb is_foreign (remove_commas s) = string_existsb is_foreign s.
Proof.
  induction s as [|c tl IH]; simpl; [reflexivity|].
  destruct (is_comma c) eqn:Ec; simpl; rewrite IH; [|reflexivity].
  now rewrite (is_comma_not_foreign c Ec).
Qed.

Lemma foreign_lstrip s :
  string_existsb is_foreign (lstrip s) = string_existsb is_foreign s.
Proof.
  induction s as [|c tl IH]; simpl; [reflexivity|].
  destruct (is_space c) eqn:Ec; [|reflexivity].
  now rewrite IH, (is_space_not_foreign c Ec).
Qed.

Lemma foreign_rstrip s :
  string_existsb is_foreign (rstrip s) = string_existsb is_foreign s.
Proof.
  induction s as [|c tl IH]; simpl; [reflexivity|].
  destruct (rstrip tl) as [|c' r] eqn:Er.
  - simpl in IH. rewrite <- IH, orb_false_r.
    destruct (is_space c) eqn:Ec; simpl.
    + now rewrite (is_space_not_foreign c Ec).
    + now rewrite orb_false_r.
  - change (string_existsb is_foreign (String c (String c' r)))
      with (is_foreign c || string_existsb is_foreign (String c' r)).
    now rewrite IH.
Qed.

Lemma parse_digits_foreign s acc prev :
  string_existsb is_foreign s = true -> parse_digits s acc prev = None.
Proof.
  revert acc prev; induction s as [|c tl IH]; intros acc prev; simpl;
    [discriminate|].
  intros H. destruct (is_foreign c) eqn:Ec.
  - destruct (is_foreign_inv c Ec) as (Hd & _ & Hu & _ & _).
    unfold is_digit in Hd. destruct (digit_of c); [discriminate|].
    now rewrite Hu.
  - simpl in H. destruct (digit_of c); [now apply IH|].
    destruct (is_underscore c && prev); [now apply IH|reflexivity].
Qed.

Lemma parse_signed_foreign s :
  string_existsb is_foreign s = true -> parse_signed s = None.
Proof.
  destruct s as [|c tl]; [reflexivity|].
  intros H. unfold parse_signed.
  destruct (is_foreign c) eqn:Ec.
  - destruct (is_foreign_inv c Ec) as (_ & _ & _ & Hs & _).
    unfold is_sign in Hs. apply orb_false_iff in Hs as [-> ->].
    now apply parse_digits_foreign.
  - simpl in H. rewrite Ec in H. simpl in H.
    destruct (Ascii.eqb c "-"); [now rewrite parse_digits_foreign|].
    destruct (Ascii.eqb c "+"); [now rewrite parse_digits_foreign|].
    apply parse_digits_foreign. simpl. now rewrite Ec.
Qed.

Lemma int_of_ascii_foreign s :
  string_existsb is_foreign s = true -> int_of_ascii s = Raise ValueError.
Proof.
  intros H. unfold int_of_ascii.
  rewrite parse_signed_foreign; [now destruct (_ <? _)%nat|].
  now rewrite foreign_rstrip, foreign_lstrip.
Qed.

(** *** Text with nothing but separators and blanks *)

Lemma remove_commas_blank s :
  string_forallb comma_or_space s = true ->
  string_forallb is_space (remove_commas s) = true.
Proof.
  induction s as [|c tl IH]; simpl; [reflexivity|].
  intros H. apply andb_true_iff in H as [Hc Htl].
  destruct (is_comma c) eqn:Ec; [now apply IH|].
  simpl. unfold comma_or_space in Hc. rewrite Ec in Hc. simpl in Hc.
  now rewrite Hc, IH.
Qed.

Lemma lstrip_blank s : string_forallb is_space s = true -> lstrip s = EmptyString.
Proof.
  induction s as [|c tl IH]; simpl; [reflexivity|].
  intros H. apply andb_true_iff in H as [-> Htl]. now apply IH.
Qed.

Lemma int_of_ascii_blank s :
  string_forallb is_space s = true -> int_of_ascii s = Raise ValueError.
Proof. intros H. unfold int_of_ascii. now rewrite lstrip_blank. Qed.

(** *** The limit on digits *)

Lemma count_digits_length s : (count_digits s <= String.length s)%nat.
Proof.
  induction s as [|c tl IH]; simpl; [lia|]. destruct (digit_of c); lia.
Qed.

Lemma remove_commas_length s :
  (String.length (remove_commas s) <= String.length s)%nat.
Proof.
  induction s as [|c tl IH]; simpl; [lia|].
  destruct (is_comma c); simpl; lia.
Qed.

(** *** ASCII text *)

Lemma digit_ascii c : is_digit c = true -> is_ascii c = true.
Proof.
  unfold is_digit, digit_of, is_ascii.
  destruct ((48 <=? nat_of_ascii c) && (nat_of_ascii c <=? 57))%nat eqn:E;
    [intros _|discriminate].
  apply andb_true_iff in E as [_ E2]. apply Nat.leb_le in E2.
  apply Nat.ltb_lt. lia.
Qed.

Lemma space_ascii c : is_space c = true -> is_ascii c = true.
Proof.
  unfold is_space, is_ascii. intros H. apply Nat.ltb_lt.
  apply orb_true_iff in H as [H|H].
  - apply andb_true_iff in H as [_ H]. apply Nat.leb_le in H. lia.
  - apply Nat.eqb_eq in H. lia.
Qed.

Lemma remove_commas_ascii s :
  string_forallb is_ascii s = true ->
  string_forallb is_ascii (remove_commas s) = true.
Proof.
  induction s as [|c tl IH]; simpl; [reflexivity|].
  intros H. apply andb_true_iff in H as [Hc Htl].
  destruct (is_comma c); [now apply IH|].
  simpl. now rewrite Hc, IH.
Qed.

Lemma digits_ascii s :
  string_forallb is_digit s = true -> string_forallb is_ascii s = true.
Proof.
  induction s as [|c tl IH]; simpl; [reflexivity|].
  intros H. apply andb_true_iff in H as [Hc Htl].
  now rewrite (digit_ascii c Hc), IH.
Qed.

Lemma blanks_ascii s :
  string_forallb is_space s = true -> string_forallb is_ascii s = true.
Proof.
  induction s as [|c tl IH]; simpl; [reflexivity|].
  intros H. apply andb_true_iff in H as [Hc Htl].
  now rewrite (space_ascii c Hc), IH.
Qed.

(** *** The fields [read_csv] reads as missing *)

Lemma is_na_value_In field : is_na_value field = true -> In field na_values.
Proof.
  unfold is_na_value. intros H. apply existsb_exists in H as (m & Hin & Hm).
  apply String.eqb_eq in Hm. now subst m.
Qed.

Lemma number_not_na_value s :
  string_forallb digit_or_comma s = true ->
  string_existsb is_digit s = true ->
  read_csv_field s = Some s.
Proof.
  intros Hall Hex. unfold read_csv_field.
  destruct (is_na_value s) eqn:E; [|reflexivity].
  apply is_na_value_In in E.
  assert (Hna : Forall (fun m => string_forallb digit_or_comma m
                                 && string_existsb is_digit m = false) na_values).
  { repeat constructor. }
  rewrite Forall_forall in Hna. specialize (Hna s E).
  rewrite Hall, Hex in Hna. discriminate.
Qed.

(** *** The array of the results *)

Lemma scan_objects_nan objects : forall s s',
  scan_objects objects s = Ok (Some s') ->
  nan_ s' = nan_ s || existsb is_none objects.
Proof.
  induction objects as [|[z|] tl IH]; intros s s'; simpl.
  - intros [= <-]. now rewrite orb_false_r.
  - destruct (float_of_int z); try discriminate;
      (destruct (_ || _ || _); [discriminate|]);
      intros H; apply IH in H; exact H.
  - intros H. apply IH in H. rewrite H. simpl. now rewrite orb_true_r.
Qed.

Lemma scan_objects_finite objects : forall s s',
  scan_objects objects s = Ok (Some s') ->
  Forall (fun y => is_nan (to_float y) = is_none y) objects.
Proof.
  induction objects as [|[z|] tl IH]; intros s s'; simpl; [constructor|..].
  - destruct (float_of_int z) eqn:Ez; try discriminate;
      (destruct (_ || _ || _); [discriminate|]);
      intros H; apply IH in H; (constructor; [simpl; now rewrite Ez|exact H]).
  - intros H. apply IH in H. now constructor.
Qed.

Lemma integers_no_nan objects :
  existsb is_none objects = false ->
  map PyInt (integers objects) = map object_cell objects.
Proof.
  induction objects as [|[z|] tl IH]; simpl; [reflexivity| |discriminate].
  intros H. unfold integers in *. simpl. now rewrite IH.
Qed.

Lemma maybe_convert_objects_inv objects out :
  maybe_convert_objects objects = Ok out ->
  cells out = map (stored out) objects /\
  Forall (fun y => is_missing (stored out y) = is_none y) objects /\
  (existsb is_none objects = false -> forall y, stored out y = object_cell y).
Proof.
  assert (Hobj : Forall (fun y => is_missing (object_cell y) = is_none y) objects).
  { apply Forall_forall. now intros [z|] _. }
  unfold maybe_convert_objects.
  destruct (scan_objects objects _) as [[s|]|e] eqn:Es; simpl; [| |discriminate].
  - pose proof (scan_objects_nan _ _ _ Es) as Hnan. simpl in Hnan.
    destruct (nan_ s) eqn:En.
    + intros [= <-]. simpl. split; [now rewrite map_map|].
      split; [exact (scan_objects_finite _ _ _ Es)|].
      intros H. rewrite H in Hnan. discriminate.
    + symmetry in Hnan.
      destruct (int_ s); [destruct (uint_ s)|]; intros [= <-]; simpl;
        (split; [try reflexivity; now apply integers_no_nan|]);
        (split; [exact Hobj|reflexivity]).
  - intros [= <-]. simpl. split; [reflexivity|]. split; [exact Hobj|reflexivity].
Qed.

(** *** The column *)

Lemma mapM_Forall2 {A B : Type} (f : A -> result B) (l : list A) (out : list B) :
  mapM f l = Ok out -> Forall2 (fun x y => f x = Ok y) l out.
Proof.
  revert out; induction l as [|a tl IH]; intros out; simpl.
  - intros [= <-]. constructor.
  - destruct (f a) as [b|e] eqn:Ea; [|discriminate].
    destruct (mapM f tl) as [bs|e]; [|discriminate].
    intros [= <-]. constructor; [exact Ea|now apply IH].
Qed.

Lemma Forall2_nth_error {A B : Type} (R : A -> B -> Prop) (l : list A)
  (l' : list B) :
  Forall2 R l l' ->
  forall i x, nth_error l i = Some x ->
  exists y, nth_error l' i = Some y /\ R x y.
Proof.
  induction 1 as [|a b tl tl' Hab _ IH]; intros [|i] x; simpl; try discriminate.
  - intros [= <-]. eauto.
  - apply IH.
Qed.

Section Int.

Variable int_of_unicode : string -> option Z.

Lemma py_int_raises s e : py_int int_of_unicode s = Raise e -> e = ValueError.
Proof.
  unfold py_int, int_of_ascii.
  destruct (string_forallb is_ascii s).
  - destruct (_ <? _)%nat; [now intros [= <-]|].
    destruct (parse_signed _); [discriminate|]. now intros [= <-].
  - destruct (int_of_unicode s); [discriminate|]. now intros [= <-].
Qed.

Lemma int_if_str_raises x e :
  int_if_str int_of_unicode x = Raise e -> e = ValueError.
Proof.
  destruct x as [s|]; simpl; [|discriminate].
  destruct (py_int int_of_unicode s) eqn:E; simpl; [discriminate|].
  intros [= <-]. exact (py_int_raises _ _ E).
Qed.

Lemma int_if_str_missing (x : option string) (y : option Z) :
  int_if_str int_of_unicode x = Ok y -> (y = None <-> x = None).
Proof.
  destruct x as [s|]; simpl.
  - destruct (py_int int_of_unicode s); simpl; [|discriminate].
    intros [= <-]. split; discriminate.
  - intros [= <-]. tauto.
Qed.

Lemma population_cell_missing (x : option string) (y : option Z) :
  population_cell int_of_unicode x = Ok y -> (is_none y = true <-> x = None).
Proof.
  unfold population_cell. intros H.
  apply int_if_str_missing in H.
  destruct y, x; simpl in *; intuition congruence.
Qed.

Lemma mapM_int_if_str_raise (col : list (option string)) (x : option string) :
  In x col -> int_if_str int_of_unicode x = Raise ValueError ->
  mapM (int_if_str int_of_unicode) col = Raise ValueError.
Proof.
  induction col as [|y tl IH]; simpl; [contradiction|].
  intros [->|Hin] Hx.
  - now rewrite Hx.
  - destruct (int_if_str int_of_unicode y) eqn:Ey.
    + now rewrite (IH Hin Hx).
    + now rewrite (int_if_str_raises _ _ Ey).
Qed.

Lemma population_column_raise (col : list (option string)) (x : option string) :
  In x col -> population_cell int_of_unicode x = Raise ValueError ->
  population_column int_of_unicode (Text col) = Raise ValueError.
Proof.
  intros Hin Hx. unfold population_column.
  rewrite (mapM_int_if_str_raise (map str_replace_commas col)
             (str_replace_commas x)); [reflexivity| |exact Hx].
  now apply in_map.
Qed.

(** A column that converts: cell by cell. *)
Lemma population_column_inv (col : list (option string)) (out : values) :
  population_column int_of_unicode (Text col) = Ok out ->
  exists objects,
    Forall2 (fun x y => population_cell int_of_unicode x = Ok y) col objects /\
    cells out = map (stored out) objects /\
    Forall (fun y => is_missing (stored out y) = is_none y) objects /\
    (existsb is_none objects = false -> forall y, stored out y = object_cell y).
Proof.
  unfold population_column.
  destruct (mapM (int_if_str int_of_unicode) (map str_replace_commas col))
    as [objects|e] eqn:Em;
    simpl; [|discriminate].
  intros H. exists objects. split; [|now apply maybe_convert_objects_inv].
  apply mapM_Forall2 in Em.
  clear H. revert objects Em.
  induction col as [|x tl IH]; intros objects Em; inversion Em; subst;
    constructor; auto.
Qed.

Lemma population_column_nth (col : list (option string)) (out : values) :
  population_column int_of_unicode (Text col) = Ok out ->
  forall i x, nth_error col i = Some x ->
  exists y, population_cell int_of_unicode x = Ok y /\
    nth_error (cells out) i = Some (stored out y) /\
    (is_missing (stored out y) = true <-> x = None).
Proof.
  intros H i x Hx.
  destruct (population_column_inv _ _ H) as (objects & Hall & Hcells & Hmiss & _).
  destruct (Forall2_nth_error _ _ _ Hall i x Hx) as (y & Hy & Hcell).
  exists y. split; [exact Hcell|].
  split; [now rewrite Hcells, nth_error_map, Hy|].
  rewrite Forall_forall in Hmiss.
  rewrite (Hmiss y (nth_error_In _ _ Hy)).
  now apply population_cell_missing.
Qed.

Lemma population_column_length (col : list (option string)) (out : values) :
  population_column int_of_unicode (Text col) = Ok out ->
  List.length (cells out) = List.length col.
Proof.
  intros H.
  destruct (population_column_inv _ _ H) as (objects & Hall & Hcells & _).
  rewrite Hcells, length_map. symmetry. exact (Forall2_length Hall).
Qed.

Lemma population_column_no_missing (col : list (option string)) (out : values) :
  population_column int_of_unicode (Text col) = Ok out ->
  existsb is_none col = false ->
  forall y, stored out y = object_cell y.
Proof.
  intros H Hcol.
  destruct (population_column_inv _ _ H) as (objects & Hall & _ & _ & Hint).
  apply Hint. clear Hint H.
  induction Hall as [|x y tl tl' Hxy _ IH]; [reflexivity|].
  simpl in *. apply orb_false_iff in Hcol as [Hx Htl].
  rewrite (IH Htl), orb_false_r.
  destruct (is_none y) eqn:Ey; [|reflexivity].
  apply (population_cell_missing _ _ Hxy) in Ey. subst x. discriminate.
Qed.

Lemma population_cell_number (s : string) :
  string_forallb digit_or_comma s = true ->
  string_existsb is_digit s = true ->
  (String.length s <= 4300)%nat ->
  population_cell int_of_unicode (Some s) = Ok (Some (decimal_value s 0)).
Proof.
  intros Hall Hex Hlen. unfold population_cell; simpl.
  unfold py_int.
  pose proof (remove_commas_digits s Hall) as Hd.
  rewrite (digits_ascii _ Hd). unfold int_of_ascii.
  rewrite (lstrip_digits _ Hd), (rstrip_digits _ Hd).
  assert (Hlimit : (max_str_digits <? count_digits (remove_commas s))%nat = false).
  { apply Nat.ltb_ge. unfold max_str_digits.
    pose proof (count_digits_length (remove_commas s)).
    pose proof (remove_commas_length s). lia. }
  rewrite Hlimit.
  rewrite parse_signed_digits; [|exact Hd|now rewrite remove_commas_digit_count].
  simpl. now rewrite decimal_value_remove_commas.
Qed.

Lemma population_cell_not_a_number (s : string) :
  string_forallb is_ascii s = true /\ string_existsb is_foreign s = true \/
  string_forallb comma_or_space s = true ->
  population_cell int_of_unicode (Some s) = Raise ValueError.
Proof.
  unfold population_cell; simpl. unfold py_int.
  intros [[Ha H]|H].
  - rewrite (remove_commas_ascii _ Ha).
    rewrite int_of_ascii_foreign; [reflexivity|now rewrite foreign_remove_commas].
  - pose proof (remove_commas_blank _ H) as Hb.
    rewrite (blanks_ascii _ Hb).
    now rewrite int_of_ascii_blank.
Qed.

(** C4 (as amended).  In a column of text: a value of decimal digits and
    thousands separators (at least one digit, at most 4300 characters) is
    kept as text by [read_csv], has its separators stripped and is parsed to
    the integer its digits spell, which the converted column holds in its
    place, as that integer or, in a column converted to float64, as that
    integer converted to float64.  The empty field is read as missing by
    [read_csv], as is every field [read_csv] takes for a missing-value
    marker, and a missing value stays missing: it is not turned into a
    number.  A text that is not a number and that [read_csv] keeps -- ASCII
    text with a character foreign to decimal literals, or nothing but
    separators and blanks -- makes [int] raise [ValueError], and with such a
    cell anywhere in the column the statement raises: the run stops.  On a
    column of a numeric dtype the [.str] accessor raises [AttributeError]. *)
Theorem population_parsing (s : string) :
  (string_forallb digit_or_comma s = true ->
   string_existsb is_digit s = true ->
   (String.length s <= 4300)%nat ->
   read_csv_field s = Some s /\
   population_cell int_of_unicode (Some s) = Ok (Some (decimal_value s 0)) /\
   forall col out i,
     nth_error col i = Some (Some s) ->
     population_column int_of_unicode (Text col) = Ok out ->
     nth_error (cells out) i = Some (stored out (Some (decimal_value s 0)))) /\
  (read_csv_field EmptyString = None /\
   (read_csv_field s = None ->
    population_cell int_of_unicode (read_csv_field s) = Ok None) /\
   population_cell int_of_unicode None = Ok None /\
   forall col out i,
     nth_error col i = Some None ->
     population_column int_of_unicode (Text col) = Ok out ->
     nth_error (cells out) i = Some (PyFloat nan)) /\
  (read_csv_field s = Some s ->
   string_forallb is_ascii s = true /\ string_existsb is_foreign s = true \/
   string_forallb comma_or_space s = true ->
   population_cell int_of_unicode (Some s) = Raise ValueError /\
   forall col, In (Some s) col ->
     population_column int_of_unicode (Text col) = Raise ValueError) /\
  (forall col,
     population_column int_of_unicode (Numeric col) = Raise AttributeError).
Proof.
  split; [|split; [|split; [|reflexivity]]].
  - intros Hall Hex Hlen.
    pose proof (population_cell_number s Hall Hex Hlen) as Hcell.
    split; [now apply number_not_na_value|]. split; [exact Hcell|].
    intros col out i Hi Hout.
    destruct (population_column_nth _ _ Hout i _ Hi) as (y & Hy & Hnth & _).
    rewrite Hcell in Hy. now injection Hy as <-.
  - split; [reflexivity|]. split; [now intros ->|]. split; [reflexivity|].
    intros col out i Hi Hout.
    destruct (population_column_nth _ _ Hout i _ Hi) as (y & Hy & Hnth & _).
    injection Hy as <-. rewrite Hnth. now destruct out.
  - intros _ H.
    pose proof (population_cell_not_a_number s H) as Hc.
    split; [exact Hc|].
    intros col Hin. now apply population_column_raise with (x := Some s).
Qed.

End Int.

Lemma population_parsing_witness :
  population_cell (fun _ => None) (Some "12,345") = Ok (Some 12345) /\
  population_cell (fun _ => None) (Some "unknown") = Raise ValueError /\
  population_column (fun _ => None) (Text [Some "1,024"; Some "unknown"; None])
  = Raise ValueError /\
  nth_error
    (cells (Float64 [S754_finite false 6786735522447360 (-39); S754_nan])) 0
  = Some (PyFloat (float_of_int 12345)).
Proof.
  destruct (population_parsing (fun _ => None) "12,345") as (Hnum & _ & _).
  destruct (population_parsing (fun _ => None) "unknown") as (_ & _ & Htxt & _).
  destruct Hnum as (_ & Hcell & Hcol); [reflexivity|reflexivity|simpl; lia|].
  split; [exact Hcell|].
  destruct (Htxt eq_refl (or_introl (conj eq_refl eq_refl))) as [Hraise Hrun].
  split; [exact Hraise|].
  split; [apply Hrun; simpl; auto|].
  apply (Hcol [Some "12,345"; None]
           (Float64 [S754_finite false 6786735522447360 (-39); S754_nan]) 0%nat);
    [reflexivity|vm_compute; reflexivity].
Defined.

(** C4, counterexample: the non-numeric text ["unknown"], which [read_csv]
    keeps as text, does not stay missing: [int] raises [ValueError], and a
    column holding such a cell is not converted at all. *)
Lemma population_non_numeric_raises :
  read_csv_field "unknown" = Some "unknown" /\
  population_cell (fun _ => None) (Some "unknown") = Raise ValueError /\
  population_column (fun _ => None)
    (Text [Some "12,345"; Some "unknown"; None]) = Raise ValueError.
Proof. repeat split. Qed.

Example population_12_345 :
  population_column (fun _ => None) (Text [Some "12,345"; Some "987"])
  = Ok (Int64 [12345; 987]).
Proof. reflexivity. Qed.

(** Beside a missing value the integers are converted to float64:
    12345.0, and 2^53 for 9,007,199,254,740,993. *)
Example population_beside_missing :
  population_column (fun _ => None)
    (Text [Some "12,345"; None; Some "9,007,199,254,740,993"])
  = Ok (Float64 [S754_finite false 6786735522447360 (-39); S754_nan;
                 S754_finite false 4503599627370496 1]).
Proof. vm_compute. reflexivity. Qed.

(** The empty field and the marker ["n/a"] are read as missing. *)
Example read_csv_field_markers :
  read_csv_field "" = None /\ read_csv_field "n/a" = None /\
  read_csv_field "12,345" = Some "12,345".
Proof. repeat split. Qed.

End PopulationFacts.

(* ----------------------------------------------------------------- *)
(** *** The order of float64 values that are not NaN *)

Ltac cmp_cases :=
  repeat match goal with
  | |- context [Z.compare ?a ?b] => destruct (Z.compare_spec a b)
  | |- context [Pos.compare_cont Eq ?a ?b] =>
      change (Pos.compare_cont Eq a b) with (Pos.compare a b);
      destruct (Pos.compare_spec a b)
  | H : context [Z.compare ?a ?b] |- _ => destruct (Z.compare_spec a b)
  | H : context [Pos.compare_cont Eq ?a ?b] |- _ =>
      change (Pos.compare_cont Eq a b) with (Pos.compare a b) in H;
      destruct (Pos.compare_spec a b)
  end.

Ltac float_order :=
  simpl; try discriminate; try reflexivity;
  cmp_cases; simpl; try discriminate; try reflexivity; try lia.

Lemma SFltb_total (x y : float64) :
  is_nan x = false -> is_nan y = false ->
  SFltb x y = false -> SFleb y x = true.
Proof.
  unfold SFltb, SFleb.
  destruct x as [sx|sx| |sx mx ex], y as [sy|sy| |sy my ey]; simpl;
    try discriminate; intros _ _;
    try destruct sx; try destruct sy; float_order.
Qed.

Lemma SFltb_trans (x y z : float64) :
  SFltb x y = true -> SFltb y z = true -> SFltb x z = true.
Proof.
  unfold SFltb.
  destruct x as [sx|sx| |sx mx ex], y as [sy|sy| |sy my ey],
    z as [sz|sz| |sz mz ez]; simpl; try discriminate;
    try destruct sx; try destruct sy; try destruct sz; float_order.
Qed.

Lemma SFltb_leb_trans (x y z : float64) :
  SFltb x y = true -> SFleb y z = true -> SFltb x z = true.
Proof.
  unfold SFltb, SFleb.
  destruct x as [sx|sx| |sx mx ex], y as [sy|sy| |sy my ey],
    z as [sz|sz| |sz mz ez]; simpl; try discriminate;
    try destruct sx; try destruct sy; try destruct sz; float_order.
Qed.

(* ----------------------------------------------------------------- *)
(** *** [idxmin] *)

Module SeriesFacts.

Import Series.

Lemma farther_lt (v w : float64) (x : Z * float64) :
  lt w v = true -> farther v x -> farther w x.
Proof.
  intros Hwv [Hn|Hx]; [now left|right].
  unfold lt in *. now apply SFltb_trans with v.
Qed.

Lemma not_nearer_lt (v w : float64) (x : Z * float64) :
  lt w v = true -> not_nearer v x -> farther w x.
Proof.
  intros Hwv [Hn|Hx]; [now left|right].
  unfold lt, le in *. now apply SFltb_leb_trans with v.
Qed.

Lemma argmin_from_spec (tl : t) :
  forall (best : Z * float64) (before between : t),
    is_nan (snd best) = false ->
    Forall (farther (snd best)) before ->
    Forall (not_nearer (snd best)) between ->
    exists pre post,
      before ++ best :: between ++ tl = pre ++ argmin_from best tl :: post /\
      is_nan (snd (argmin_from best tl)) = false /\
      Forall (farther (snd (argmin_from best tl))) pre /\
      Forall (not_nearer (snd (argmin_from best tl))) post.
Proof.
  induction tl as [|row tl IH]; intros best before between Hbest Hbefore Hbetween.
  - exists before, between. simpl. rewrite app_nil_r. auto.
  - simpl. destruct (is_nan (snd row)) eqn:Hnan.
    + destruct (IH best before (between ++ [row]) Hbest Hbefore) as (pre & post & E & H).
      { apply Forall_app; split; [exact Hbetween|]. constructor; [now left|constructor]. }
      exists pre, post. split; [|exact H].
      rewrite <- E, <- app_assoc. reflexivity.
    + destruct (lt (snd row) (snd best)) eqn:Hlt.
      * destruct (IH row (before ++ best :: between) [] Hnan) as (pre & post & E & H).
        { apply Forall_app; split.
          - eapply Forall_impl; [|exact Hbefore]. intros x. now apply farther_lt.
          - constructor.
            + now right.
            + eapply Forall_impl; [|exact Hbetween]. intros x. now apply not_nearer_lt. }
        { constructor. }
        exists pre, post. split; [|exact H].
        rewrite <- E, <- app_assoc. reflexivity.
      * destruct (IH best before (between ++ [row]) Hbest Hbefore) as (pre & post & E & H).
        { apply Forall_app; split; [exact Hbetween|]. constructor; [|constructor].
          right. unfold le, lt in *. now apply SFltb_total. }
        exists pre, post. split; [|exact H].
        rewrite <- E, <- app_assoc. reflexivity.
Qed.

Lemma argmin_skipna_spec (s : t) :
  Exists (fun x => is_nan (snd x) = false) s ->
  exists pre r post,
    argmin_skipna s = Some r /\
    s = pre ++ r :: post /\
    is_nan (snd r) = false /\
    Forall (farther (snd r)) pre /\
    Forall (not_nearer (snd r)) post.
Proof.
  induction s as [|row tl IH]; intros Hex; [inversion Hex|].
  simpl. destruct (is_nan (snd row)) eqn:Hnan.
  - destruct IH as (pre & r & post & E & -> & Hr & Hpre & Hpost).
    { inversion Hex as [? ? H|? ? H]; subst; [congruence|exact H]. }
    exists (row :: pre), r, post. repeat split; auto.
    constructor; [now left|exact Hpre].
  - destruct (argmin_from_spec tl row [] [] Hnan) as (pre & post & E & Hr & Hpre & Hpost);
      [constructor|constructor|].
    exists pre, (argmin_from row tl), post. simpl in E. auto.
Qed.

Lemma argmin_skipna_all_nan (s : t) :
  Forall (fun x => is_nan (snd x) = true) s -> argmin_skipna s = None.
Proof.
  induction 1 as [|x tl Hx _ IH]; simpl; [reflexivity|]. now rewrite Hx.
Qed.

(** [idxmin] returns the label of the first row holding the minimum. *)
Lemma idxmin_first_minimum (s : t) :
  Exists (fun x => is_nan (snd x) = false) s ->
  exists pre r post,
    idxmin s = Ok (Some (fst r)) /\
    s = pre ++ r :: post /\
    is_nan (snd r) = false /\
    Forall (farther (snd r)) pre /\
    Forall (not_nearer (snd r)) post.
Proof.
  intros Hex. destruct (argmin_skipna_spec s Hex) as (pre & r & post & E & H).
  exists pre, r, post. split; [|exact H].
  unfold idxmin. destruct s; [inversion Hex|]. now rewrite E.
Qed.

Lemma idxmin_empty : idxmin [] = Raise ValueError.
Proof. reflexivity. Qed.

End SeriesFacts.

(* ----------------------------------------------------------------- *)
(** *** Nearest assignment *)

Section NearestFacts.

Variable geometry : Type.
Variable distance : geometry -> geometry -> float64.
Variable centroid : geometry -> geometry.

Lemma gdf_idxmin_first {R : Type} (label : R -> Z) (geom : R -> geometry)
  (gdf : list R) (other : geometry) :
  Exists (fun r => is_nan (distance (geom r) other) = false) gdf ->
  exists pre ref post,
    gdf = pre ++ ref :: post /\
    Series.idxmin (gdf_distance distance label geom gdf other)
      = Ok (Some (label ref)) /\
    is_nan (distance (geom ref) other) = false /\
    Forall (strictly_farther distance geom other ref) pre /\
    Forall (no_nearer distance geom other ref) post.
Proof.
  intros Hex.
  destruct (SeriesFacts.idxmin_first_minimum (gdf_distance distance label geom gdf other))
    as (pre' & r' & post' & Hidx & E & Hr & Hpre & Hpost).
  { unfold gdf_distance. apply Exists_exists in Hex as (r & Hin & Hr).
    apply Exists_exists. exists (label r, distance (geom r) other).
    split; [|exact Hr]. apply in_map_iff. now exists r. }
  unfold gdf_distance in E.
  apply map_eq_app in E as (pre & rest & -> & Epre & Erest).
  apply map_eq_cons in Erest as (ref & post & -> & Eref & Epost).
  exists pre, ref, post. subst pre' r' post'. simpl in *.
  split; [reflexivity|]. split; [exact Hidx|]. split; [exact Hr|].
  split.
  - rewrite Forall_map in Hpre. exact Hpre.
  - rewrite Forall_map in Hpost. exact Hpost.
Qed.

Lemma loc_id_first (pre post : list (PointRow geometry)) (ref : PointRow geometry) :
  NoDup (map point_label (pre ++ ref :: post)) ->
  loc_id (pre ++ ref :: post) (Some (point_label ref)) = Ok (point_id ref).
Proof.
  intros Hnd. unfold loc_id.
  assert (Hfind : find (fun p => point_label p =? point_label ref) (pre ++ ref :: post)
                  = Some ref).
  { induction pre as [|p pre IH]; simpl in *.
    - now rewrite Z.eqb_refl.
    - inversion Hnd as [|? ? Hnotin Hnd']; subst.
      destruct (Z.eqb_spec (point_label p) (point_label ref)) as [E|_].
      + exfalso. apply Hnotin. rewrite E, map_app. apply in_or_app. right.
        simpl. now left.
      + now apply IH. }
  now rewrite Hfind.
Qed.

(** C5 (as amended).  Tie-break of the nearest assignment.  Whenever some
    reference has a distance to the query, the assignment returns a
    reference [ref] at the minimum distance such that every reference
    before [ref] in the iteration order lies strictly farther (or has no
    distance) and none after it is nearer: of several references whose
    float64 distances are equal and the least, the one that occurs first is
    selected; a reference that is nearer, by however little, is selected
    whatever its place.  This holds for [nearest_poly] (polygon references,
    returning the label) and for [rename_nh_id] on a row that has an
    attribute column (point references with unique labels, setting the
    [id] as [nh_id]). *)
Theorem nearest_assignment_first_of_ties :
  (forall (point : geometry) (polygons : list (Z * geometry)),
     Exists (fun r => is_nan (distance (snd r) point) = false) polygons ->
     exists pre ref post,
       polygons = pre ++ ref :: post /\
       nearest_poly distance point polygons = Ok (Some (fst ref)) /\
       is_nan (distance (snd ref) point) = false /\
       Forall (strictly_farther distance snd point ref) pre /\
       Forall (no_nearer distance snd point ref) post) /\
  (forall (row : CensusRow geometry) (point_gdf : list (PointRow geometry)),
     census_attributes row <> [] ->
     NoDup (map point_label point_gdf) ->
     Exists (fun r => is_nan (distance (point_geometry r)
                                (centroid (census_geometry row))) = false)
       point_gdf ->
     exists pre ref post,
       point_gdf = pre ++ ref :: post /\
       rename_nh_id_row distance centroid row point_gdf
         = Ok (mkCensusRow
                 (series_setitem "nh_id" (Cell.Int (point_id ref))
                    (census_attributes row))
                 (census_geometry row)) /\
       is_nan (distance (point_geometry ref) (centroid (census_geometry row)))
         = false /\
       Forall (strictly_farther distance point_geometry
                 (centroid (census_geometry row)) ref) pre /\
       Forall (no_nearer distance point_geometry
                 (centroid (census_geometry row)) ref) post).
Proof.
  split.
  - intros point polygons Hex. unfold nearest_poly.
    now apply gdf_idxmin_first.
  - intros row point_gdf Hattr Hnd Hex.
    destruct (gdf_idxmin_first point_label point_geometry point_gdf
                (centroid (census_geometry row)) Hex)
      as (pre & ref & post & E & Hidx & H).
    exists pre, ref, post. split; [exact E|]. split; [|exact H].
    unfold rename_nh_id_row, rename_nh_id. rewrite Hidx. cbn [Py.bind].
    subst point_gdf. rewrite loc_id_first by exact Hnd. cbn [Py.bind snd].
    destruct (census_attributes row); [contradiction|reflexivity].
Qed.

(** C6 (as amended).  With an empty reference set the assignment raises
    for every query -- the [ValueError] of [idxmin] on the empty distance
    series -- and yields no identifier: in [nearest_poly], and in
    [rename_nh_id] on every row that has an attribute column. *)
Theorem nearest_assignment_no_reference :
  (forall point : geometry,
     nearest_poly distance point [] = Raise ValueError) /\
  (forall row : CensusRow geometry,
     census_attributes row <> [] ->
     rename_nh_id_row distance centroid row [] = Raise ValueError).
Proof. split; reflexivity. Qed.

End NearestFacts.

(** C5, witness data: the references are their own distances. *)
Lemma nearest_assignment_first_of_ties_witness :
  (exists pre ref post,
     [(10, f1500); (11, f1); (12, f1)] = pre ++ ref :: post /\
     nearest_poly (fun g _ : float64 => g) f1 [(10, f1500); (11, f1); (12, f1)]
       = Ok (Some (fst ref)) /\
     is_nan (snd ref) = false /\
     Forall (strictly_farther (fun g _ : float64 => g) snd f1 ref) pre /\
     Forall (no_nearer (fun g _ : float64 => g) snd f1 ref) post) /\
  (exists pre ref post,
     [mkPointRow 4 104 f1; mkPointRow 7 107 f1] = pre ++ ref :: post /\
     rename_nh_id_row (fun g _ : float64 => g) (fun g => g)
       (mkCensusRow [("GEOID"%string, Cell.Str "060371011101")] f1500)
       [mkPointRow 4 104 f1; mkPointRow 7 107 f1]
       = Ok (mkCensusRow
               (series_setitem "nh_id" (Cell.Int (point_id ref))
                  [("GEOID"%string, Cell.Str "060371011101")])
               f1500) /\
     is_nan (point_geometry ref) = false /\
     Forall (strictly_farther (fun g _ : float64 => g) point_geometry f1500 ref) pre /\
     Forall (no_nearer (fun g _ : float64 => g) point_geometry f1500 ref) post).
Proof.
  destruct (nearest_assignment_first_of_ties float64 (fun g _ => g) (fun g => g))
    as [Hpoly Hpoint].
  split.
  - apply Hpoly. apply Exists_cons_hd. reflexivity.
  - apply (Hpoint (mkCensusRow [("GEOID"%string, Cell.Str "060371011101")] f1500)).
    + discriminate.
    + simpl. constructor; [simpl; intros [H|[]]; discriminate|].
      constructor; [simpl; tauto|constructor].
    + apply Exists_cons_hd. reflexivity.
Defined.

(** C6, witness: a census row with one attribute column, no reference. *)
Lemma nearest_assignment_no_reference_witness :
  rename_nh_id_row (fun g _ : float64 => g) (fun g => g)
    (mkCensusRow [("GEOID"%string, Cell.Str "060371011101")] f1500) []
  = Raise ValueError.
Proof.
  apply (proj2 (nearest_assignment_no_reference float64 (fun g _ => g)
                  (fun g => g))).
  discriminate.
Defined.

(** C6, counterexample: with no reference the query fails, but with
    Python's [ValueError], raised by [idxmin] on the empty Series; the code
    defines no error of the name [NoReferenceGeometry]. *)
Lemma nearest_poly_no_reference_is_ValueError :
  nearest_poly (fun g _ : float64 => g) f1 [] = Raise ValueError /\
  class_name ValueError <> "NoReferenceGeometry"%string.
Proof. split; [reflexivity|discriminate]. Qed.

(** Two references at the same distance: the first is selected. *)
Example nearest_poly_tie :
  nearest_poly (fun g _ : float64 => g) f1 [(10, f1500); (11, f1); (12, f1)]
  = Ok (Some 11).
Proof. reflexivity. Qed.

(** C5, counterexample: two references whose distances to the query, 1 and
    1 - 2^-53, differ by one unit in the last place (their difference is
    2^-53), the nearer one second.  They are at the minimum distance within
    any floating-point tolerance, yet the second is selected, not the
    first: the comparison is that of the float64 distances themselves. *)
Lemma nearest_poly_one_ulp :
  nearest_poly (fun g _ : float64 => g) f1
    [(10, f1); (11, S754_finite false 9007199254740991 (-53))]
  = Ok (Some 11) /\
  SFsub prec emax f1 (S754_finite false 9007199254740991 (-53))
  = S754_finite false 4503599627370496 (-105).
Proof. split; reflexivity. Qed.

(** A row with no column but its geometry is refused. *)
Example rename_nh_id_row_geometry_only :
  rename_nh_id_row (fun g _ : float64 => g) (fun g => g)
    (mkCensusRow [] f1500) [mkPointRow 4 104 f1]
  = Raise TypeError.
Proof. reflexivity. Qed.

(* ----------------------------------------------------------------- *)
(** *** Querying the census service *)

Module CensusFacts.

Import Census.
Local Open Scope string_scope.
Local Open Scope io_scope.

Section QueryFacts.

Variable feature : Type.
Variable requests_get : string -> http_outcome feature.

(** The query of a county whose request fails raises. *)
Lemma query_census_failure_raises (county geography : string) (log : list line) :
  county_fails requests_get county ->
  exists e log',
    query_census_by_geography requests_get county geography log = (Raise e, log').
Proof.
  intros Hfail. unfold query_census_by_geography, bind, print, lift.
  destruct (sub_layer geography) as [layer|e]; [|eauto].
  specialize (Hfail layer).
  destruct (requests_get (query_url county layer)); try discriminate; simpl; eauto.
Qed.

Lemma query_census_network_failure (county geography layer : string)
  (log : list line) :
  sub_layer geography = Ok layer ->
  fails (requests_get (query_url county layer)) = true ->
  exists l,
    query_census_by_geography requests_get county geography log
    = (Raise TypeError, (log ++ [Querying county; l])%list).
Proof.
  intros Hlayer Hfail. unfold query_census_by_geography, bind, print, lift.
  rewrite Hlayer.
  destruct (requests_get (query_url county layer)); try discriminate; simpl;
    rewrite <- app_assoc; simpl; eauto.
Qed.

(** One failing county anywhere in the list: the loop raises. *)
Lemma query_counties_failure_raises (county_list : list string)
  (geography : string) :
  Exists (county_fails requests_get) county_list ->
  forall census_json log,
  exists e log',
    query_counties requests_get county_list geography census_json log
    = (Raise e, log').
Proof.
  induction 1 as [county rest Hfail|county rest Hex IH]; intros census_json log;
    simpl; unfold bind at 1.
  - destruct (query_census_failure_raises county geography log Hfail)
      as (e & log' & ->). eauto.
  - destruct (query_census_by_geography requests_get county geography log)
      as [[[d|]|e] log']; [| |eauto].
    + destruct (is_empty_dict census_json); [apply IH|].
      unfold bind, lift. destruct (extend_features census_json d); [apply IH|eauto].
    + apply IH.
Qed.

Lemma split_counties_failure_raises (county_list : list string)
  (geography : string) (log : list line) :
  Exists (county_fails requests_get) county_list ->
  exists e log',
    split_counties_and_query_census requests_get county_list geography log
    = (Raise e, log').
Proof.
  intros Hex. unfold split_counties_and_query_census, bind at 1.
  destruct (query_counties_failure_raises county_list geography Hex
              (mkJson [] None) log) as (e & log' & ->).
  eauto.
Qed.

End QueryFacts.

(** C7, the code at the failing input.  With the request of the first of
    two counties failing, [split_counties_and_query_census] raises
    [TypeError] right after the error line is printed -- the queried
    [data] is [None] when its features are counted -- and the second
    county is never queried.  With the failing county second, the features
    of the first are lost with the run as well. *)
Theorem split_counties_aborts_on_failed_county :
  split_counties_and_query_census flaky_network ["06037"; "06059"] "block" []
    = (Raise TypeError, [Querying "06037"; Other_error_occurred]) /\
  split_counties_and_query_census flaky_network ["06059"; "06037"] "block" []
    = (Raise TypeError,
       [Querying "06059"; Number_returned "block" 3;
        Querying "06037"; Other_error_occurred]).
Proof. split; vm_compute; reflexivity. Qed.

(** When every request succeeds the features are concatenated. *)
Example split_counties_all_succeed :
  split_counties_and_query_census flaky_network ["06059"; "06073"] "block" []
  = (Ok (mkJson ["type"] (Some [1; 2; 3; 1; 2; 3])),
     [Querying "06059"; Number_returned "block" 3;
      Querying "06073"; Number_returned "block" 3;
      Total_number_returned "block" 6]).
Proof. vm_compute. reflexivity. Qed.

End CensusFacts.

(* ----------------------------------------------------------------- *)
(** *** Dissolving by group *)

Lemma insert_key_In (k x : Z) (keys : list Z) :
  In x (insert_key k keys) <-> x = k \/ In x keys.
Proof.
  induction keys as [|h tl IH]; simpl.
  - intuition.
  - destruct (Z.ltb_spec k h); [simpl; intuition|].
    destruct (Z.eqb_spec k h); simpl; [subst; intuition|].
    rewrite IH. intuition.
Qed.

Lemma insert_key_HdRel (k h : Z) (tl : list Z) :
  h < k -> HdRel Z.lt h tl -> HdRel Z.lt h (insert_key k tl).
Proof.
  intros Hhk Hhd. destruct tl as [|x tl]; simpl; [now constructor|].
  inversion Hhd; subst.
  destruct (k <? x); [now constructor|].
  destruct (k =? x); now constructor.
Qed.

Lemma insert_key_Sorted (k : Z) (keys : list Z) :
  Sorted Z.lt keys -> Sorted Z.lt (insert_key k keys).
Proof.
  induction 1 as [|h tl Hs IH Hhd]; simpl.
  - repeat constructor.
  - destruct (Z.ltb_spec k h).
    + constructor; [now constructor|now constructor].
    + destruct (Z.eqb_spec k h); [now constructor|].
      constructor; [exact IH|]. apply insert_key_HdRel; [lia|exact Hhd].
Qed.

Lemma group_keys_Sorted (keys : list Z) : Sorted Z.lt (group_keys keys).
Proof.
  induction keys as [|k tl IH]; simpl; [constructor|].
  now apply insert_key_Sorted.
Qed.

Lemma group_keys_In (x : Z) (keys : list Z) :
  In x (group_keys keys) <-> In x keys.
Proof.
  induction keys as [|k tl IH]; simpl; [tauto|].
  rewrite insert_key_In, IH. intuition.
Qed.

Lemma StronglySorted_lt_NoDup (keys : list Z) :
  StronglySorted Z.lt keys -> NoDup keys.
Proof.
  induction 1 as [|h tl Hs IH Hall]; constructor; [|exact IH].
  intros Hin. rewrite Forall_forall in Hall. specialize (Hall h Hin). lia.
Qed.

Section DissolveFacts.

Variable geometry : Type.
Variable unary_union : list geometry -> geometry.

Lemma dissolved_names (rows : list (Z * geometry)) :
  map fst (map (fun '(name, group) => (name, unary_union (map snd group)))
             (groupby_nh_id rows))
  = group_keys (map fst rows).
Proof.
  unfold groupby_nh_id. rewrite !map_map. simpl. apply map_id.
Qed.

(** C10.  On a frame with at least one row the dissolve returns a frame
    whose [nh_id] column is strictly ascending -- hence holds no identifier
    twice -- and holds exactly the identifiers of the input; every row
    carries the union of the input geometries of its identifier, in frame
    order; and the reference system is that of the input. *)
Theorem group_and_union_one_row_per_group (poly_gdf : PolyFrame geometry) :
  poly_rows poly_gdf <> [] ->
  exists union_gdf,
    group_and_union unary_union poly_gdf = Ok union_gdf /\
    StronglySorted Z.lt (map fst (poly_rows union_gdf)) /\
    NoDup (map fst (poly_rows union_gdf)) /\
    (forall name, In name (map fst (poly_rows union_gdf)) <->
                  In name (map fst (poly_rows poly_gdf))) /\
    (forall name polygon, In (name, polygon) (poly_rows union_gdf) ->
       polygon = unary_union
                   (map snd (filter (fun r => fst r =? name) (poly_rows poly_gdf)))) /\
    poly_crs union_gdf = poly_crs poly_gdf.
Proof.
  intros Hrows. unfold group_and_union.
  set (polygons := map _ (groupby_nh_id (poly_rows poly_gdf))).
  assert (Hnames : map fst polygons = group_keys (map fst (poly_rows poly_gdf)))
    by apply dissolved_names.
  assert (Hne : polygons <> []).
  { destruct (poly_rows poly_gdf) as [|[k g] tl] eqn:E; [congruence|].
    intros Hnil. rewrite Hnil in Hnames. simpl in Hnames.
    assert (Hin : In k (insert_key k (group_keys (map fst tl))))
      by (apply insert_key_In; now left).
    rewrite <- Hnames in Hin. exact Hin. }
  exists (mkPolyFrame (poly_crs poly_gdf) polygons).
  assert (Hsorted : StronglySorted Z.lt (map fst polygons)).
  { rewrite Hnames. apply Sorted_StronglySorted; [|apply group_keys_Sorted].
    intros x y z. apply Z.lt_trans. }
  split; [|split; [exact Hsorted|split; [|split; [|split]]]].
  - unfold GeoDataFrame. destruct polygons; [congruence|reflexivity].
  - now apply StronglySorted_lt_NoDup.
  - intros name. simpl. rewrite Hnames. apply group_keys_In.
  - intros name polygon Hin. simpl in Hin. subst polygons.
    unfold groupby_nh_id in Hin. rewrite map_map in Hin.
    apply in_map_iff in Hin as (k & E & _). now inversion E.
  - reflexivity.
Qed.

End DissolveFacts.

Lemma group_and_union_one_row_per_group_witness :
  exists union_gdf,
    group_and_union (fun gs : list Z => fold_right Z.add 0 gs)
      (mkPolyFrame (Some 3857) [(7, 1); (3, 10); (7, 100); (5, 1000)])
      = Ok union_gdf /\
    StronglySorted Z.lt (map fst (poly_rows union_gdf)) /\
    NoDup (map fst (poly_rows union_gdf)) /\
    (forall name, In name (map fst (poly_rows union_gdf)) <->
                  In name (map fst [(7, 1); (3, 10); (7, 100); (5, 1000)])) /\
    (forall name polygon, In (name, polygon) (poly_rows union_gdf) ->
       polygon = fold_right Z.add 0
                   (map snd (filter (fun r => fst r =? name)
                               [(7, 1); (3, 10); (7, 100); (5, 1000)]))) /\
    poly_crs union_gdf = Some 3857.
Proof.
  apply (group_and_union_one_row_per_group Z (fun gs => fold_right Z.add 0 gs)
           (mkPolyFrame (Some 3857) [(7, 1); (3, 10); (7, 100); (5, 1000)])).
  simpl. discriminate.
Defined.

Example group_and_union_rows :
  group_and_union (fun gs : list Z => fold_right Z.add 0 gs)
    (mkPolyFrame (Some 3857) [(7, 1); (3, 10); (7, 100); (5, 1000)])
  = Ok (mkPolyFrame (Some 3857) [(3, 10); (5, 1000); (7, 101)]).
Proof. reflexivity. Qed.

(* ----------------------------------------------------------------- *)
(** *** Frames: the join engine *)

Module FrameFacts.

Import Frame.
Local Open Scope string_scope.

Lemma among_In (labels : list string) (label : string) :
  among labels label = true <-> In label labels.
Proof.
  unfold among. rewrite existsb_exists. split.
  - intros (x & Hin & E). apply String.eqb_eq in E. now subst.
  - intros Hin. exists label. split; [exact Hin|apply String.eqb_refl].
Qed.

Lemma among_not_In (labels : list string) (label : string) :
  among labels label = false <-> ~ In label labels.
Proof.
  rewrite <- among_In. destruct (among labels label); split; congruence.
Qed.

(** The labels kept by a mask computed from the labels themselves. *)
Lemma select_filter (p : string -> bool) (cols : list string) :
  select (map p cols) cols = filter p cols.
Proof.
  induction cols as [|c tl IH]; simpl; [reflexivity|].
  destruct (p c); now rewrite IH.
Qed.

Section CellFacts.

Variable cell : Type.
Variable cell_eqb : cell -> cell -> bool.
Variable nan : cell.

Lemma drop_columns (df out : DataFrame cell) (labels : list string) :
  drop df labels = Ok out ->
  columns out = filter (fun c => negb (among labels c)) (columns df).
Proof.
  unfold drop. destruct (forallb _ labels); [|discriminate].
  intros [= <-]. simpl. apply select_filter.
Qed.

Lemma drop_removes (df out : DataFrame cell) (labels : list string) (label : string) :
  drop df labels = Ok out -> In label labels -> ~ In label (columns out).
Proof.
  intros Hdrop Hin Hout. rewrite (drop_columns _ _ _ Hdrop) in Hout.
  apply filter_In in Hout as [_ H]. apply negb_true_iff in H.
  apply among_not_In in H. contradiction.
Qed.

Lemma drop_raises (df : DataFrame cell) (labels : list string) (e : exn) :
  drop df labels = Raise e -> e = KeyError.
Proof.
  unfold drop. destruct (forallb _ labels); [discriminate|]. now intros [= <-].
Qed.

Lemma drop_duplicates_columns (df out : DataFrame cell) (subset : list string) :
  drop_duplicates cell_eqb df subset = Ok out ->
  columns out = columns df /\ Forall (fun l => In l (columns df)) subset.
Proof.
  unfold drop_duplicates. destruct (forallb _ subset) eqn:E; [|discriminate].
  intros [= <-]. simpl. split; [reflexivity|].
  rewrite forallb_forall in E. apply Forall_forall. intros l Hl.
  now apply among_In, E.
Qed.

Lemma drop_duplicates_absent (df : DataFrame cell) (label : string) :
  ~ In label (columns df) ->
  drop_duplicates cell_eqb df [label] = Raise KeyError.
Proof.
  intros Hnot. unfold drop_duplicates. simpl.
  apply among_not_In in Hnot. now rewrite Hnot.
Qed.

Lemma rename_columns_In (df : DataFrame cell) (old new label : string) :
  In label (columns (rename df old new)) ->
  label = new \/ In label (columns df).
Proof.
  simpl. intros H. apply in_map_iff in H as (c & E & Hc).
  destruct (String.eqb c old); [left|right]; congruence.
Qed.

Lemma merge_dataframes_steps (left_df right_df : DataFrame cell)
  (left_on right_on : list string) (suffixes : string * string)
  (rename_last_col : option string) :
  merge_dataframes cell_eqb nan left_df right_df left_on right_on suffixes
    rename_last_col
  = (merged_df <- before_deduplication cell_eqb nan left_df right_df left_on right_on
                    suffixes rename_last_col ;;
     drop_duplicates cell_eqb merged_df ["neighborhood"]).
Proof.
  unfold merge_dataframes, before_deduplication.
  destruct (pd_merge _ _ _ _ _ _ _ _) as [m|e]; [|reflexivity]. simpl.
  destruct (drop m right_on) as [d|e]; [|reflexivity]. simpl.
  destruct rename_last_col as [name|]; [|reflexivity].
  now destruct (last_column d).
Qed.

(** C9.  Whatever the frames, the key columns, the suffixes and the new
    name: a call that returns gives a frame with a column [neighborhood],
    and a call whose merged frame (joined, right keys removed, last column
    renamed) has no column [neighborhood] raises [KeyError] at the
    de-duplication and returns no frame. *)
Theorem merge_dataframes_needs_neighborhood (left_df right_df : DataFrame cell)
  (left_on right_on : list string) (suffixes : string * string)
  (rename_last_col : option string) :
  (forall out,
     merge_dataframes cell_eqb nan left_df right_df left_on right_on suffixes
       rename_last_col = Ok out ->
     In "neighborhood" (columns out)) /\
  (forall merged_df,
     before_deduplication cell_eqb nan left_df right_df left_on right_on suffixes
       rename_last_col = Ok merged_df ->
     ~ In "neighborhood" (columns merged_df) ->
     merge_dataframes cell_eqb nan left_df right_df left_on right_on suffixes
       rename_last_col = Raise KeyError).
Proof.
  rewrite merge_dataframes_steps. split.
  - intros out H.
    destruct (before_deduplication _ _ _ _ _ _ _ _) as [m|e]; [|discriminate].
    simpl in H. apply drop_duplicates_columns in H as [-> Hall].
    now inversion Hall.
  - intros merged_df -> Hnot. simpl. now apply drop_duplicates_absent.
Qed.

(** A join whose right key is [neighborhood] leaves no such column, unless
    the last column is renamed to it. *)
Lemma before_deduplication_right_key (left_df right_df merged_df : DataFrame cell)
  (left_on right_on : list string) (suffixes : string * string)
  (rename_last_col : option string) :
  In "neighborhood" right_on ->
  rename_last_col <> Some "neighborhood" ->
  before_deduplication cell_eqb nan left_df right_df left_on right_on suffixes
    rename_last_col = Ok merged_df ->
  ~ In "neighborhood" (columns merged_df).
Proof.
  intros Hkey Hname. unfold before_deduplication.
  destruct (pd_merge _ _ _ _ _ _ _ _) as [m|e]; [|discriminate]. simpl.
  destruct (drop m right_on) as [d|e] eqn:Hdrop; [|discriminate]. simpl.
  pose proof (drop_removes _ _ _ _ Hdrop Hkey) as Hd.
  destruct rename_last_col as [name|].
  - destruct (last_column d) as [c|e]; [|discriminate]. simpl.
    intros [= <-] Hin. apply rename_columns_In in Hin as [E|Hin]; [|contradiction].
    apply Hname. now rewrite E.
  - now intros [= <-].
Qed.

(** C8 (as amended).  Joining a frame with itself through the engine on
    the key [neighborhood] returns no frame, whatever the frame and the
    suffixes: the right key removed after the join is the shared column
    [neighborhood], so either the join or the removal raises, or the
    de-duplication raises [KeyError] -- unless the last column is renamed to
    [neighborhood]. *)
Theorem self_join_on_neighborhood_raises (df : DataFrame cell)
  (suffixes : string * string) (rename_last_col : option string) :
  rename_last_col <> Some "neighborhood" ->
  merge_dataframes cell_eqb nan df df ["neighborhood"] ["neighborhood"]
    suffixes rename_last_col
  = match before_deduplication cell_eqb nan df df ["neighborhood"] ["neighborhood"]
            suffixes rename_last_col with
    | Ok _ => Raise KeyError
    | Raise e => Raise e
    end.
Proof.
  intros Hname. rewrite merge_dataframes_steps.
  destruct (before_deduplication _ _ _ _ _ _ _ _) as [m|e] eqn:E; [|reflexivity].
  simpl. apply drop_duplicates_absent.
  eapply before_deduplication_right_key; [| |exact E]; simpl; auto.
Qed.

(** *** The shape of a result depends on the labels only *)

Lemma pd_merge_labels (h : how) (l r l' r' : DataFrame cell)
  (left_on right_on : list string) (suffixes : string * string) :
  columns l = columns l' -> columns r = columns r' ->
  labels_of (pd_merge cell_eqb nan h l r left_on right_on suffixes)
  = labels_of (pd_merge cell_eqb nan h l' r' left_on right_on suffixes).
Proof.
  intros El Er. unfold pd_merge. rewrite El, Er.
  destruct (negb _); [reflexivity|].
  destruct left_on as [|k ks]; [reflexivity|].
  destruct (check_keys (k :: ks) (columns l')); [|reflexivity]. simpl.
  destruct (check_keys right_on (columns r')); [|reflexivity]. simpl.
  destruct (merge_labels _ _ _); reflexivity.
Qed.

Lemma drop_labels (df df' : DataFrame cell) (labels : list string) :
  columns df = columns df' ->
  labels_of (drop df labels) = labels_of (drop df' labels).
Proof.
  intros E. unfold drop. rewrite E.
  destruct (forallb _ labels); reflexivity.
Qed.

Lemma labels_of_inv (a b : result (DataFrame cell)) :
  labels_of a = labels_of b ->
  match a, b with
  | Ok x, Ok y => columns x = columns y
  | Raise e, Raise e' => e = e'
  | _, _ => False
  end.
Proof. destruct a, b; simpl; congruence. Qed.

Lemma attach_boundaries_labels (l r l' r' : DataFrame cell) :
  columns l = columns l' -> columns r = columns r' ->
  labels_of (attach_boundaries cell_eqb nan l r)
  = labels_of (attach_boundaries cell_eqb nan l' r').
Proof.
  intros El Er. unfold attach_boundaries.
  pose proof (labels_of_inv _ _
    (pd_merge_labels inner l r l' r' ["id"] ["nh_id"] ("_x", "_y") El Er)) as H1.
  destruct (pd_merge _ _ _ l r _ _ _) as [m|e],
           (pd_merge _ _ _ l' r' _ _ _) as [m'|e'];
    try contradiction; [|now subst]. simpl.
  pose proof (labels_of_inv _ _
    (drop_labels m m' ["nh_id"; "nearest_poly"] H1)) as H2.
  destruct (drop m _) as [d|e], (drop m' _) as [d'|e'];
    try contradiction; [|now subst]. simpl.
  pose proof (labels_of_inv _ _ (drop_labels d d' ["geometry_x"] H2)) as H3.
  destruct (drop d _) as [c|e], (drop d' _) as [c'|e'];
    try contradiction; [|now subst]. simpl.
  now rewrite H3.
Qed.

(** *** The rows of an inner join *)

Lemma select_all {A : Type} (cols : list string) (row : list A) :
  List.length row = List.length cols ->
  select (keep_mask [] cols) row = row.
Proof.
  revert row; induction cols as [|c tl IH]; intros [|x row]; simpl;
    try discriminate; [reflexivity|].
  intros [= H]. unfold keep_mask in IH. now rewrite IH.
Qed.

Lemma map_flat_map {A B C : Type} (f : B -> C) (g : A -> list B) (l : list A) :
  map f (flat_map g l) = flat_map (fun x => map f (g x)) l.
Proof.
  induction l as [|x tl IH]; simpl; [reflexivity|].
  now rewrite map_app, IH.
Qed.

Lemma drop_rows (df out : DataFrame cell) (labels : list string) :
  drop df labels = Ok out ->
  rows out = map (select (keep_mask labels (columns df))) (rows df).
Proof.
  unfold drop. destruct (forallb _ labels); [|discriminate].
  now intros [= <-].
Qed.

Lemma pd_merge_inner_rows (l r out : DataFrame cell)
  (left_on right_on : list string) (suffixes : string * string) :
  pd_merge cell_eqb nan inner l r left_on right_on suffixes = Ok out ->
  rows out
  = flat_map
      (fun row =>
         map (fun b => (row ++ select (keep_mask (same_named left_on right_on)
                                         (columns r)) b)%list)
             (matching cell_eqb nan l r left_on right_on row))
      (rows l).
Proof.
  unfold pd_merge. destruct (negb _); [discriminate|].
  destruct left_on as [|k ks]; [discriminate|].
  destruct (check_keys (k :: ks) (columns l)); [|discriminate]. simpl.
  destruct (check_keys right_on (columns r)); [|discriminate]. simpl.
  destruct (merge_labels _ _ _); [|discriminate]. simpl.
  intros [= <-]. simpl. apply flat_map_ext. intros row.
  unfold merge_row, matching.
  now destruct (filter _ (rows r)).
Qed.

Lemma matching_well_formed (l r : DataFrame cell)
  (left_on right_on : list string) (row : list cell) :
  well_formed r ->
  Forall (fun b => List.length b = List.length (columns r))
    (matching cell_eqb nan l r left_on right_on row).
Proof.
  intros Hwf. apply Forall_forall. intros b Hb.
  apply filter_In in Hb as [Hb _].
  unfold well_formed in Hwf. rewrite Forall_forall in Hwf. now apply Hwf.
Qed.


End CellFacts.

(** *** The engine on small frames *)

Import Cell Sample.

Example merge_dataframes_city_ZORI :
  merge_dataframes Cell.eqb NaN two_neighborhoods rent_by_city
    ["city_name"] ["RegionName"] ("_left", "_right") (Some "city_ZORI")
  = Ok (mkDataFrame ["neighborhood"; "city_name"; "city_ZORI"]
          [[Str "Alpha"; Str "Springfield"; Int 1500];
           [Str "Beta"; Str "Shelbyville"; NaN]]).
Proof. reflexivity. Qed.

Lemma merge_dataframes_needs_neighborhood_witness :
  In "neighborhood"
    (columns (mkDataFrame ["neighborhood"; "city_name"; "city_ZORI"]
                [[Str "Alpha"; Str "Springfield"; Int 1500];
                 [Str "Beta"; Str "Shelbyville"; NaN]])) /\
  merge_dataframes Cell.eqb NaN two_cities rent_by_city
    ["city_name"] ["RegionName"] ("_left", "_right") (Some "city_ZORI")
  = Raise KeyError.
Proof.
  split.
  - apply (proj1 (merge_dataframes_needs_neighborhood Cell.t Cell.eqb NaN
                    two_neighborhoods rent_by_city ["city_name"] ["RegionName"]
                    ("_left", "_right") (Some "city_ZORI"))).
    reflexivity.
  - apply (proj2 (merge_dataframes_needs_neighborhood Cell.t Cell.eqb NaN
                    two_cities rent_by_city ["city_name"] ["RegionName"]
                    ("_left", "_right") (Some "city_ZORI"))
             (mkDataFrame ["city_name"; "state_id"; "city_ZORI"]
                [[Str "Springfield"; Str "IL"; Int 1500];
                 [Str "Shelbyville"; Str "IL"; NaN]])).
    + reflexivity.
    + simpl. intros [H|[H|[H|[]]]]; discriminate.
Defined.

Lemma self_join_on_neighborhood_raises_witness :
  merge_dataframes Cell.eqb NaN unique_neighborhoods unique_neighborhoods
    ["neighborhood"] ["neighborhood"] ("_left", "_right") None
  = match before_deduplication Cell.eqb NaN
            unique_neighborhoods unique_neighborhoods
            ["neighborhood"] ["neighborhood"] ("_left", "_right") None with
    | Ok _ => Raise KeyError
    | Raise e => Raise e
    end.
Proof.
  apply (self_join_on_neighborhood_raises Cell.t Cell.eqb NaN
           unique_neighborhoods ("_left", "_right") None).
  discriminate.
Defined.

(** C8, counterexample: the relation of two neighbourhoods, its key
    unique, joined with itself on [neighborhood].  The join gives the
    columns [neighborhood], [population_left], [population_right]; the
    removal of the right key takes [neighborhood] away; the de-duplication
    raises [KeyError].  No relation comes back. *)
Lemma self_join_does_not_reproduce :
  before_deduplication Cell.eqb NaN
    unique_neighborhoods unique_neighborhoods
    ["neighborhood"] ["neighborhood"] ("_left", "_right") None
  = Ok (mkDataFrame ["population_left"; "population_right"]
          [[Int 100; Int 100]; [Int 200; Int 200]]) /\
  merge_dataframes Cell.eqb NaN unique_neighborhoods unique_neighborhoods
    ["neighborhood"] ["neighborhood"] ("_left", "_right") None
  = Raise KeyError.
Proof. split; reflexivity. Qed.



End FrameFacts.

(* ================================================================= *)
(** * Further properties of the code *)

(* ----------------------------------------------------------------- *)
(** *** [get_recent_file] *)

Lemma SFleb_ltb_trans (x y z : float64) :
  SFleb x y = true -> SFltb y z = true -> SFltb x z = true.
Proof.
  unfold SFltb, SFleb.
  destruct x as [sx|sx| |sx mx ex], y as [sy|sy| |sy my ey],
    z as [sz|sz| |sz mz ez]; simpl; try discriminate;
    try destruct sx; try destruct sy; try destruct sz; float_order.
Qed.

Module FilesFacts.

Import Files.
Local Open Scope string_scope.

Section MaxBy.

Variable A : Type.
Variable key : A -> float64.

Lemma max_from_spec (items : list A) :
  forall (best : A) (before between : list A),
    Forall (fun x => is_nan (key x) = false) (best :: items) ->
    Forall (fun x => SFltb (key x) (key best) = true) before ->
    Forall (fun x => SFleb (key x) (key best) = true) between ->
    exists pre post,
      (before ++ best :: between ++ items = pre ++ max_from key best items :: post)%list /\
      Forall (fun x => SFltb (key x) (key (max_from key best items)) = true) pre /\
      Forall (fun x => SFleb (key x) (key (max_from key best items)) = true) post.
Proof.
  induction items as [|item tl IH]; intros best before between Hnan Hbefore Hbetween.
  - exists before, between. simpl. rewrite app_nil_r. auto.
  - inversion Hnan as [|? ? Hbest Hrest]; subst.
    inversion Hrest as [|? ? Hitem Htl]; subst.
    simpl. destruct (SFltb (key best) (key item)) eqn:Hlt.
    + destruct (IH item (before ++ best :: between)%list [])
        as (pre & post & E & H).
      * now constructor.
      * apply Forall_app; split.
        -- eapply Forall_impl; [|exact Hbefore]. intros x Hx.
           now apply SFltb_trans with (key best).
        -- constructor; [exact Hlt|].
           eapply Forall_impl; [|exact Hbetween]. intros x Hx.
           now apply SFleb_ltb_trans with (key best).
      * constructor.
      * exists pre, post. split; [|exact H].
        rewrite <- E, <- app_assoc. reflexivity.
    + destruct (IH best before (between ++ [item])%list)
        as (pre & post & E & H).
      * now constructor.
      * exact Hbefore.
      * apply Forall_app; split; [exact Hbetween|].
        constructor; [|constructor]. now apply SFltb_total.
      * exists pre, post. split; [|exact H].
        rewrite <- E, <- app_assoc. reflexivity.
Qed.

Lemma py_max_spec (items : list A) :
  items <> [] ->
  Forall (fun x => is_nan (key x) = false) items ->
  exists pre best post,
    items = (pre ++ best :: post)%list /\
    py_max key items = Ok best /\
    Forall (fun x => SFltb (key x) (key best) = true) pre /\
    Forall (fun x => SFleb (key x) (key best) = true) post.
Proof.
  destruct items as [|item tl]; [congruence|]. intros _ Hnan.
  destruct (max_from_spec tl item [] [] Hnan) as (pre & post & E & H);
    [constructor|constructor|].
  exists pre, (max_from key item tl), post. simpl in E. auto.
Qed.

End MaxBy.

(** X1.  The file chosen is a CSV file of the directory whose name holds the
    identifier; no candidate is more recent, and the candidates listed
    before it are strictly older: of several most recent files the first
    listed is returned. *)
Theorem get_recent_file_most_recent (listdir : list string)
  (getmtime : string -> float64) (directory identifier : string) :
  Forall (fun p => is_nan (getmtime p) = false)
    (candidates listdir directory identifier) ->
  candidates listdir directory identifier <> [] ->
  exists pre f post,
    filter (fun f => endswith f ".csv" && contains identifier f) listdir
      = (pre ++ f :: post)%list /\
    get_recent_file listdir getmtime directory identifier
      = Ok (path_join directory f) /\
    In f listdir /\ endswith f ".csv" = true /\ contains identifier f = true /\
    Forall (fun g => SFltb (getmtime (path_join directory g))
                           (getmtime (path_join directory f)) = true) pre /\
    Forall (fun g => SFleb (getmtime (path_join directory g))
                           (getmtime (path_join directory f)) = true) post.
Proof.
  intros Hnan Hne. unfold get_recent_file.
  destruct (py_max_spec string getmtime _ Hne Hnan)
    as (pre' & best & post' & E & Hmax & Hpre & Hpost).
  unfold candidates in E.
  apply map_eq_app in E as (pre & rest & Efilter & <- & Erest).
  apply map_eq_cons in Erest as (f & post & -> & <- & <-).
  exists pre, f, post. split; [exact Efilter|]. split; [exact Hmax|].
  assert (Hin : In f (filter (fun f => endswith f ".csv" && contains identifier f)
                        listdir)).
  { rewrite Efilter. apply in_or_app. right. now left. }
  apply filter_In in Hin as [Hin Hf]. apply andb_true_iff in Hf as [Hcsv Hid].
  repeat split; auto.
  - now rewrite Forall_map in Hpre.
  - now rewrite Forall_map in Hpost.
Qed.

(** X2.  [get_recent_file] raises -- the [ValueError] of [max] on an empty
    sequence -- exactly when the directory lists no CSV file whose name
    holds the identifier. *)
Theorem get_recent_file_raises_iff_no_match (listdir : list string)
  (getmtime : string -> float64) (directory identifier : string) :
  get_recent_file listdir getmtime directory identifier = Raise ValueError
  <-> (forall f, In f listdir ->
         endswith f ".csv" && contains identifier f = false).
Proof.
  unfold get_recent_file, candidates. split.
  - intros H f Hin.
    destruct (endswith f ".csv" && contains identifier f) eqn:E; [|reflexivity].
    assert (Hf : In f (filter (fun f => endswith f ".csv" && contains identifier f)
                         listdir)) by (apply filter_In; auto).
    destruct (filter _ listdir); [contradiction|discriminate].
  - intros H.
    assert (E : filter (fun f => endswith f ".csv" && contains identifier f) listdir
                = []).
    { induction listdir as [|g tl IH]; simpl; [reflexivity|].
      rewrite (H g (or_introl eq_refl)). apply IH.
      intros f Hf. apply H. now right. }
    now rewrite E.
Qed.

End FilesFacts.

Lemma get_recent_file_most_recent_witness :
  exists pre f post,
    filter (fun f => Files.endswith f ".csv" && Files.contains "Neighborhood" f)
      ["Neighborhood_2022.csv"; "City_2023.csv"; "Neighborhood_2023.csv";
       "Neighborhood.txt"]%string
      = pre ++ f :: post /\
    Files.get_recent_file
      ["Neighborhood_2022.csv"; "City_2023.csv"; "Neighborhood_2023.csv";
       "Neighborhood.txt"]%string
      (fun p => if String.eqb p "zhvi_assets/Neighborhood_2023.csv" then f1500 else f1)
      "zhvi_assets" "Neighborhood"
      = Ok (Files.path_join "zhvi_assets" f) /\
    In f ["Neighborhood_2022.csv"; "City_2023.csv"; "Neighborhood_2023.csv";
          "Neighborhood.txt"]%string /\
    Files.endswith f ".csv" = true /\ Files.contains "Neighborhood" f = true /\
    Forall (fun g =>
              SFltb ((fun p => if String.eqb p "zhvi_assets/Neighborhood_2023.csv"
                               then f1500 else f1)
                       (Files.path_join "zhvi_assets" g))
                    ((fun p => if String.eqb p "zhvi_assets/Neighborhood_2023.csv"
                               then f1500 else f1)
                       (Files.path_join "zhvi_assets" f)) = true) pre /\
    Forall (fun g =>
              SFleb ((fun p => if String.eqb p "zhvi_assets/Neighborhood_2023.csv"
                               then f1500 else f1)
                       (Files.path_join "zhvi_assets" g))
                    ((fun p => if String.eqb p "zhvi_assets/Neighborhood_2023.csv"
                               then f1500 else f1)
                       (Files.path_join "zhvi_assets" f)) = true) post.
Proof.
  apply (FilesFacts.get_recent_file_most_recent
           ["Neighborhood_2022.csv"; "City_2023.csv"; "Neighborhood_2023.csv";
            "Neighborhood.txt"]%string
           (fun p => if String.eqb p "zhvi_assets/Neighborhood_2023.csv"
                     then f1500 else f1)
           "zhvi_assets" "Neighborhood").
  - repeat constructor.
  - discriminate.
Defined.

Lemma get_recent_file_raises_iff_no_match_witness :
  Files.get_recent_file ["notes.txt"; "City_2023.csv"]%string (fun _ => f1)
    "zhvi_assets" "Neighborhood" = Raise ValueError.
Proof.
  apply (proj2 (FilesFacts.get_recent_file_raises_iff_no_match
                  ["notes.txt"; "City_2023.csv"]%string (fun _ => f1)
                  "zhvi_assets" "Neighborhood")).
  intros f [<-|[<-|[]]]; reflexivity.
Defined.

(* ----------------------------------------------------------------- *)
(** *** The groups of the dissolve and the assignment before it *)

Section GroupFacts.

Variable geometry : Type.

Lemma filter_group_other (r : Z * geometry) (tl : list (Z * geometry)) (keys : list Z) :
  ~ In (fst r) keys ->
  flat_map (fun name => filter (fun x => fst x =? name) (r :: tl)) keys
  = flat_map (fun name => filter (fun x => fst x =? name) tl) keys.
Proof.
  induction keys as [|k ks IH]; intros Hk; [reflexivity|].
  cbn [flat_map]. rewrite IH by (intros H; apply Hk; now right).
  f_equal. cbn [filter].
  destruct (Z.eqb_spec (fst r) k) as [E|_]; [|reflexivity].
  exfalso. apply Hk. now left.
Qed.

Lemma filter_group_cons (r : Z * geometry) (tl : list (Z * geometry)) (keys : list Z) :
  NoDup keys -> In (fst r) keys ->
  Permutation
    (flat_map (fun name => filter (fun x => fst x =? name) (r :: tl)) keys)
    (r :: flat_map (fun name => filter (fun x => fst x =? name) tl) keys).
Proof.
  induction keys as [|k ks IH]; intros Hnd Hin; [contradiction|].
  inversion Hnd as [|? ? Hnotin Hnd']; subst. cbn [flat_map].
  destruct (Z.eqb_spec (fst r) k) as [E|Hne].
  - rewrite filter_group_other by (now rewrite E).
    cbn [filter]. rewrite E, Z.eqb_refl. reflexivity.
  - destruct Hin as [Hk|Hin]; [congruence|].
    cbn [filter]. destruct (Z.eqb_spec (fst r) k) as [|_]; [contradiction|].
    etransitivity; [apply Permutation_app_head, IH; assumption|].
    symmetry. apply Permutation_middle.
Qed.

Lemma groups_partition (rows : list (Z * geometry)) (keys : list Z) :
  NoDup keys -> (forall r, In r rows -> In (fst r) keys) ->
  Permutation
    (flat_map (fun name => filter (fun x => fst x =? name) rows) keys) rows.
Proof.
  intros Hnd. induction rows as [|r tl IH]; intros Hkeys.
  - induction keys as [|k ks IHk]; simpl; [constructor|].
    inversion Hnd; subst. now apply IHk.
  - etransitivity; [apply filter_group_cons; [exact Hnd|apply Hkeys; now left]|].
    constructor. apply IH. intros x Hx. apply Hkeys. now right.
Qed.

(** X3.  The groups iterated by the dissolve partition the frame: put end to
    end they are a rearrangement of its rows, so every row is in one group
    and in one only. *)
Theorem groupby_nh_id_partition (rows : list (Z * geometry)) :
  Permutation (flat_map snd (groupby_nh_id rows)) rows.
Proof.
  unfold groupby_nh_id.
  replace (flat_map snd
             (map (fun name => (name, filter (fun r => fst r =? name) rows))
                  (group_keys (map fst rows))))
    with (flat_map (fun name => filter (fun x => fst x =? name) rows)
            (group_keys (map fst rows))).
  - apply groups_partition.
    + apply StronglySorted_lt_NoDup, Sorted_StronglySorted;
        [intros x y z; apply Z.lt_trans|apply group_keys_Sorted].
    + intros r Hr. apply group_keys_In. now apply in_map.
  - induction (group_keys (map fst rows)) as [|k ks IH]; simpl; [reflexivity|].
    now rewrite IH.
Qed.

Lemma group_keys_sorted_id (keys : list Z) :
  StronglySorted Z.lt keys -> group_keys keys = keys.
Proof.
  induction 1 as [|k tl Hs IH Hall]; simpl; [reflexivity|].
  rewrite IH. destruct tl as [|h tl']; simpl; [reflexivity|].
  inversion Hall; subst. destruct (Z.ltb_spec k h); [reflexivity|lia].
Qed.

Lemma filter_own_key (rows : list (Z * geometry)) (r : Z * geometry) :
  NoDup (map fst rows) -> In r rows ->
  filter (fun x => fst x =? fst r) rows = [r].
Proof.
  induction rows as [|x tl IH]; intros Hnd Hin; [contradiction|].
  simpl in Hnd. inversion Hnd as [|? ? Hnotin Hnd']; subst. simpl.
  destruct Hin as [->|Hin].
  - rewrite Z.eqb_refl. f_equal.
    clear IH Hnd Hnd'. induction tl as [|y tl IH]; simpl; [reflexivity|].
    destruct (Z.eqb_spec (fst y) (fst r)) as [E|_].
    + exfalso. apply Hnotin. simpl. left. exact E.
    + apply IH. intros H. apply Hnotin. simpl. now right.
  - destruct (Z.eqb_spec (fst x) (fst r)) as [E|_].
    + exfalso. apply Hnotin. rewrite E. now apply in_map.
    + now apply IH.
Qed.

End GroupFacts.

Section DissolveAgain.

Variable geometry : Type.
Variable distance : geometry -> geometry -> float64.
Variable centroid : geometry -> geometry.
Variable unary_union : list geometry -> geometry.

Lemma group_and_union_rows_inv (poly_gdf union_gdf : PolyFrame geometry) :
  group_and_union unary_union poly_gdf = Ok union_gdf ->
  poly_crs union_gdf = poly_crs poly_gdf /\
  map fst (poly_rows union_gdf) = group_keys (map fst (poly_rows poly_gdf)).
Proof.
  unfold group_and_union, GeoDataFrame. intros H.
  assert (E : union_gdf
              = mkPolyFrame (poly_crs poly_gdf)
                  (map (fun '(name, group) => (name, unary_union (map snd group)))
                       (groupby_nh_id (poly_rows poly_gdf)))).
  { destruct (map _ (groupby_nh_id (poly_rows poly_gdf)));
      [destruct (poly_crs poly_gdf); [discriminate|]|]; now inversion H. }
  subst union_gdf. simpl. split; [reflexivity|apply dissolved_names].
Qed.


Lemma mapM_Forall {A B : Type} (f : A -> result B) (P : B -> Prop)
  (l : list A) (out : list B) :
  (forall x y, In x l -> f x = Ok y -> P y) ->
  mapM f l = Ok out -> Forall P out.
Proof.
  revert out; induction l as [|x tl IH]; intros out Hf; simpl.
  - now intros [= <-].
  - destruct (f x) as [y|e] eqn:Ex; [|discriminate].
    destruct (mapM f tl) as [ys|e]; [|discriminate].
    intros [= <-]. constructor.
    + apply (Hf x y); [now left|exact Ex].
    + apply IH; [|reflexivity]. intros x' y' Hin. apply Hf. now right.
Qed.

Lemma mapM_length {A B : Type} (f : A -> result B) (l : list A) (out : list B) :
  mapM f l = Ok out -> List.length out = List.length l.
Proof.
  revert out; induction l as [|x tl IH]; intros out; simpl.
  - now intros [= <-].
  - destruct (f x); [|discriminate].
    destruct (mapM f tl); [|discriminate].
    intros [= <-]. simpl. f_equal. now apply IH.
Qed.

Lemma rename_nh_id_inv (row_geometry : geometry)
  (point_gdf : list (PointRow geometry)) (out : geometry * Z) :
  rename_nh_id distance centroid row_geometry point_gdf = Ok out ->
  fst out = row_geometry /\
  exists p, In p point_gdf /\ point_id p = snd out.
Proof.
  unfold rename_nh_id.
  destruct (Series.idxmin _) as [[l|]|e]; try discriminate; simpl.
  destruct (find _ point_gdf) as [p|] eqn:Hfind; [|discriminate]. simpl.
  intros [= <-]. split; [reflexivity|].
  exists p. split; [|reflexivity]. now apply find_some in Hfind.
Qed.

(** X5.  The assignment followed by the dissolve, on a census frame with rows.
    When both statements return, every boundary carries the [id] of a
    neighbourhood point -- no boundary is without record -- the boundaries
    are in ascending order of that identifier, one per identifier, and
    every census unit was assigned, its geometry unchanged. *)
Theorem assign_and_union_boundaries (crs : option Z)
  (census_gdf : list geometry) (point_gdf : list (PointRow geometry))
  (union_gdf : PolyFrame geometry) :
  census_gdf <> [] ->
  assign_and_union distance centroid unary_union crs census_gdf point_gdf
    = Ok union_gdf ->
  (forall nh_id, In nh_id (map fst (poly_rows union_gdf)) ->
     exists p, In p point_gdf /\ point_id p = nh_id) /\
  StronglySorted Z.lt (map fst (poly_rows union_gdf)) /\
  exists assigned,
    assign_units distance centroid census_gdf point_gdf = Ok assigned /\
    map fst assigned = census_gdf.
Proof.
  intros _. unfold assign_and_union.
  destruct (assign_units distance centroid census_gdf point_gdf)
    as [assigned|e] eqn:Ha; [|discriminate]. simpl.
  intros Hu. destruct (group_and_union_rows_inv _ _ Hu) as [_ Hnames].
  simpl in Hnames. rewrite map_map in Hnames. simpl in Hnames.
  split; [|split].
  - intros nh_id Hin. rewrite Hnames in Hin.
    apply (proj1 (group_keys_In _ _)) in Hin.
    apply in_map_iff in Hin as (row & <- & Hrow).
    assert (Hall : Forall (fun out => exists p, In p point_gdf /\ point_id p = snd out)
                     assigned).
    { apply (mapM_Forall _ _ _ _ (fun x y _ H => proj2 (rename_nh_id_inv x point_gdf y H)) Ha). }
    rewrite Forall_forall in Hall. now apply Hall.
  - rewrite Hnames. apply Sorted_StronglySorted;
      [intros x y z; apply Z.lt_trans|apply group_keys_Sorted].
  - exists assigned. split; [reflexivity|].
    clear Hu Hnames. unfold assign_units in Ha.
    revert assigned Ha. induction census_gdf as [|g tl IH]; intros assigned; simpl.
    + now intros [= <-].
    + destruct (rename_nh_id distance centroid g point_gdf) as [y|e] eqn:Ey;
        [|discriminate].
      destruct (mapM _ tl) as [ys|e]; [|discriminate].
      intros [= <-]. simpl. f_equal.
      * apply (rename_nh_id_inv _ _ _ Ey).
      * now apply IH.
Qed.

End DissolveAgain.


Lemma assign_and_union_boundaries_witness :
  (forall nh_id,
     In nh_id (map fst (poly_rows (mkPolyFrame (Some 3857) [(104, f1)]))) ->
     exists p, In p [mkPointRow 4 104 f1; mkPointRow 7 107 f1500] /\
               point_id p = nh_id) /\
  StronglySorted Z.lt (map fst (poly_rows (mkPolyFrame (Some 3857) [(104, f1)]))) /\
  exists assigned,
    assign_units (fun g _ : float64 => g) (fun g => g) [f1; f1500]
      [mkPointRow 4 104 f1; mkPointRow 7 107 f1500] = Ok assigned /\
    map fst assigned = [f1; f1500].
Proof.
  apply (assign_and_union_boundaries float64 (fun g _ => g) (fun g => g)
           (fun gs => hd nan gs) (Some 3857) [f1; f1500]
           [mkPointRow 4 104 f1; mkPointRow 7 107 f1500]
           (mkPolyFrame (Some 3857) [(104, f1)])).
  - discriminate.
  - reflexivity.
Defined.

(* ----------------------------------------------------------------- *)
(** *** The census queries, when they succeed and when the level is unknown *)

Module CensusMore.

Import Census CensusSpec.
Local Open Scope string_scope.
Local Open Scope io_scope.

Section Queries.

Variable feature : Type.
Variable requests_get : string -> http_outcome feature.

(** X6.  When [query_census_by_geography] returns, it returns a response with
    features: it never returns [None], so the caller's test
    [data is not None] never fails. *)
Theorem query_census_never_returns_None (county geography : string)
  (log log' : list line) (data : option (json feature)) :
  query_census_by_geography requests_get county geography log = (Ok data, log') ->
  exists j fs, data = Some j /\ features j = Some fs.
Proof.
  unfold query_census_by_geography, bind, print, lift, ret.
  destruct (sub_layer geography) as [layer|e]; [|discriminate].
  destruct (requests_get (query_url county layer)) as [| |j]; simpl;
    try discriminate.
  destruct (features j) as [fs|] eqn:Ef; [|discriminate].
  intros [= <- _]. eauto.
Qed.

(** X7.  With a level other than tract, block_group and block, the query raises
    [KeyError] once its first line is printed, whatever the network. *)
Theorem query_census_unknown_geography (county geography : string)
  (log : list line) :
  ~ In geography ["tract"; "block_group"; "block"] ->
  query_census_by_geography requests_get county geography log
  = (Raise KeyError, (log ++ [Querying county])%list).
Proof.
  intros Hnot. unfold query_census_by_geography, bind, print, lift, sub_layer.
  destruct (String.eqb_spec geography "tract") as [->|_];
    [exfalso; apply Hnot; simpl; auto|].
  destruct (String.eqb_spec geography "block_group") as [->|_];
    [exfalso; apply Hnot; simpl; auto|].
  destruct (String.eqb_spec geography "block") as [->|_];
    [exfalso; apply Hnot; simpl; auto|].
  reflexivity.
Qed.

Variable layer : string.

Lemma query_census_success (county geography : string) (log : list line)
  (j : json feature) (fs : list feature) :
  sub_layer geography = Ok layer ->
  requests_get (query_url county layer) = Response j ->
  features j = Some fs ->
  query_census_by_geography requests_get county geography log
  = (Ok (Some j),
     (log ++ [Querying county; Number_returned geography (List.length fs)])%list).
Proof.
  intros Hl Hr Hf. unfold query_census_by_geography, bind, print, lift, ret.
  rewrite Hl, Hr. simpl. rewrite Hf. simpl.
  now rewrite <- app_assoc.
Qed.

Lemma query_counties_success (geography : string) (rest : list string) :
  sub_layer geography = Ok layer ->
  Forall (succeeds requests_get layer) rest ->
  forall (census_json : json feature) (acc : list feature) (log : list line),
    features census_json = Some acc ->
    exists log',
      query_counties requests_get rest geography census_json log
      = (Ok (mkJson (members census_json)
               (Some (acc ++ flat_map (features_at requests_get layer) rest)%list)),
         log').
Proof.
  intros Hl. induction 1 as [|county rest (j & fs & Hr & Hf) _ IH];
    intros census_json acc log Hacc.
  - simpl. exists log. unfold ret. rewrite app_nil_r.
    destruct census_json as [m f]. simpl in *. now subst.
  - simpl. unfold bind at 1.
    rewrite (query_census_success county geography log j fs Hl Hr Hf).
    assert (Hne : is_empty_dict census_json = false).
    { unfold is_empty_dict. rewrite Hacc. now destruct (members census_json). }
    rewrite Hne. unfold bind at 1, lift, extend_features. rewrite Hacc, Hf.
    destruct (IH (mkJson (members census_json) (Some (acc ++ fs)%list))
                (acc ++ fs)%list
                (log ++ [Querying county;
                         Number_returned geography (List.length fs)])%list
                eq_refl) as (log' & ->).
    assert (Ef : features_at requests_get layer county = fs)
      by (unfold features_at; now rewrite Hr, Hf).
    exists log'. cbn [flat_map members]. rewrite Ef. now rewrite app_assoc.
Qed.

Lemma split_counties_success (first : string) (rest : list string)
  (geography : string) (log : list line) :
  sub_layer geography = Ok layer ->
  Forall (succeeds requests_get layer) (first :: rest) ->
  exists log',
    split_counties_and_query_census requests_get (first :: rest) geography log
    = (Ok (mkJson (members_at requests_get layer first)
             (Some (flat_map (features_at requests_get layer) (first :: rest)))),
       (log' ++ [Total_number_returned geography
                   (List.length (flat_map (features_at requests_get layer)
                                   (first :: rest)))])%list).
Proof.
  intros Hl Hall.
  inversion Hall as [|? ? (j & fs & Hr & Hf) Hrest]; subst.
  unfold split_counties_and_query_census. simpl query_counties.
  unfold bind at 1. unfold bind at 1.
  rewrite (query_census_success first geography log j fs Hl Hr Hf).
  change (is_empty_dict (mkJson [] None : json feature)) with true. cbv iota.
  destruct (query_counties_success geography rest Hl Hrest j fs
              (log ++ [Querying first; Number_returned geography (List.length fs)])%list
              Hf) as (log' & ->).
  assert (Ef : features_at requests_get layer first = fs)
    by (unfold features_at; now rewrite Hr, Hf).
  assert (Em : members_at requests_get layer first = members j)
    by (unfold members_at; now rewrite Hr).
  exists log'. cbn [flat_map]. rewrite Ef, Em. reflexivity.
Qed.

(** X8.  When the request of every county succeeds, the call returns the
    response of the first county with, for features, the features of all
    the counties end to end, in the order of the list, and prints their
    number last.  On an empty list of counties it raises [KeyError]. *)
Theorem split_counties_concatenates (county_list : list string)
  (geography : string) (log : list line) :
  sub_layer geography = Ok layer ->
  Forall (succeeds requests_get layer) county_list ->
  match county_list with
  | [] =>
      split_counties_and_query_census requests_get county_list geography log
      = (Raise KeyError, log)
  | first :: _ =>
      exists log',
        split_counties_and_query_census requests_get county_list geography log
        = (Ok (mkJson (members_at requests_get layer first)
                 (Some (flat_map (features_at requests_get layer) county_list))),
           (log' ++ [Total_number_returned geography
                       (List.length (flat_map (features_at requests_get layer)
                                       county_list))])%list)
  end.
Proof.
  intros Hl Hall. destruct county_list as [|first rest].
  - reflexivity.
  - now apply split_counties_success.
Qed.

End Queries.

End CensusMore.

Lemma query_census_never_returns_None_witness :
  exists j fs,
    Some (Census.mkJson ["type"%string] (Some [1; 2; 3])) = Some j /\
    Census.features j = Some fs.
Proof.
  apply (CensusMore.query_census_never_returns_None Z Census.flaky_network
           "06059" "block" []
           [Census.Querying "06059"; Census.Number_returned "block" 3]
           (Some (Census.mkJson ["type"%string] (Some [1; 2; 3])))).
  vm_compute. reflexivity.
Defined.

Lemma query_census_unknown_geography_witness :
  Census.query_census_by_geography Census.flaky_network "06037" "county" []
  = (Raise KeyError, [Census.Querying "06037"]).
Proof.
  apply (CensusMore.query_census_unknown_geography Z Census.flaky_network
           "06037" "county" []).
  simpl. intros [H|[H|[H|[]]]]; discriminate.
Defined.

Lemma flaky_network_succeeds_elsewhere :
  Forall (CensusSpec.succeeds Census.flaky_network "2")
    ["06059"; "06073"]%string.
Proof.
  repeat constructor;
    exists (Census.mkJson ["type"%string] (Some [1; 2; 3])), [1; 2; 3];
    split; reflexivity.
Qed.

Lemma split_counties_concatenates_witness :
  exists log',
    Census.split_counties_and_query_census Census.flaky_network
      ["06059"; "06073"]%string "block" []
    = (Ok (Census.mkJson
             (CensusSpec.members_at Census.flaky_network "2" "06059")
             (Some (flat_map (CensusSpec.features_at Census.flaky_network "2")
                      ["06059"; "06073"]%string))),
       log' ++ [Census.Total_number_returned "block"
                  (List.length
                     (flat_map (CensusSpec.features_at Census.flaky_network "2")
                        ["06059"; "06073"]%string))]).
Proof.
  apply (CensusMore.split_counties_concatenates Z Census.flaky_network "2"
           ["06059"; "06073"]%string "block" []).
  - reflexivity.
  - exact flaky_network_succeeds_elsewhere.
Defined.

(* ----------------------------------------------------------------- *)
(** *** The distinct counties *)

Lemma unique_In (values : list string) (v : string) :
  In v (unique values) <-> In v values.
Proof.
  induction values as [|x tl IH]; simpl; [tauto|].
  rewrite filter_In, IH, negb_true_iff, String.eqb_neq.
  destruct (String.eqb_spec v x) as [->|Hne]; [tauto|].
  split; [intros [H|[H _]]; auto|intros [H|H]; [now left|right; auto]].
Qed.

Lemma unique_NoDup (values : list string) : NoDup (unique values).
Proof.
  induction values as [|x tl IH]; simpl; constructor.
  - intros H. apply filter_In in H as [_ H].
    now rewrite String.eqb_refl in H.
  - now apply NoDup_filter.
Qed.

(** [unique] goes by first occurrences: a value met again is skipped, a new
    value comes last. *)
Lemma unique_snoc (values : list string) (v : string) :
  unique (values ++ [v])
  = if existsb (String.eqb v) values then unique values
    else (unique values ++ [v])%list.
Proof.
  induction values as [|x tl IH]; [reflexivity|].
  cbn [app unique existsb]. rewrite IH.
  destruct (String.eqb_spec v x) as [->|Hne]; cbn [orb].
  - destruct (existsb (String.eqb x) tl); [reflexivity|].
    rewrite filter_app. cbn [filter]. rewrite String.eqb_refl. cbn [negb].
    now rewrite app_nil_r.
  - destruct (existsb (String.eqb v) tl); [reflexivity|].
    rewrite filter_app. cbn [filter].
    destruct (String.eqb_spec v x) as [E|_]; [contradiction|reflexivity].
Qed.

Lemma queried_app (log log' : list Census.line) :
  queried (log ++ log') = (queried log ++ queried log')%list.
Proof. apply flat_map_app. Qed.

Section Requests.

Variable feature : Type.
Variable requests_get : string -> Census.http_outcome feature.

(** Every call prints its [Querying] line, and no other such line. *)
Lemma query_census_queried (county geography : string) (log : list Census.line) :
  queried (snd (Census.query_census_by_geography requests_get county geography log))
  = (queried log ++ [county])%list.
Proof.
  unfold Census.query_census_by_geography, Census.bind, Census.print,
    Census.lift, Census.ret.
  destruct (Census.sub_layer geography) as [layer|e]; simpl;
    [|now rewrite queried_app].
  destruct (requests_get _) as [| |j]; simpl;
    try (rewrite !queried_app; simpl; now rewrite app_nil_r).
  unfold Census.len_features.
  destruct (Census.features j); simpl; rewrite !queried_app; simpl;
    now rewrite ?app_nil_r.
Qed.

(** The loop queries the counties of its list in order, up to the first
    call that raises. *)
Lemma query_counties_queried (geography : string) (county_list : list string) :
  forall (census_json : Census.json feature) (log : list Census.line)
         (r : result (Census.json feature)) (log' : list Census.line),
  Census.query_counties requests_get county_list geography census_json log
  = (r, log') ->
  exists n,
    queried log' = (queried log ++ firstn n county_list)%list /\
    (is_ok r = true -> n = List.length county_list).
Proof.
  induction county_list as [|county rest IH]; intros census_json log r log'; simpl.
  - intros [= <- <-]. exists O. now rewrite app_nil_r.
  - unfold Census.bind at 1.
    pose proof (query_census_queried county geography log) as Hq.
    destruct (Census.query_census_by_geography requests_get county geography log)
      as [[data|e] log1]; simpl in Hq.
    + assert (Hrest : forall cj,
        Census.query_counties requests_get rest geography cj log1 = (r, log') ->
        exists n,
          queried log' = (queried log ++ firstn n (county :: rest))%list /\
          (is_ok r = true -> n = S (List.length rest))).
      { intros cj Hrun. destruct (IH cj log1 r log' Hrun) as (n & Hn & Hok).
        exists (S n). rewrite Hn, Hq, <- app_assoc. split; [reflexivity|].
        intros H. now rewrite (Hok H). }
      destruct data as [d|]; [|apply Hrest].
      destruct (Census.is_empty_dict census_json); [apply Hrest|].
      unfold Census.bind, Census.lift.
      destruct (Census.extend_features census_json d) as [j|e]; [apply Hrest|].
      intros [= <- <-]. exists 1%nat. split; [exact Hq|discriminate].
    + intros [= <- <-]. exists 1%nat. split; [exact Hq|discriminate].
Qed.

Lemma split_counties_queried (geography : string) (county_list : list string)
  (log : list Census.line) (r : result (Census.json feature))
  (log' : list Census.line) :
  Census.split_counties_and_query_census requests_get county_list geography log
  = (r, log') ->
  exists n,
    queried log' = (queried log ++ firstn n county_list)%list /\
    (is_ok r = true -> n = List.length county_list).
Proof.
  unfold Census.split_counties_and_query_census.
  unfold Census.bind at 1.
  destruct (Census.query_counties requests_get county_list geography _ log)
    as [[census_json|e] log1] eqn:Hrun;
    destruct (query_counties_queried geography county_list _ _ _ _ Hrun)
      as (n & Hn & Hok).
  - unfold Census.bind, Census.lift, Census.print, Census.ret.
    destruct (Census.len_features (Some census_json)); simpl;
      intros [= <- <-]; exists n.
    + rewrite queried_app, Hn. simpl. rewrite app_nil_r. now split.
    + split; [exact Hn|discriminate].
  - intros [= <- <-]. now exists n.
Qed.

End Requests.

(** X9.  The counties of the records are queried at most once each, in the
    order in which they first occur among the records, however many
    records they hold: the calls made are those for a beginning of the
    list of distinct counties, and for the whole list when the run
    returns.  That list has no county twice, holds exactly the counties of
    the records, and goes by first occurrences.  When every request
    succeeds, the features returned are those of the distinct counties end
    to end. *)
Theorem query_counties_of_records_once {feature : Type}
  (requests_get : string -> Census.http_outcome feature)
  (county_fips : list string) (census_geography : string)
  (log : list Census.line) :
  let run :=
    query_counties_of_records requests_get county_fips census_geography log in
  (exists n,
     queried (snd run) = (queried log ++ firstn n (unique county_fips))%list /\
     (is_ok (fst run) = true -> n = List.length (unique county_fips))) /\
  NoDup (unique county_fips) /\
  (forall county, In county (unique county_fips) <-> In county county_fips) /\
  (forall (values : list string) (v : string),
     unique (values ++ [v])
     = if existsb (String.eqb v) values then unique values
       else (unique values ++ [v])%list) /\
  (forall layer,
     county_fips <> [] ->
     Census.sub_layer census_geography = Ok layer ->
     Forall (CensusSpec.succeeds requests_get layer) county_fips ->
     exists members log',
       run
       = (Ok (Census.mkJson members
                (Some (flat_map (CensusSpec.features_at requests_get layer)
                         (unique county_fips)))),
          log') /\
       queried log' = (queried log ++ unique county_fips)%list).
Proof.
  intros run.
  assert (Hq : exists n,
    queried (snd run) = (queried log ++ firstn n (unique county_fips))%list /\
    (is_ok (fst run) = true -> n = List.length (unique county_fips))).
  { apply (split_counties_queried feature requests_get census_geography
             (unique county_fips) log).
    subst run. unfold query_counties_of_records.
    now destruct (Census.split_counties_and_query_census _ _ _ _). }
  split; [exact Hq|]. split; [apply unique_NoDup|].
  split; [intros county; apply unique_In|]. split; [apply unique_snoc|].
  intros layer Hne Hl Hall.
  assert (Hall' : Forall (CensusSpec.succeeds requests_get layer) (unique county_fips)).
  { rewrite Forall_forall in *. intros c Hc. apply Hall. now apply unique_In. }
  destruct Hq as (n & Hn & Hok).
  subst run. unfold query_counties_of_records in *.
  destruct (unique county_fips) as [|first rest] eqn:E.
  - destruct county_fips as [|c tl]; [congruence|]. discriminate.
  - destruct (CensusMore.split_counties_success feature requests_get layer
                first rest census_geography log Hl Hall') as (log' & Hrun).
    rewrite Hrun in *. cbn [fst snd is_ok] in Hn, Hok.
    exists (CensusSpec.members_at requests_get layer first). eexists.
    split; [reflexivity|].
    rewrite Hn, (Hok eq_refl). now rewrite firstn_all.
Qed.

Lemma query_counties_of_records_once_witness :
  exists members log',
    query_counties_of_records Census.flaky_network
      ["06059"; "06073"; "06059"]%string "block" []
    = (Ok (Census.mkJson members
             (Some (flat_map (CensusSpec.features_at Census.flaky_network "2")
                      (unique ["06059"; "06073"; "06059"]%string)))),
       log') /\
    queried log'
    = (queried [] ++ unique ["06059"; "06073"; "06059"]%string)%list.
Proof.
  destruct (query_counties_of_records_once Census.flaky_network
              ["06059"; "06073"; "06059"]%string "block" [])
    as (_ & _ & _ & _ & Hrun).
  apply (Hrun "2"%string).
  - discriminate.
  - reflexivity.
  - repeat constructor;
      exists (Census.mkJson ["type"%string] (Some [1; 2; 3])), [1; 2; 3];
      split; reflexivity.
Defined.

(** The county of two records is queried once, and first. *)
Example queried_counties_once :
  queried (snd (query_counties_of_records Census.flaky_network
                  ["06059"; "06073"; "06059"]%string "block" []))
  = ["06059"; "06073"]%string.
Proof. reflexivity. Qed.

(* ----------------------------------------------------------------- *)
(** *** The join engine: rows kept, keys left distinct, shape kept *)

Module TablesFacts.

Import Frame Tables.
Local Open Scope string_scope.

Section CellFacts.

Variable cell : Type.
Variable cell_eqb : cell -> cell -> bool.
Variable nan : cell.

Lemma pd_merge_inv (h : how) (l r out : DataFrame cell)
  (left_on right_on : list string) (suffixes : string * string) :
  pd_merge cell_eqb nan h l r left_on right_on suffixes = Ok out ->
  let keep := keep_mask (same_named left_on right_on) (columns r) in
  exists labels,
    merge_labels (columns l) (select keep (columns r)) suffixes = Ok labels /\
    columns out = (fst labels ++ snd labels)%list /\
    rows out
    = flat_map (merge_row nan h (matching cell_eqb nan l r left_on right_on)
                  keep (List.length (select keep (columns r))))
               (rows l).
Proof.
  unfold pd_merge. destruct (negb _); [discriminate|].
  destruct left_on as [|k ks]; [discriminate|].
  destruct (check_keys (k :: ks) (columns l)); [|discriminate]. simpl.
  destruct (check_keys right_on (columns r)); [|discriminate]. simpl.
  destruct (merge_labels _ _ _) as [labels|] eqn:E; [|discriminate]. simpl.
  intros [= <-]. exists labels. simpl. auto.
Qed.

Lemma merge_row_left_length (matches : list cell -> list (list cell))
  (keep : list bool) (width : nat) (row : list cell) :
  List.length (merge_row nan left matches keep width row)
  = Nat.max 1 (List.length (matches row)).
Proof.
  unfold merge_row. destruct (matches row) as [|m ms]; [reflexivity|].
  rewrite length_map. simpl. reflexivity.
Qed.

Lemma merge_row_left_prefix (matches : list cell -> list (list cell))
  (keep : list bool) (width : nat) (row : list cell) :
  exists rest, In (row ++ rest)%list (merge_row nan left matches keep width row).
Proof.
  unfold merge_row. destruct (matches row) as [|m ms].
  - exists (repeat nan width). now left.
  - exists (select keep m). now left.
Qed.

(** X10.  A left join loses no row of the left frame: every left row starts a
    row of the result, and the result has one row per left row and
    matching right row, an unmatched left row counting once. *)
Theorem pd_merge_left_keeps_rows (l r out : DataFrame cell)
  (left_on right_on : list string) (suffixes : string * string) :
  pd_merge cell_eqb nan left l r left_on right_on suffixes = Ok out ->
  (forall row, In row (rows l) -> exists rest, In (row ++ rest)%list (rows out)) /\
  List.length (rows out)
  = list_sum
      (map (fun row =>
              Nat.max 1 (List.length (matching cell_eqb nan l r left_on right_on row)))
           (rows l)).
Proof.
  intros H. destruct (pd_merge_inv _ _ _ _ _ _ _ H) as (labels & _ & _ & Hrows).
  rewrite Hrows. split.
  - intros row Hin.
    destruct (merge_row_left_prefix (matching cell_eqb nan l r left_on right_on)
                (keep_mask (same_named left_on right_on) (columns r))
                (List.length (select (keep_mask (same_named left_on right_on)
                                        (columns r)) (columns r))) row)
      as (rest & Hrest).
    exists rest. apply in_flat_map. now exists row.
  - rewrite length_flat_map. f_equal. apply map_ext. intros row.
    apply merge_row_left_length.
Qed.

(** *** De-duplication *)

Lemma first_occurrences_distinct (key : list cell -> list cell)
  (rs : list (list cell)) :
  forall seen,
    Forall (fun r => existsb (key_eqb cell_eqb (key r)) seen = false)
      (first_occurrences cell_eqb key seen rs) /\
    distinct_keys cell_eqb key (first_occurrences cell_eqb key seen rs).
Proof.
  induction rs as [|r tl IH]; intros seen; simpl.
  - split; constructor.
  - destruct (existsb (key_eqb cell_eqb (key r)) seen) eqn:E; [apply IH|].
    destruct (IH (key r :: seen)) as [Hseen Hdist]. split.
    + constructor; [exact E|].
      eapply Forall_impl; [|exact Hseen]. intros x Hx. simpl in Hx.
      now apply orb_false_iff in Hx as [_ Hx].
    + constructor; [|exact Hdist].
      eapply Forall_impl; [|exact Hseen]. intros x Hx. simpl in Hx.
      now apply orb_false_iff in Hx as [Hx _].
Qed.

Lemma first_occurrences_incl (key : list cell -> list cell)
  (rs : list (list cell)) :
  forall seen r, In r (first_occurrences cell_eqb key seen rs) -> In r rs.
Proof.
  induction rs as [|x tl IH]; intros seen r; simpl; [tauto|].
  destruct (existsb _ seen).
  - intros H. right. now apply (IH seen).
  - intros [->|H]; [now left|right; now apply (IH (key x :: seen))].
Qed.

Lemma drop_duplicates_inv (df out : DataFrame cell) (subset : list string) :
  drop_duplicates cell_eqb df subset = Ok out ->
  columns out = columns df /\
  rows out
  = first_occurrences cell_eqb (select (map (among subset) (columns df))) []
      (rows df).
Proof.
  unfold drop_duplicates. destruct (forallb _ subset); [|discriminate].
  now intros [= <-].
Qed.

(** The rows kept are rows of the frame, in the order of the frame. *)
Lemma first_occurrences_select (key : list cell -> list cell)
  (rs : list (list cell)) :
  forall seen,
  exists mask,
    List.length mask = List.length rs /\
    first_occurrences cell_eqb key seen rs = select mask rs.
Proof.
  induction rs as [|r tl IH]; intros seen; simpl.
  - now exists [].
  - destruct (existsb _ seen).
    + destruct (IH seen) as (mask & Hlen & ->).
      exists (false :: mask). simpl. now rewrite Hlen.
    + destruct (IH (key r :: seen)) as (mask & Hlen & ->).
      exists (true :: mask). simpl. now rewrite Hlen.
Qed.

(** A row whose key is that of no row before it is kept. *)
Lemma first_occurrences_keeps_first (key : list cell -> list cell)
  (pre post : list (list cell)) (r : list cell) :
  forall seen,
  existsb (key_eqb cell_eqb (key r)) seen = false ->
  Forall (fun x => key_eqb cell_eqb (key r) (key x) = false) pre ->
  In r (first_occurrences cell_eqb key seen (pre ++ r :: post)).
Proof.
  induction pre as [|x pre IH]; intros seen Hseen Hpre; simpl.
  - rewrite Hseen. now left.
  - inversion Hpre as [|? ? Hx Hpre']; subst.
    destruct (existsb (key_eqb cell_eqb (key x)) seen); [now apply IH|].
    right. apply IH; [|exact Hpre']. simpl. now rewrite Hx, Hseen.
Qed.

(** A row that is not kept has the key of a row that is. *)
Lemma first_occurrences_covers (key : list cell -> list cell)
  (rs : list (list cell)) :
  forall seen r,
  In r rs ->
  In r (first_occurrences cell_eqb key seen rs) \/
  existsb (key_eqb cell_eqb (key r)) seen = true \/
  exists kept,
    In kept (first_occurrences cell_eqb key seen rs) /\
    key_eqb cell_eqb (key r) (key kept) = true.
Proof.
  induction rs as [|x tl IH]; intros seen r; simpl; [contradiction|].
  intros [->|Hin].
  - destruct (existsb (key_eqb cell_eqb (key r)) seen) eqn:E;
      [now right; left|left; now left].
  - destruct (existsb (key_eqb cell_eqb (key x)) seen) eqn:E.
    + apply (IH seen r Hin).
    + destruct (IH (key x :: seen) r Hin) as [H|[H|(kept & Hk & Heq)]].
      * left. now right.
      * simpl in H. apply orb_true_iff in H as [H|H].
        -- right; right. exists x. split; [now left|exact H].
        -- right; now left.
      * right; right. exists kept. split; [now right|exact Heq].
Qed.

(** X11.  The frame returned by the join engine is the merged frame thinned
    to the first row of each [neighborhood]: its rows are rows of the
    merged frame, in the order of that frame; no row carries the key of a
    row before it; every row of the merged frame whose key is that of none
    of the rows before it is kept; and every other row of the merged frame
    has the key of a row that is kept. *)
Theorem merge_dataframes_distinct_neighborhoods (left_df right_df out : DataFrame cell)
  (left_on right_on : list string) (suffixes : string * string)
  (rename_last_col : option string) :
  merge_dataframes cell_eqb nan left_df right_df left_on right_on suffixes
    rename_last_col = Ok out ->
  exists merged_df,
    before_deduplication cell_eqb nan left_df right_df left_on right_on suffixes
      rename_last_col = Ok merged_df /\
    columns out = columns merged_df /\
    (exists mask,
       List.length mask = List.length (rows merged_df) /\
       rows out = select mask (rows merged_df)) /\
    distinct_keys cell_eqb (neighborhood_key (columns out)) (rows out) /\
    (forall pre r post,
       rows merged_df = (pre ++ r :: post)%list ->
       Forall (fun x => key_eqb cell_eqb (neighborhood_key (columns out) r)
                          (neighborhood_key (columns out) x) = false) pre ->
       In r (rows out)) /\
    (forall r,
       In r (rows merged_df) ->
       In r (rows out) \/
       exists kept,
         In kept (rows out) /\
         key_eqb cell_eqb (neighborhood_key (columns out) r)
           (neighborhood_key (columns out) kept) = true).
Proof.
  rewrite FrameFacts.merge_dataframes_steps.
  destruct (before_deduplication _ _ _ _ _ _ _ _) as [m|e]; [|discriminate].
  simpl. intros H. apply drop_duplicates_inv in H as [Hc Hr].
  exists m. split; [reflexivity|]. split; [exact Hc|].
  rewrite Hr, Hc. unfold neighborhood_key.
  split; [apply first_occurrences_select|].
  split; [apply first_occurrences_distinct|]. split.
  - intros pre r post E Hpre. rewrite E.
    now apply first_occurrences_keeps_first.
  - intros r Hin.
    destruct (first_occurrences_covers
                (select (map (among ["neighborhood"]) (columns m))) (rows m) [] r Hin)
      as [H|[H|H]]; [now left|discriminate|now right].
Qed.

(** *** The labels of the result *)

Lemma last_column_inv (df : DataFrame cell) (last : string) :
  last_column df = Ok last -> exists init, columns df = (init ++ [last])%list.
Proof.
  unfold last_column. destruct (rev (columns df)) as [|c rest] eqn:E;
    [discriminate|].
  intros [= <-]. exists (rev rest).
  rewrite <- (rev_involutive (columns df)), E. reflexivity.
Qed.

Lemma merge_dataframes_last (left_df right_df out : DataFrame cell)
  (left_on right_on : list string) (suffixes : string * string) (name : string) :
  merge_dataframes cell_eqb nan left_df right_df left_on right_on suffixes
    (Some name) = Ok out ->
  exists init, columns out = (init ++ [name])%list.
Proof.
  rewrite FrameFacts.merge_dataframes_steps. unfold before_deduplication.
  destruct (pd_merge _ _ _ _ _ _ _ _) as [m|e]; [|discriminate]. simpl.
  destruct (drop m right_on) as [d|e]; [|discriminate]. simpl.
  destruct (last_column d) as [last|e] eqn:El; [|discriminate]. simpl.
  intros H. apply drop_duplicates_inv in H as [-> _].
  destruct (last_column_inv _ _ El) as (init & Ed). simpl. rewrite Ed.
  exists (map (fun c => if String.eqb c last then name else c) init).
  rewrite map_app. simpl. now rewrite String.eqb_refl.
Qed.

Lemma merge_dataframes_without (left_df right_df out : DataFrame cell)
  (left_on right_on : list string) (suffixes : string * string)
  (rename_last_col : option string) (key : string) :
  merge_dataframes cell_eqb nan left_df right_df left_on right_on suffixes
    rename_last_col = Ok out ->
  In key right_on -> rename_last_col <> Some key ->
  ~ In key (columns out).
Proof.
  rewrite FrameFacts.merge_dataframes_steps. unfold before_deduplication.
  destruct (pd_merge _ _ _ _ _ _ _ _) as [m|e]; [|discriminate]. simpl.
  destruct (drop m right_on) as [d|e] eqn:Hdrop; [|discriminate]. simpl.
  intros H Hkey Hname.
  pose proof (FrameFacts.drop_removes _ _ _ _ _ Hdrop Hkey) as Hd.
  destruct rename_last_col as [name|].
  - destruct (last_column d) as [c|e]; [|discriminate]. simpl in H.
    apply drop_duplicates_inv in H as [-> _]. intros Hin.
    apply FrameFacts.rename_columns_In in Hin as [E|Hin]; [|contradiction].
    apply Hname. now rewrite E.
  - simpl in H. now apply drop_duplicates_inv in H as [-> _].
Qed.

(** X12.  The frame returned by the join engine ends with the column named by
    [rename_last_col], when one is given, and holds no column under the
    label of a right key, that name apart. *)
Theorem merge_dataframes_labels (left_df right_df out : DataFrame cell)
  (left_on right_on : list string) (suffixes : string * string)
  (rename_last_col : option string) :
  merge_dataframes cell_eqb nan left_df right_df left_on right_on suffixes
    rename_last_col = Ok out ->
  (forall name, rename_last_col = Some name ->
     exists init, columns out = (init ++ [name])%list) /\
  (forall key, In key right_on -> rename_last_col <> Some key ->
     ~ In key (columns out)).
Proof.
  intros H. split.
  - intros name ->. now apply merge_dataframes_last in H.
  - intros key Hkey Hne. now apply (merge_dataframes_without _ _ _ _ _ _ _ _ H Hkey).
Qed.

(** *** Rectangular frames *)

Lemma select_length {A B : Type} (mask : list bool) (l1 : list A) (l2 : list B) :
  List.length l1 = List.length l2 ->
  List.length (select mask l1) = List.length (select mask l2).
Proof.
  revert l1 l2; induction mask as [|b mask IH]; intros [|x l1] [|y l2];
    simpl; try discriminate; try reflexivity.
  intros [= H]. destruct b; simpl; auto.
Qed.

Lemma merge_labels_length (lcols rcols ll rl : list string)
  (suffixes : string * string) :
  merge_labels lcols rcols suffixes = Ok (ll, rl) ->
  List.length ll = List.length lcols /\ List.length rl = List.length rcols.
Proof.
  unfold merge_labels. destruct (filter (among rcols) lcols) as [|c cs].
  - now intros [= <- <-].
  - destruct suffixes as [lsuffix rsuffix].
    destruct (String.eqb lsuffix "" && String.eqb rsuffix ""); [discriminate|].
    destruct (_ || _); [discriminate|].
    intros [= <- <-]. unfold with_suffix. now rewrite !length_map.
Qed.

Lemma pd_merge_well_formed (h : how) (l r out : DataFrame cell)
  (left_on right_on : list string) (suffixes : string * string) :
  well_formed l -> well_formed r ->
  pd_merge cell_eqb nan h l r left_on right_on suffixes = Ok out ->
  well_formed out.
Proof.
  intros Hl Hr H.
  destruct (pd_merge_inv _ _ _ _ _ _ _ H) as ([ll rl] & Hlab & Hcols & Hrows).
  apply merge_labels_length in Hlab as [Hll Hrl]. simpl in Hcols.
  unfold well_formed. rewrite Hrows, Hcols, length_app, Hll, Hrl.
  apply Forall_flat_map. unfold well_formed in Hl.
  eapply Forall_impl; [|exact Hl]. intros row Hrow. unfold merge_row.
  destruct (matching cell_eqb nan l r left_on right_on row) as [|m ms] eqn:Em.
  - destruct h; constructor; [|constructor].
    now rewrite length_app, repeat_length, Hrow.
  - apply Forall_map.
    pose proof (FrameFacts.matching_well_formed cell cell_eqb nan l r
                  left_on right_on row Hr) as Hm.
    rewrite Em in Hm. eapply Forall_impl; [|exact Hm].
    intros b Hb. rewrite length_app, Hrow. f_equal. now apply select_length.
Qed.

Lemma drop_well_formed (df out : DataFrame cell) (labels : list string) :
  well_formed df -> drop df labels = Ok out -> well_formed out.
Proof.
  unfold drop, well_formed. intros Hwf.
  destruct (forallb _ labels); [|discriminate]. intros [= <-]. simpl.
  apply Forall_map. eapply Forall_impl; [|exact Hwf].
  intros row Hrow. now apply select_length.
Qed.

Lemma drop_duplicates_well_formed (df out : DataFrame cell) (subset : list string) :
  well_formed df -> drop_duplicates cell_eqb df subset = Ok out -> well_formed out.
Proof.
  intros Hwf H. apply drop_duplicates_inv in H as [Hc Hr].
  unfold well_formed in *. rewrite Hc, Hr. rewrite Forall_forall in *.
  intros row Hin. apply Hwf. eapply first_occurrences_incl. exact Hin.
Qed.

(** X13.  The join engine keeps frames rectangular: when every row of the two
    frames joined has one cell per column, so has every row of the frame
    returned. *)
Theorem merge_dataframes_well_formed (left_df right_df out : DataFrame cell)
  (left_on right_on : list string) (suffixes : string * string)
  (rename_last_col : option string) :
  well_formed left_df -> well_formed right_df ->
  merge_dataframes cell_eqb nan left_df right_df left_on right_on suffixes
    rename_last_col = Ok out ->
  well_formed out.
Proof.
  intros Hl Hr. unfold merge_dataframes.
  destruct (pd_merge _ _ _ _ _ _ _ _) as [m|e] eqn:Hm; [|discriminate]. simpl.
  destruct (drop m right_on) as [d|e] eqn:Hd; [|discriminate]. simpl.
  pose proof (drop_well_formed _ _ _ (pd_merge_well_formed _ _ _ _ _ _ _ Hl Hr Hm) Hd)
    as Hwd.
  destruct rename_last_col as [name|].
  - destruct (last_column d) as [last|e]; [|discriminate]. simpl.
    apply drop_duplicates_well_formed.
    unfold well_formed in *. simpl. now rewrite length_map.
  - simpl. now apply drop_duplicates_well_formed.
Qed.

(** *** The joins of [__main__] *)

Lemma length_le_list_sum {A : Type} (f : A -> nat) (l : list A) :
  (forall x, 1 <= f x)%nat -> (List.length l <= list_sum (map f l))%nat.
Proof.
  intros Hf. induction l as [|x tl IH]; [simpl; lia|].
  change (list_sum (map f (x :: tl))) with (f x + list_sum (map f tl))%nat.
  specialize (Hf x). simpl List.length. lia.
Qed.

Lemma getitem_columns_absent (df : DataFrame cell) (labels : list string)
  (label : string) :
  In label labels -> ~ In label (columns df) ->
  getitem_columns df labels = Raise KeyError.
Proof.
  intros Hin Hnot. unfold getitem_columns.
  assert (E : forallb (among (columns df)) labels = false).
  { apply not_true_is_false. intros H. rewrite forallb_forall in H.
    apply Hnot. apply FrameFacts.among_In. now apply H. }
  now rewrite E.
Qed.

(** X14.  The third join selects the column of the city home values by the last
    label of the city rent table: when the home value table has no column
    of that label, the fusion returns no table. *)
Theorem fuse_tables_needs_rent_label
  (neighborhoods_points_df neighborhood_zhvi_df city_zhvi_df city_zori_df
     : DataFrame cell) (label : string) :
  last_column city_zori_df = Ok label ->
  ~ In label (columns city_zhvi_df) ->
  exists e,
    fuse_tables cell_eqb nan neighborhoods_points_df neighborhood_zhvi_df
      city_zhvi_df city_zori_df = Raise e.
Proof.
  intros Hlast Hnot. unfold fuse_tables. rewrite Hlast.
  destruct (last_column neighborhood_zhvi_df) as [l1|e]; [|simpl; eauto].
  cbn [Py.bind].
  destruct (getitem_columns neighborhood_zhvi_df _) as [r1|e]; [|simpl; eauto].
  cbn [Py.bind].
  destruct (merge_dataframes _ _ neighborhoods_points_df _ _ _ _ _) as [m1|e];
    [|simpl; eauto].
  cbn [Py.bind].
  destruct (getitem_columns city_zori_df _) as [r2|e]; [|simpl; eauto].
  cbn [Py.bind].
  destruct (merge_dataframes _ _ m1 _ _ _ _ _) as [m2|e]; [|simpl; eauto].
  cbn [Py.bind].
  rewrite (getitem_columns_absent city_zhvi_df ["RegionName"; label] label);
    [simpl; eauto|simpl; auto|exact Hnot].
Qed.

(** X15.  The table returned by the fusion has a column [neighborhood] and no
    two rows of the same [neighborhood]; its last column is [city_ZHVI];
    no column is left under the label [RegionName]. *)
Theorem fuse_tables_result
  (neighborhoods_points_df neighborhood_zhvi_df city_zhvi_df city_zori_df out
     : DataFrame cell) :
  fuse_tables cell_eqb nan neighborhoods_points_df neighborhood_zhvi_df
    city_zhvi_df city_zori_df = Ok out ->
  In "neighborhood" (columns out) /\
  distinct_keys cell_eqb (neighborhood_key (columns out)) (rows out) /\
  (exists init, columns out = (init ++ ["city_ZHVI"])%list) /\
  ~ In "RegionName" (columns out).
Proof.
  unfold fuse_tables.
  destruct (last_column neighborhood_zhvi_df) as [l1|e]; [|discriminate].
  cbn [Py.bind].
  destruct (getitem_columns neighborhood_zhvi_df _) as [r1|e]; [|discriminate].
  cbn [Py.bind].
  destruct (merge_dataframes _ _ neighborhoods_points_df _ _ _ _ _) as [m1|e];
    [|discriminate].
  cbn [Py.bind].
  destruct (last_column city_zori_df) as [l2|e]; [|discriminate].
  cbn [Py.bind].
  destruct (getitem_columns city_zori_df _) as [r2|e]; [|discriminate].
  cbn [Py.bind].
  destruct (merge_dataframes _ _ m1 _ _ _ _ _) as [m2|e]; [|discriminate].
  cbn [Py.bind].
  destruct (getitem_columns city_zhvi_df _) as [r3|e]; [|discriminate].
  cbn [Py.bind]. intros H.
  split; [|split; [|split]].
  - pose proof H as H'. rewrite FrameFacts.merge_dataframes_steps in H'.
    destruct (before_deduplication _ _ _ _ _ _ _ _) as [m|e]; [|discriminate].
    simpl in H'. apply FrameFacts.drop_duplicates_columns in H' as [-> Hall].
    now inversion Hall.
  - pose proof H as H'. rewrite FrameFacts.merge_dataframes_steps in H'.
    destruct (before_deduplication _ _ _ _ _ _ _ _) as [m|e]; [|discriminate].
    simpl in H'. apply drop_duplicates_inv in H' as [Hc Hr].
    rewrite Hr, Hc. apply first_occurrences_distinct.
  - now apply merge_dataframes_last in H.
  - apply (merge_dataframes_without _ _ _ _ _ _ _ _ H); [simpl; auto|discriminate].
Qed.

(** A label that received the suffix [_x] is none of the labels dropped. *)
Lemma suffix_x_not_dropped (c : string) :
  among ["city_name_y"; "state_id_y"] (c ++ "_x") = false.
Proof.
  unfold among. cbn [existsb]. rewrite orb_false_r.
  apply orb_false_iff; split; apply String.eqb_neq; intros H;
    do 12 (try (destruct c as [|? c]; simpl in H;
                [discriminate H|first [discriminate H|injection H as _ H]])).
Qed.

Lemma merge_labels_left_kept (lcols rcols ll rl : list string) :
  ~ In "city_name_y" lcols -> ~ In "state_id_y" lcols ->
  merge_labels lcols rcols ("_x", "_y") = Ok (ll, rl) ->
  keep_mask ["city_name_y"; "state_id_y"] ll = repeat true (List.length lcols).
Proof.
  intros Hc Hs H.
  assert (Hkept : forall cols,
    (forall c, In c cols -> c <> "city_name_y" /\ c <> "state_id_y") ->
    forall f, (forall c, f c = c \/ f c = c ++ "_x") ->
    keep_mask ["city_name_y"; "state_id_y"] (map f cols)
    = repeat true (List.length cols)).
  { intros cols Hcols f Hf. unfold keep_mask. rewrite map_map.
    induction cols as [|c tl IH]; [reflexivity|].
    cbn [map List.length repeat]. rewrite IH by (intros; apply Hcols; now right).
    f_equal. apply negb_true_iff.
    destruct (Hf c) as [-> | ->]; [|apply suffix_x_not_dropped].
    destruct (Hcols c (or_introl eq_refl)) as [H1 H2].
    unfold among. cbn [existsb]. rewrite orb_false_r.
    apply orb_false_iff; split; now apply String.eqb_neq. }
  assert (Hcols : forall c, In c lcols -> c <> "city_name_y" /\ c <> "state_id_y").
  { intros c Hin. split; intros ->; contradiction. }
  unfold merge_labels in H. destruct (filter (among rcols) lcols) as [|o os].
  - injection H as <- _. rewrite <- (map_id lcols) at 1.
    apply Hkept; [exact Hcols|]. now left.
  - cbn [String.eqb andb] in H. destruct (_ || _); [discriminate|].
    injection H as <- _. unfold with_suffix.
    apply Hkept; [exact Hcols|]. intros c. destruct (among _ c); auto.
Qed.

Lemma select_kept_prefix {A : Type} (mask : list bool) (row rest : list A) :
  select (repeat true (List.length row) ++ mask)%list (row ++ rest)%list
  = (row ++ select mask rest)%list.
Proof. induction row as [|x row IH]; simpl; [reflexivity|now rewrite IH]. Qed.

(** X16.  The join of the walkability scores keeps every record.  When it
    returns, it has one row per record and walkability row of the same
    [neighborhood], a record without walkability row counting once -- at
    least as many rows as there are records, and more when a name occurs
    more than once among the walkability rows.  When moreover the records
    have one cell per column and no column under the labels dropped
    ([city_name_y], [state_id_y]), every record begins a row of the result
    with all its cells, and every row of the result begins with the cells
    of a record. *)
Theorem attach_walkscores_keeps_records
  (neighborhood_rtv_gdf walkscore_df out : DataFrame cell) :
  attach_walkscores cell_eqb nan neighborhood_rtv_gdf walkscore_df = Ok out ->
  (List.length (rows out)
   = list_sum
       (map (fun record =>
               Nat.max 1
                 (List.length (matching cell_eqb nan neighborhood_rtv_gdf walkscore_df
                                 ["neighborhood"] ["neighborhood"] record)))
            (rows neighborhood_rtv_gdf)) /\
   (List.length (rows neighborhood_rtv_gdf) <= List.length (rows out))%nat) /\
  (well_formed neighborhood_rtv_gdf ->
   ~ In "city_name_y" (columns neighborhood_rtv_gdf) ->
   ~ In "state_id_y" (columns neighborhood_rtv_gdf) ->
   (forall record, In record (rows neighborhood_rtv_gdf) ->
      exists rest, In (record ++ rest)%list (rows out)) /\
   (forall row, In row (rows out) ->
      exists record rest,
        In record (rows neighborhood_rtv_gdf) /\ row = (record ++ rest)%list)).
Proof.
  unfold attach_walkscores.
  destruct (pd_merge _ _ _ _ _ _ _ _) as [m|e] eqn:Hm; [|discriminate]. simpl.
  destruct (drop m _) as [d|e] eqn:Hd; [|discriminate]. simpl.
  intros [= <-]. simpl rows.
  destruct (pd_merge_inv _ _ _ _ _ _ _ Hm) as (labels & Hlabels & Hcols & Hrows).
  pose proof (FrameFacts.drop_rows _ _ _ _ Hd) as Hdrop.
  split.
  - assert (Hlen : List.length (rows d) = List.length (rows m)).
    { rewrite Hdrop. apply length_map. }
    assert (Hsum : List.length (rows m)
                   = list_sum
                       (map (fun record =>
                               Nat.max 1
                                 (List.length
                                    (matching cell_eqb nan neighborhood_rtv_gdf
                                       walkscore_df ["neighborhood"] ["neighborhood"]
                                       record)))
                            (rows neighborhood_rtv_gdf))).
    { rewrite Hrows, length_flat_map. f_equal. apply map_ext. intros row.
      apply merge_row_left_length. }
    rewrite Hlen, Hsum. split; [reflexivity|].
    apply length_le_list_sum. intros record. apply Nat.le_max_l.
  - intros Hwf Hc Hs. destruct labels as [ll rl].
    pose proof (merge_labels_left_kept _ _ _ _ Hc Hs Hlabels) as Hkeep.
    assert (Hsel : forall record rest,
      In record (rows neighborhood_rtv_gdf) ->
      select (keep_mask ["city_name_y"; "state_id_y"] (columns m))
             (record ++ rest)%list
      = (record ++ select (keep_mask ["city_name_y"; "state_id_y"] rl) rest)%list).
    { intros record rest Hin. rewrite Hcols. simpl fst. simpl snd.
      unfold keep_mask at 1. rewrite map_app. fold (keep_mask ["city_name_y"; "state_id_y"] ll).
      fold (keep_mask ["city_name_y"; "state_id_y"] rl). rewrite Hkeep.
      unfold well_formed in Hwf. rewrite Forall_forall in Hwf.
      rewrite <- (Hwf record Hin). apply select_kept_prefix. }
    assert (Hrow : forall record row,
      In record (rows neighborhood_rtv_gdf) ->
      In row (merge_row nan left
                (matching cell_eqb nan neighborhood_rtv_gdf walkscore_df
                   ["neighborhood"] ["neighborhood"])
                (keep_mask (same_named ["neighborhood"] ["neighborhood"])
                   (columns walkscore_df))
                (List.length
                   (select (keep_mask (same_named ["neighborhood"] ["neighborhood"])
                              (columns walkscore_df)) (columns walkscore_df)))
                record) ->
      exists rest, row = (record ++ rest)%list).
    { intros record row _. unfold merge_row.
      destruct (matching _ _ _ _ _ _ record) as [|b bs].
      - intros [<-|[]]. eauto.
      - intros Hin. apply in_map_iff in Hin as (x & <- & _). eauto. }
    split.
    + intros record Hin.
      destruct (merge_row_left_prefix
                  (matching cell_eqb nan neighborhood_rtv_gdf walkscore_df
                     ["neighborhood"] ["neighborhood"])
                  (keep_mask (same_named ["neighborhood"] ["neighborhood"])
                     (columns walkscore_df))
                  (List.length
                     (select (keep_mask (same_named ["neighborhood"] ["neighborhood"])
                                (columns walkscore_df)) (columns walkscore_df)))
                  record) as (rest & Hrest).
      exists (select (keep_mask ["city_name_y"; "state_id_y"] rl) rest).
      rewrite Hdrop, <- (Hsel record rest Hin). apply in_map.
      rewrite Hrows. apply in_flat_map. now exists record.
    + intros row Hin. rewrite Hdrop in Hin.
      apply in_map_iff in Hin as (full & <- & Hfull).
      rewrite Hrows in Hfull. apply in_flat_map in Hfull as (record & Hrec & Hfull).
      destruct (Hrow record full Hrec Hfull) as (rest & ->).
      exists record, (select (keep_mask ["city_name_y"; "state_id_y"] rl) rest).
      split; [exact Hrec|now apply Hsel].
Qed.

End CellFacts.

End TablesFacts.

(** *** The joins on the sample tables *)

Module TablesWitness.

Import Frame Cell Tables SampleTables.
Local Open Scope string_scope.

Lemma pd_merge_left_keeps_rows_witness :
  (forall row, In row (rows records) ->
     exists rest, In (row ++ rest)%list (rows joined_walkscores)) /\
  List.length (rows joined_walkscores)
  = list_sum
      (map (fun row =>
              Nat.max 1 (List.length (matching Cell.eqb NaN records walkscores
                                        ["neighborhood"] ["neighborhood"] row)))
           (rows records)).
Proof.
  apply (TablesFacts.pd_merge_left_keeps_rows Cell.t Cell.eqb NaN
           records walkscores joined_walkscores
           ["neighborhood"] ["neighborhood"] ("_x", "_y")).
  reflexivity.
Defined.

Lemma merge_dataframes_distinct_neighborhoods_witness :
  exists merged_df,
    before_deduplication Cell.eqb NaN points neighborhood_zhvi
      ["neighborhood"; "state_id"; "city_name"] ["RegionName"; "State"; "City"]
      ("_left", "_right") (Some "neighborhood_ZHVI") = Ok merged_df /\
    columns with_neighborhood_ZHVI = columns merged_df /\
    (exists mask,
       List.length mask = List.length (rows merged_df) /\
       rows with_neighborhood_ZHVI = select mask (rows merged_df)) /\
    distinct_keys Cell.eqb (neighborhood_key (columns with_neighborhood_ZHVI))
      (rows with_neighborhood_ZHVI) /\
    (forall pre r post,
       rows merged_df = (pre ++ r :: post)%list ->
       Forall (fun x =>
                 key_eqb Cell.eqb
                   (neighborhood_key (columns with_neighborhood_ZHVI) r)
                   (neighborhood_key (columns with_neighborhood_ZHVI) x) = false)
              pre ->
       In r (rows with_neighborhood_ZHVI)) /\
    (forall r,
       In r (rows merged_df) ->
       In r (rows with_neighborhood_ZHVI) \/
       exists kept,
         In kept (rows with_neighborhood_ZHVI) /\
         key_eqb Cell.eqb (neighborhood_key (columns with_neighborhood_ZHVI) r)
           (neighborhood_key (columns with_neighborhood_ZHVI) kept) = true).
Proof.
  apply (TablesFacts.merge_dataframes_distinct_neighborhoods Cell.t Cell.eqb NaN
           points neighborhood_zhvi with_neighborhood_ZHVI
           ["neighborhood"; "state_id"; "city_name"]
           ["RegionName"; "State"; "City"]
           ("_left", "_right") (Some "neighborhood_ZHVI")).
  reflexivity.
Defined.

Lemma merge_dataframes_labels_witness :
  (forall name, Some "neighborhood_ZHVI" = Some name ->
     exists init, columns with_neighborhood_ZHVI = (init ++ [name])%list) /\
  (forall key, In key ["RegionName"; "State"; "City"] ->
     Some "neighborhood_ZHVI" <> Some key ->
     ~ In key (columns with_neighborhood_ZHVI)).
Proof.
  apply (TablesFacts.merge_dataframes_labels Cell.t Cell.eqb NaN
           points neighborhood_zhvi with_neighborhood_ZHVI
           ["neighborhood"; "state_id"; "city_name"]
           ["RegionName"; "State"; "City"]
           ("_left", "_right") (Some "neighborhood_ZHVI")).
  reflexivity.
Defined.

Lemma merge_dataframes_well_formed_witness :
  well_formed with_neighborhood_ZHVI.
Proof.
  apply (TablesFacts.merge_dataframes_well_formed Cell.t Cell.eqb NaN
           points neighborhood_zhvi with_neighborhood_ZHVI
           ["neighborhood"; "state_id"; "city_name"]
           ["RegionName"; "State"; "City"]
           ("_left", "_right") (Some "neighborhood_ZHVI")).
  - repeat constructor.
  - repeat constructor.
  - reflexivity.
Defined.

Lemma fuse_tables_needs_rent_label_witness :
  exists e,
    fuse_tables Cell.eqb NaN points neighborhood_zhvi city_zhvi_earlier city_zori
    = Raise e.
Proof.
  apply (TablesFacts.fuse_tables_needs_rent_label Cell.t Cell.eqb NaN
           points neighborhood_zhvi city_zhvi_earlier city_zori "2023-01-31").
  - reflexivity.
  - simpl. intros [H|[H|[]]]; discriminate.
Defined.

Lemma fuse_tables_result_witness :
  In "neighborhood" (columns fused) /\
  distinct_keys Cell.eqb (neighborhood_key (columns fused)) (rows fused) /\
  (exists init, columns fused = (init ++ ["city_ZHVI"])%list) /\
  ~ In "RegionName" (columns fused).
Proof.
  apply (TablesFacts.fuse_tables_result Cell.t Cell.eqb NaN
           points neighborhood_zhvi city_zhvi city_zori fused).
  reflexivity.
Defined.

Lemma attach_walkscores_keeps_records_witness :
  (List.length (rows with_walkscores)
   = list_sum
       (map (fun record =>
               Nat.max 1
                 (List.length (matching Cell.eqb NaN records walkscores
                                 ["neighborhood"] ["neighborhood"] record)))
            (rows records)) /\
   (List.length (rows records) <= List.length (rows with_walkscores))%nat) /\
  (forall record, In record (rows records) ->
     exists rest, In (record ++ rest)%list (rows with_walkscores)) /\
  (forall row, In row (rows with_walkscores) ->
     exists record rest, In record (rows records) /\ row = (record ++ rest)%list).
Proof.
  destruct (TablesFacts.attach_walkscores_keeps_records Cell.t Cell.eqb NaN
              records walkscores with_walkscores eq_refl) as [Hcount Hkept].
  split; [exact Hcount|]. apply Hkept.
  - repeat constructor.
  - simpl. intros [H|[H|[H|[]]]]; discriminate.
  - simpl. intros [H|[H|[H|[]]]]; discriminate.
Defined.

End TablesWitness.

(* ----------------------------------------------------------------- *)
(** *** The population column as a whole *)

Module PopulationColumn.

Import Population.

(** X17.  When the population column converts, it keeps its length and its
    missing values where they were: a cell of the result is missing exactly
    when the cell it comes from was missing.  Every other cell holds the
    integer that [int] reads in the text without its commas: as that integer
    when the array keeps integers, which it does whenever the column has no
    missing value, and as that integer converted to float64 when the array
    is converted to float64. *)
Theorem population_column_keeps_missing (int_of_unicode : string -> option Z)
  (col : list (option string)) (out : values) :
  population_column int_of_unicode (Text col) = Ok out ->
  List.length (cells out) = List.length col /\
  (forall i x,
     nth_error col i = Some x ->
     exists y, population_cell int_of_unicode x = Ok y /\
       nth_error (cells out) i = Some (stored out y) /\
       (is_missing (stored out y) = true <-> x = None)) /\
  (existsb is_none col = false -> forall y, stored out y = object_cell y).
Proof.
  intros H. split; [exact (PopulationFacts.population_column_length _ _ _ H)|].
  split; [exact (PopulationFacts.population_column_nth _ _ _ H)|].
  exact (PopulationFacts.population_column_no_missing _ _ _ H).
Qed.

Lemma population_column_keeps_missing_witness :
  List.length (cells (Float64 [S754_finite false 6786735522447360 (-39);
                               S754_nan;
                               S754_finite false 8681743812919296 (-43)]))
  = List.length [Some "12,345"; None; Some "987"]%string /\
  (forall i x,
     nth_error [Some "12,345"; None; Some "987"]%string i = Some x ->
     exists y, population_cell (fun _ => None) x = Ok y /\
       nth_error
         (cells (Float64 [S754_finite false 6786735522447360 (-39);
                          S754_nan;
                          S754_finite false 8681743812919296 (-43)])) i
       = Some (PyFloat (to_float y)) /\
       (is_missing (PyFloat (to_float y)) = true <-> x = None)) /\
  (existsb is_none [Some "12,345"; None; Some "987"]%string = false ->
   forall y, PyFloat (to_float y) = object_cell y).
Proof.
  apply (population_column_keeps_missing (fun _ => None)
           [Some "12,345"; None; Some "987"]%string
           (Float64 [S754_finite false 6786735522447360 (-39);
                     S754_nan;
                     S754_finite false 8681743812919296 (-43)])).
  vm_compute. reflexivity.
Defined.

End PopulationColumn.

(* ----------------------------------------------------------------- *)
(** *** A query inside a reference *)

Lemma SFleb_zero_antisym (x : float64) (s : bool) :
  SFleb x (S754_zero s) = true -> SFleb (S754_zero s) x = true ->
  is_zero x = true.
Proof.
  unfold SFleb. destruct x as [sx|sx| |sx mx ex]; simpl; try reflexivity;
    try discriminate; destruct sx; simpl; discriminate.
Qed.

Lemma SFltb_SFleb (x y : float64) : SFltb x y = true -> SFleb x y = true.
Proof.
  unfold SFltb, SFleb. destruct (SFcompare x y) as [[]|]; congruence.
Qed.

Section InsideFacts.

Variable geometry : Type.
Variable distance : geometry -> geometry -> float64.

(** X18.  When every distance is a number at least zero and some polygon is at
    distance zero from the point -- the point lies in it -- [nearest_poly]
    returns the label of a polygon at distance zero. *)
Theorem nearest_poly_of_point_inside (point : geometry)
  (polygons : list (Z * geometry)) :
  Forall (fun r => SFleb pos_zero (distance (snd r) point) = true) polygons ->
  Exists (fun r => is_zero (distance (snd r) point) = true) polygons ->
  exists ref,
    In ref polygons /\
    nearest_poly distance point polygons = Ok (Some (fst ref)) /\
    is_zero (distance (snd ref) point) = true.
Proof.
  intros Hpos Hzero.
  destruct (gdf_idxmin_first geometry distance fst snd polygons point)
    as (pre & ref & post & E & Hidx & Hnan & Hpre & Hpost).
  { apply Exists_exists in Hzero as (r & Hin & Hr). apply Exists_exists.
    exists r. split; [exact Hin|]. now destruct (distance (snd r) point). }
  exists ref. split; [rewrite E; apply in_or_app; right; now left|].
  split; [exact Hidx|].
  apply Exists_exists in Hzero as (r & Hin & Hr).
  destruct (distance (snd r) point) as [sz| | |] eqn:Er; try discriminate.
  assert (Hle : SFleb (distance (snd ref) point) (S754_zero sz) = true).
  { rewrite E in Hin. apply in_app_or in Hin as [Hin|[<-|Hin]].
    - rewrite Forall_forall in Hpre. destruct (Hpre r Hin) as [Hn|Hlt].
      + now rewrite Er in Hn.
      + unfold Series.lt in Hlt. rewrite Er in Hlt. now apply SFltb_SFleb.
    - rewrite Er. reflexivity.
    - rewrite Forall_forall in Hpost. destruct (Hpost r Hin) as [Hn|Hle].
      + now rewrite Er in Hn.
      + unfold Series.le in Hle. now rewrite Er in Hle. }
  apply (SFleb_zero_antisym _ sz Hle).
  rewrite Forall_forall in Hpos.
  assert (Hin' : In ref polygons) by (rewrite E; apply in_or_app; right; now left).
  specialize (Hpos ref Hin').
  destruct (distance (snd ref) point) as [s'|s'| |s' m' e']; try discriminate;
    try reflexivity; destruct s'; try discriminate; reflexivity.
Qed.

End InsideFacts.

Lemma nearest_poly_of_point_inside_witness :
  exists ref,
    In ref [(10, f1500); (11, pos_zero); (12, f1)] /\
    nearest_poly (fun g _ : float64 => g) f1 [(10, f1500); (11, pos_zero); (12, f1)]
      = Ok (Some (fst ref)) /\
    is_zero (snd ref) = true.
Proof.
  apply (nearest_poly_of_point_inside float64 (fun g _ => g) f1
           [(10, f1500); (11, pos_zero); (12, f1)]).
  - repeat constructor.
  - apply Exists_cons_tl, Exists_cons_hd. reflexivity.
Defined.
